(** * lookingglass: the master's scheduler, agent manager and IP masking

  A shallow embedding of the Go sources
    - master/ws/iputils.go            (maskIPv6Address, expandIPv6, padHex)
    - package ws, client and server   (maskIP, maskIPAddress, UnregisterClient)
    - package agent                   (Manager, StreamRegistry)
    - master/task/scheduler.go        (Scheduler)
    - master/server/stream_handler.go (AgentStream and its cleanup)
  Go strings are byte strings; they are modelled by [string].  Go maps are
  modelled by [gmap]; the pointers stored in them are modelled by the
  record they point to, written back after each mutation. *)

From Stdlib Require Import ZArith String Ascii List Bool Lia DecimalString.
From stdpp Require Import base option gmap strings list.

Local Open Scope string_scope.

(** ** The functions of Go's [strings] package used by the sources *)

Module GoStrings.

(** [len(s)] *)
Definition len (s : string) : nat := String.length s.

(** [strings.HasPrefix(s, prefix)] *)
Fixpoint HasPrefix (s prefix : string) {struct prefix} : bool :=
  match prefix, s with
  | EmptyString, _ => true
  | String _ _, EmptyString => false
  | String p prefix', String c s' =>
      if Ascii.eqb p c then HasPrefix s' prefix' else false
  end.

(** The slice [s[n:]] (for [n <= len(s)]). *)
Fixpoint sliceFrom (s : string) (n : nat) {struct n} : string :=
  match n, s with
  | S k, String _ s' => sliceFrom s' k
  | _, _ => s
  end.

(** [strings.HasSuffix(s, suffix)]:
    [len(s) >= len(suffix) && s[len(s)-len(suffix):] == suffix] *)
Definition HasSuffix (s suffix : string) : bool :=
  (len suffix <=? len s)%nat
  && String.eqb (sliceFrom s (len s - len suffix)) suffix.

(** [strings.Index(s, substr)]: the byte offset of the first occurrence,
    [None] for Go's [-1]. *)
Fixpoint Index (s substr : string) : option nat :=
  if HasPrefix s substr then Some 0%nat
  else match s with
       | EmptyString => None
       | String _ s' => S <$> Index s' substr
       end.

(** [strings.Contains(s, substr)] is [Index(s, substr) >= 0]. *)
Definition Contains (s substr : string) : bool :=
  match Index s substr with Some _ => true | None => false end.

(** [strings.Split(s, sep)] for a non-empty separator: cut at every
    occurrence of [sep], searched from the left without overlap.
    [cur] accumulates (reversed) the bytes of the piece being read and
    [skip] counts the bytes of a matched separator still to be passed. *)
Fixpoint SplitFrom (sep s : string) (skip : nat) (cur : list ascii)
  : list string :=
  match s with
  | EmptyString => [string_of_list_ascii (rev cur)]
  | String c s' =>
      match skip with
      | S k => SplitFrom sep s' k cur
      | O =>
          if HasPrefix s sep
          then string_of_list_ascii (rev cur)
                 :: SplitFrom sep s' (len sep - 1) []
          else SplitFrom sep s' 0 (c :: cur)
      end
  end.

(** With the empty separator Go explodes the string into its characters
    (bytes, for the ASCII data handled here); no caller does that. *)
Definition Split (s sep : string) : list string :=
  match sep with
  | EmptyString =>
      map (fun c => String c EmptyString) (list_ascii_of_string s)
  | String _ _ => SplitFrom sep s 0 []
  end.

(** [strings.Join(elems, sep)] *)
Fixpoint Join (elems : list string) (sep : string) : string :=
  match elems with
  | [] => ""
  | [e] => e
  | e :: rest => e ++ sep ++ Join rest sep
  end.

(** [strings.ReplaceAll(s, old, new)] for a non-empty [old]: every
    occurrence of [old], searched from the left without overlap, is
    replaced by [new]; [skip] counts the bytes of a matched occurrence
    still to be passed.  (With an empty [old] Go inserts [new] around
    every rune; no caller does that.) *)
Fixpoint replaceFrom (s old new : string) (skip : nat) {struct s}
  : string :=
  match s with
  | EmptyString => EmptyString
  | String c s' =>
      match skip with
      | S k => replaceFrom s' old new k
      | O =>
          if HasPrefix s old
          then new ++ replaceFrom s' old new (len old - 1)
          else String c (replaceFrom s' old new 0)
      end
  end.

Definition ReplaceAll (s old new : string) : string :=
  replaceFrom s old new 0.

End GoStrings.

(** ** Package strconv *)

Module strconv.

(** [strconv.Itoa]: the decimal numeral, with a minus sign for a negative
    number. *)
Definition Itoa (i : Z) : string := NilZero.string_of_int (Z.to_int i).

(** [strconv.FormatBool] *)
Definition FormatBool (b : bool) : string := if b then "true" else "false".

End strconv.

(** ** Package pb: the generated protobuf types *)

Module pb.

(** Modelled from the spec: the generated package [pb] is not among the
    sources; this is its enumeration [pb.TaskStatus], with the members the
    Go code names (spec, DATA MODEL). *)
Inductive TaskStatus :=
| TASK_STATUS_UNSPECIFIED
| TASK_STATUS_PENDING
| TASK_STATUS_RUNNING
| TASK_STATUS_COMPLETED
| TASK_STATUS_FAILED
| TASK_STATUS_CANCELLED.

(** Modelled from the spec: the enumeration [pb.AgentStatus] of the
    generated package (a probe is Online or Offline). *)
Inductive AgentStatus :=
| AGENT_STATUS_UNSPECIFIED
| AGENT_STATUS_ONLINE
| AGENT_STATUS_OFFLINE.

#[global] Instance TaskStatus_eq_dec : EqDecision TaskStatus.
Proof. solve_decision. Defined.

#[global] Instance AgentStatus_eq_dec : EqDecision AgentStatus.
Proof. solve_decision. Defined.

(** Modelled from the spec: the message [pb.AgentInfo] of the generated
    package (ProbeInfo), with the fields the master reads. *)
Record AgentInfo := {
  Id : string;
  Name : string;
  Location : string;
  Ipv4 : string;
  Ipv6 : string;
  HideIp : bool;
  MaxConcurrent : Z  (* int32 *)
}.

(** Modelled from the spec: the message [pb.Task] of the generated
    package, with the fields the master reads. *)
Record Task := {
  TaskId : string;
  AgentId : string;
  TaskName : string
}.

(** Modelled from the spec: the message [pb.TaskOutput] of the generated
    package. *)
Record TaskOutput := {
  OutTaskId : string;           (* TaskId *)
  OutputLine : string;
  Timestamp : option Z;
  Status : TaskStatus;
  ErrorMessage : string
}.

(** Modelled from the spec: the envelope [pb.MasterMessage] of the
    generated package, the messages the master sends on an agent stream
    (request ids left out). *)
Inductive MasterMessage :=
| TYPE_REGISTER_RESPONSE (success : bool)
| TYPE_HEARTBEAT_RESPONSE
| TYPE_EXECUTE_TASK (task : Task)
| TYPE_CANCEL_TASK (taskID : string).

(** Modelled from the spec: the envelope [pb.AgentMessage] of the generated
    package, the messages an agent sends on its stream; a payload may be
    missing. *)
Inductive AgentMessage :=
| TYPE_REGISTER (agentInfo : option AgentInfo)
| TYPE_HEARTBEAT (heartbeat : option (string * Z))
| TYPE_TASK_OUTPUT (output : option TaskOutput)
| TYPE_TASK_COMPLETE (output : option TaskOutput)
| TYPE_TASK_FAILED (output : option TaskOutput)
| TYPE_OTHER.

End pb.

(** Two's complement wrap-around of Go's fixed-width integers. *)
Definition wrap (w : Z) (x : Z) : Z :=
  ((x + 2 ^ (w - 1)) mod 2 ^ w - 2 ^ (w - 1))%Z.

Definition int32 (x : Z) : Z := wrap 32 x.
Definition int64 (x : Z) : Z := wrap 64 x.

(** ** Package agent: Manager and StreamRegistry *)

Module agent.
Import pb.

Record Agent := {
  Info : AgentInfo;
  Status : AgentStatus;
  LastHeartbeat : Z;      (* time.Time *)
  CurrentTasks : Z;       (* int32 *)
  HasGRPCConn : bool;     (* GRPCConn != nil *)
  UseStream : bool
}.

Definition setStatus (a : Agent) (st : AgentStatus) : Agent :=
  {| Info := Info a; Status := st; LastHeartbeat := LastHeartbeat a;
     CurrentTasks := CurrentTasks a; HasGRPCConn := HasGRPCConn a;
     UseStream := UseStream a |}.

Definition setCurrentTasks (a : Agent) (n : Z) : Agent :=
  {| Info := Info a; Status := Status a; LastHeartbeat := LastHeartbeat a;
     CurrentTasks := n; HasGRPCConn := HasGRPCConn a;
     UseStream := UseStream a |}.

(** The manager: the agent table, the heartbeat timeout and the number of
    [notifyStatusChange] calls made so far.  The notifier (an external
    collaborator) is not modelled. *)
Record Manager := {
  agents : gmap string Agent;
  heartbeatTimeout : Z;
  statusChanges : nat
}.

Definition NewManager (timeout : Z) : Manager :=
  {| agents := ∅; heartbeatTimeout := timeout; statusChanges := 0 |}.

Definition setAgents (m : Manager) (ags : gmap string Agent) : Manager :=
  {| agents := ags; heartbeatTimeout := heartbeatTimeout m;
     statusChanges := statusChanges m |}.

Definition notifyStatusChange (m : Manager) : Manager :=
  {| agents := agents m; heartbeatTimeout := heartbeatTimeout m;
     statusChanges := S (statusChanges m) |}.

(** [Register] (deprecated gRPC mode); [connErr] is the outcome of
    [grpc.NewClient], [None] in the result is the error it wraps. *)
Definition Register (m : Manager) (info : AgentInfo) (now : Z)
    (connErr : bool) : option Manager :=
  match agents m !! Id info with
  | Some existingAgent =>
      let a := {| Info := info; Status := AGENT_STATUS_ONLINE;
                  LastHeartbeat := now;
                  CurrentTasks := CurrentTasks existingAgent;
                  HasGRPCConn := HasGRPCConn existingAgent;
                  UseStream := UseStream existingAgent |} in
      Some (setAgents m (<[Id info := a]> (agents m)))
  | None =>
      if connErr then None
      else
        let a := {| Info := info; Status := AGENT_STATUS_ONLINE;
                    LastHeartbeat := now; CurrentTasks := 0;
                    HasGRPCConn := true; UseStream := false |} in
        Some (setAgents m (<[Id info := a]> (agents m)))
  end.

(** [RegisterAgentFromStream]; it always returns [nil]. *)
Definition RegisterAgentFromStream (m : Manager) (info : AgentInfo)
    (now : Z) : Manager :=
  match agents m !! Id info with
  | Some existingAgent =>
      let wasOffline :=
        bool_decide (Status existingAgent = AGENT_STATUS_OFFLINE) in
      let a := {| Info := info; Status := AGENT_STATUS_ONLINE;
                  LastHeartbeat := now;
                  CurrentTasks := CurrentTasks existingAgent;
                  HasGRPCConn := false; UseStream := true |} in
      let m' := setAgents m (<[Id info := a]> (agents m)) in
      if wasOffline then notifyStatusChange m' else m'
  | None =>
      let a := {| Info := info; Status := AGENT_STATUS_ONLINE;
                  LastHeartbeat := now; CurrentTasks := 0;
                  HasGRPCConn := false; UseStream := true |} in
      notifyStatusChange (setAgents m (<[Id info := a]> (agents m)))
  end.

(** [UpdateHeartbeat]; [None] is the error [agent not found]. *)
Definition UpdateHeartbeat (m : Manager) (agentID : string)
    (currentTasks : Z) (now : Z) : option Manager :=
  match agents m !! agentID with
  | None => None
  | Some a =>
      let a' := {| Info := Info a; Status := AGENT_STATUS_ONLINE;
                   LastHeartbeat := now;
                   CurrentTasks := int32 currentTasks;
                   HasGRPCConn := HasGRPCConn a;
                   UseStream := UseStream a |} in
      Some (setAgents m (<[agentID := a']> (agents m)))
  end.

(** [MarkAgentOffline]: only an online agent changes, and then the
    status-change callbacks run. *)
Definition MarkAgentOffline (m : Manager) (agentID : string) : Manager :=
  match agents m !! agentID with
  | None => m
  | Some a =>
      if bool_decide (Status a = AGENT_STATUS_ONLINE) then
        notifyStatusChange
          (setAgents m
             (<[agentID := setStatus a AGENT_STATUS_OFFLINE]> (agents m)))
      else m
  end.

(** [GetAgent]; [None] is the error [agent not found]. *)
Definition GetAgent (m : Manager) (agentID : string) : option Agent :=
  agents m !! agentID.

(** [IncrementTaskCount]; [None] is the error [agent not found]. *)
Definition IncrementTaskCount (m : Manager) (agentID : string)
  : option Manager :=
  match agents m !! agentID with
  | None => None
  | Some a =>
      Some (setAgents m
              (<[agentID := setCurrentTasks a (int32 (CurrentTasks a + 1))]>
                 (agents m)))
  end.

(** [DecrementTaskCount]; the scheduler discards its error. *)
Definition DecrementTaskCount (m : Manager) (agentID : string) : Manager :=
  match agents m !! agentID with
  | None => m
  | Some a =>
      if (0 <? CurrentTasks a)%Z then
        setAgents m
          (<[agentID := setCurrentTasks a (int32 (CurrentTasks a - 1))]>
             (agents m))
      else m
  end.

(** [checkOfflineAgents]: every online agent whose last heartbeat is older
    than the timeout becomes offline (no status-change callback here). *)
Definition checkOfflineAgents (m : Manager) (now : Z) : Manager :=
  setAgents m
    ((fun a =>
        if bool_decide (Status a = AGENT_STATUS_ONLINE)
           && (heartbeatTimeout m <? now - LastHeartbeat a)%Z
        then setStatus a AGENT_STATUS_OFFLINE else a) <$> agents m).

(** [ExecuteTaskOnAgent] (deprecated gRPC mode): the error it returns, if
    any; [grpcErr] is the outcome of the remote call. *)
Definition ExecuteTaskOnAgent (m : Manager) (agentID : string)
    (grpcErr : option string) : option string :=
  match GetAgent m agentID with
  | None => Some ("agent not found: " ++ agentID)
  | Some a =>
      if negb (bool_decide (Status a = AGENT_STATUS_ONLINE))
      then Some ("agent is offline: " ++ agentID)
      else if UseStream a
      then Some ("agent uses stream communication, "
                 ++ "use StreamHandler.SendTaskToAgent instead")
      else match grpcErr with
           | Some e => Some ("failed to execute task on agent: " ++ e)
           | None => None
           end
  end.

(** The stream registry: the ids with a registered stream, and the
    messages written to each stream so far (oldest first). *)
Record StreamRegistry := {
  agentStreams : gset string;
  sent : list (string * MasterMessage)
}.

Definition NewStreamRegistry : StreamRegistry :=
  {| agentStreams := ∅; sent := [] |}.

Definition RegisterAgentStream (r : StreamRegistry) (agentID : string)
  : StreamRegistry :=
  {| agentStreams := {[agentID]} ∪ agentStreams r; sent := sent r |}.

Definition UnregisterAgentStream (r : StreamRegistry) (agentID : string)
  : StreamRegistry :=
  {| agentStreams := agentStreams r ∖ {[agentID]}; sent := sent r |}.

(** [SendToAgent]: [None] is [nil]; the error is [agent %s not connected]
    when no stream is registered for the agent, or the error of
    [stream.Send], whose outcome [sendErr] is decided by the transport. *)
Definition SendToAgent (r : StreamRegistry) (agentID : string)
    (msg : MasterMessage) (sendErr : option string)
  : StreamRegistry * option string :=
  if bool_decide (agentID ∈ agentStreams r) then
    match sendErr with
    | None => ({| agentStreams := agentStreams r;
                  sent := sent r ++ [(agentID, msg)] |}, None)
    | Some e => (r, Some e)
    end
  else (r, Some ("agent " ++ agentID ++ " not connected")).

End agent.

(** ** Package server: the stream handler as the scheduler's StreamSender *)

Module StreamSender.
Import pb.

(** [StreamHandler.SendTaskToAgent] *)
Definition SendTaskToAgent (r : agent.StreamRegistry) (agentID : string)
    (task : Task) (sendErr : option string)
  : agent.StreamRegistry * option string :=
  agent.SendToAgent r agentID (TYPE_EXECUTE_TASK task) sendErr.

(** [StreamHandler.CancelTaskOnAgent] *)
Definition CancelTaskOnAgent (r : agent.StreamRegistry) (agentID : string)
    (taskID : string) (sendErr : option string)
  : agent.StreamRegistry * option string :=
  agent.SendToAgent r agentID (TYPE_CANCEL_TASK taskID) sendErr.

End StreamSender.

(** ** Package task: the scheduler *)

Module task.
Import pb.

Record TaskInfo := {
  Task : pb.Task;
  AgentID : string;
  Status : TaskStatus;
  CreatedAt : Z;
  ClientID : string;
  Cancelled : bool      (* CancelFunc has been called *)
}.

Definition setStatus (ti : TaskInfo) (st : TaskStatus) : TaskInfo :=
  {| Task := Task ti; AgentID := AgentID ti; Status := st;
     CreatedAt := CreatedAt ti; ClientID := ClientID ti;
     Cancelled := Cancelled ti |}.

Definition callCancelFunc (ti : TaskInfo) : TaskInfo :=
  {| Task := Task ti; AgentID := AgentID ti; Status := Status ti;
     CreatedAt := CreatedAt ti; ClientID := ClientID ti;
     Cancelled := true |}.

(** An output handler [func(output)]: [None] is the nil function, a
    closure is named by the client session it writes to. *)
Definition Handler : Type := option string.

(** The scheduler's own fields.  [agentManager] and the stream sender point
    to objects shared with the stream handler and the WebSocket server; they
    live in [World] below, and [streamSender] records whether
    [SetStreamSender] has been called. *)
Record Scheduler := {
  streamSender : bool;
  globalMaxTasks : Z;       (* int *)
  currentTasks : Z;         (* int *)
  tasks : gmap string TaskInfo;
  outputHandlers : gmap string Handler
}.

Definition NewScheduler (globalMaxTasks : Z) : Scheduler :=
  {| streamSender := false; globalMaxTasks := globalMaxTasks;
     currentTasks := 0; tasks := ∅; outputHandlers := ∅ |}.

Definition SetStreamSender (s : Scheduler) : Scheduler :=
  {| streamSender := true; globalMaxTasks := globalMaxTasks s;
     currentTasks := currentTasks s; tasks := tasks s;
     outputHandlers := outputHandlers s |}.

Definition setCurrentTasks (s : Scheduler) (n : Z) : Scheduler :=
  {| streamSender := streamSender s; globalMaxTasks := globalMaxTasks s;
     currentTasks := n; tasks := tasks s;
     outputHandlers := outputHandlers s |}.

Definition setTasks (s : Scheduler) (t : gmap string TaskInfo) : Scheduler :=
  {| streamSender := streamSender s; globalMaxTasks := globalMaxTasks s;
     currentTasks := currentTasks s; tasks := t;
     outputHandlers := outputHandlers s |}.

Definition setOutputHandlers (s : Scheduler) (h : gmap string Handler)
  : Scheduler :=
  {| streamSender := streamSender s; globalMaxTasks := globalMaxTasks s;
     currentTasks := currentTasks s; tasks := tasks s;
     outputHandlers := h |}.

(** The master process: the objects the scheduler, the stream handler and
    the WebSocket server share, the [executeTask] goroutines started and
    not yet run, and the calls made to output handlers (oldest first). *)
Record World := {
  manager : agent.Manager;
  registry : agent.StreamRegistry;
  scheduler : Scheduler;
  goroutines : list pb.Task;
  handlerCalls : list (string * TaskOutput);
  clients : gset string
}.

Definition setManager (w : World) (m : agent.Manager) : World :=
  {| manager := m; registry := registry w; scheduler := scheduler w;
     goroutines := goroutines w; handlerCalls := handlerCalls w;
     clients := clients w |}.

Definition setRegistry (w : World) (r : agent.StreamRegistry) : World :=
  {| manager := manager w; registry := r; scheduler := scheduler w;
     goroutines := goroutines w; handlerCalls := handlerCalls w;
     clients := clients w |}.

Definition setScheduler (w : World) (s : Scheduler) : World :=
  {| manager := manager w; registry := registry w; scheduler := s;
     goroutines := goroutines w; handlerCalls := handlerCalls w;
     clients := clients w |}.

Definition setGoroutines (w : World) (g : list pb.Task) : World :=
  {| manager := manager w; registry := registry w; scheduler := scheduler w;
     goroutines := g; handlerCalls := handlerCalls w;
     clients := clients w |}.

Definition setClients (w : World) (c : gset string) : World :=
  {| manager := manager w; registry := registry w; scheduler := scheduler w;
     goroutines := goroutines w; handlerCalls := handlerCalls w;
     clients := c |}.

(** [handler(output)] *)
Definition callHandler (w : World) (h : string) (output : TaskOutput)
  : World :=
  {| manager := manager w; registry := registry w; scheduler := scheduler w;
     goroutines := goroutines w;
     handlerCalls := handlerCalls w ++ [(h, output)];
     clients := clients w |}.

(** The master as [master/main.go] wires it. *)
Definition NewWorld (heartbeatTimeout globalMax : Z) : World :=
  {| manager := agent.NewManager heartbeatTimeout;
     registry := agent.NewStreamRegistry;
     scheduler := SetStreamSender (NewScheduler globalMax);
     goroutines := []; handlerCalls := []; clients := ∅ |}.

(** Errors returned by [SubmitTask] and [CancelTask]. *)
Inductive error :=
| ErrSystemBusy (current max : Z)     (* system busy: global task limit reached *)
| ErrAgentNotFound (agentID : string) (* agent not found *)
| ErrAgentOffline (agentID : string)  (* agent is offline *)
| ErrAgentBusy (current max : Z)      (* agent busy: task limit reached *)
| ErrTaskNotFound (taskID : string).  (* task not found *)

(** [filterOutput]: [true] when the output is to be dropped. *)
Definition filterOutput (output : option TaskOutput) : bool :=
  match output with
  | None => true
  | Some o =>
      if GoStrings.Contains (OutputLine o) "MapTrace URL"
         || GoStrings.Contains (OutputLine o) "NextTrace"
         || GoStrings.Contains (OutputLine o) "IP Geo Data Provider"
      then true else false
  end.

(** [forwardOutput] *)
Definition forwardOutput (w : World) (output : TaskOutput) : World :=
  match outputHandlers (scheduler w) !! OutTaskId output with
  | Some (Some h) => callHandler w h output
  | _ => w
  end.

(** [updateTaskStatus] *)
Definition updateTaskStatus (w : World) (taskID : string)
    (status : TaskStatus) : World :=
  match tasks (scheduler w) !! taskID with
  | Some taskInfo =>
      setScheduler w
        (setTasks (scheduler w)
           (<[taskID := setStatus taskInfo status]> (tasks (scheduler w))))
  | None => w
  end.

(** [completeTask] *)
Definition completeTask (w : World) (taskID : string) (status : TaskStatus)
  : World :=
  match tasks (scheduler w) !! taskID with
  | None => w
  | Some taskInfo =>
      let s1 :=
        setCurrentTasks
          (setTasks (scheduler w)
             (<[taskID := setStatus taskInfo status]> (tasks (scheduler w))))
          (int64 (currentTasks (scheduler w) - 1)) in
      let agentID := AgentID taskInfo in
      let w1 :=
        setManager (setScheduler w s1)
          (agent.DecrementTaskCount (manager w) agentID) in
      let w2 :=
        match outputHandlers (scheduler w1) !! taskID with
        | Some (Some handler) =>
            if bool_decide (status = TASK_STATUS_COMPLETED)
               || bool_decide (status = TASK_STATUS_CANCELLED)
            then callHandler w1 handler
                   {| OutTaskId := taskID; OutputLine := "";
                      Timestamp := None; pb.Status := status;
                      ErrorMessage := "" |}
            else w1
        | _ => w1
        end in
      setScheduler w2
        (setOutputHandlers (scheduler w2)
           (delete taskID (outputHandlers (scheduler w2))))
  end.

(** [handleTaskError] *)
Definition handleTaskError (w : World) (taskID : string) (err : string)
    (now : Z) : World :=
  completeTask
    (forwardOutput w
       {| OutTaskId := taskID; OutputLine := ""; Timestamp := Some now;
          pb.Status := TASK_STATUS_FAILED; ErrorMessage := err |})
    taskID TASK_STATUS_FAILED.

(** What the environment decides during one call: the clock, the outcome
    of [stream.Send], and in the deprecated gRPC mode the outcome of the
    remote call and what [stream.Recv] then returns, call after call. *)
Inductive RecvResult :=
| RecvOutput (output : TaskOutput)
| RecvErr (err : string).

Record Env := {
  now : Z;
  sendErr : option string;
  grpcErr : option string;
  recvs : list RecvResult
}.

(** [SubmitTask]; [None] is the [nil] error. *)
Definition SubmitTask (w : World) (task : pb.Task) (clientID : string)
    (outputHandler : Handler) (now : Z) : World * option error :=
  let s := scheduler w in
  if (globalMaxTasks s <=? currentTasks s)%Z then
    (w, Some (ErrSystemBusy (currentTasks s) (globalMaxTasks s)))
  else
    match agent.GetAgent (manager w) (AgentId task) with
    | None => (w, Some (ErrAgentNotFound (AgentId task)))
    | Some a =>
        if negb (bool_decide (agent.Status a = AGENT_STATUS_ONLINE)) then
          (w, Some (ErrAgentOffline (AgentId task)))
        else if (MaxConcurrent (agent.Info a) <=? agent.CurrentTasks a)%Z then
          (w, Some (ErrAgentBusy (agent.CurrentTasks a)
                      (MaxConcurrent (agent.Info a))))
        else
          let s1 := setCurrentTasks s (int64 (currentTasks s + 1)) in
          match agent.IncrementTaskCount (manager w) (AgentId task) with
          | None =>
              (setScheduler w
                 (setCurrentTasks s1 (int64 (currentTasks s1 - 1))),
               Some (ErrAgentNotFound (AgentId task)))
          | Some m1 =>
              let taskInfo :=
                {| Task := task; AgentID := AgentId task;
                   Status := TASK_STATUS_PENDING; CreatedAt := now;
                   ClientID := clientID; Cancelled := false |} in
              let s2 := setTasks s1 (<[TaskId task := taskInfo]> (tasks s1)) in
              let s3 :=
                setOutputHandlers s2
                  (<[TaskId task := outputHandler]> (outputHandlers s2)) in
              (setGoroutines (setManager (setScheduler w s3) m1)
                 (goroutines w ++ [task]),
               None)
          end
    end.

(** [HandleTaskOutput] *)
Definition HandleTaskOutput (w : World) (output : option TaskOutput)
  : World :=
  match output with
  | None => w
  | Some o =>
      let taskID := OutTaskId o in
      let w1 := if negb (filterOutput (Some o)) then forwardOutput w o
                else w in
      match pb.Status o with
      | TASK_STATUS_COMPLETED => completeTask w1 taskID TASK_STATUS_COMPLETED
      | TASK_STATUS_FAILED => completeTask w1 taskID TASK_STATUS_FAILED
      | TASK_STATUS_CANCELLED => completeTask w1 taskID TASK_STATUS_CANCELLED
      | _ => w1
      end
  end.

(** The receive loop of [executeTask] in the deprecated gRPC mode; when
    [recvs] is used up the goroutine is blocked in [stream.Recv]. *)
Fixpoint recvLoop (w : World) (taskID : string) (recvs : list RecvResult)
    (now : Z) : World :=
  match recvs with
  | [] => w
  | RecvErr e :: _ =>
      if String.eqb e "EOF" then completeTask w taskID TASK_STATUS_COMPLETED
      else handleTaskError w taskID e now
  | RecvOutput o :: rest =>
      let w1 := if negb (filterOutput (Some o)) then forwardOutput w o
                else w in
      match pb.Status o with
      | TASK_STATUS_COMPLETED => completeTask w1 taskID TASK_STATUS_COMPLETED
      | TASK_STATUS_FAILED => completeTask w1 taskID TASK_STATUS_FAILED
      | TASK_STATUS_CANCELLED => completeTask w1 taskID TASK_STATUS_CANCELLED
      | _ => recvLoop w1 taskID rest now
      end
  end.

(** [executeTask], the body of the goroutine started by [SubmitTask]. *)
Definition executeTask (w : World) (task : pb.Task) (env : Env) : World :=
  let w1 := updateTaskStatus w (TaskId task) TASK_STATUS_RUNNING in
  match agent.GetAgent (manager w1) (AgentId task) with
  | None =>
      handleTaskError w1 (TaskId task)
        ("agent not found: " ++ AgentId task) (now env)
  | Some a =>
      if agent.UseStream a then
        if negb (streamSender (scheduler w1)) then
          handleTaskError w1 (TaskId task) "stream sender not configured"
            (now env)
        else
          let '(r, err) :=
            StreamSender.SendTaskToAgent (registry w1) (AgentId task) task
              (sendErr env) in
          match err with
          | Some e => handleTaskError (setRegistry w1 r) (TaskId task) e
                        (now env)
          | None => setRegistry w1 r
          end
      else
        match agent.ExecuteTaskOnAgent (manager w1) (AgentId task)
                (grpcErr env) with
        | Some e => handleTaskError w1 (TaskId task) e (now env)
        | None => recvLoop w1 (TaskId task) (recvs env) (now env)
        end
  end.

(** [CancelTask]; [None] is the [nil] error.  In the deprecated gRPC mode
    the remote call changes nothing in the master and its error is only
    logged. *)
Definition CancelTask (w : World) (taskID : string) (env : Env)
  : World * option error :=
  match tasks (scheduler w) !! taskID with
  | None => (w, Some (ErrTaskNotFound taskID))
  | Some taskInfo =>
      let w1 :=
        setScheduler w
          (setTasks (scheduler w)
             (<[taskID := callCancelFunc taskInfo]> (tasks (scheduler w)))) in
      let w2 :=
        match agent.GetAgent (manager w1) (AgentID taskInfo) with
        | Some a =>
            if agent.UseStream a && streamSender (scheduler w1) then
              setRegistry w1
                (StreamSender.CancelTaskOnAgent (registry w1)
                   (AgentID taskInfo) taskID (sendErr env)).1
            else w1
        | None => w1
        end in
      (completeTask w2 taskID TASK_STATUS_CANCELLED, None)
  end.

(** [GetCurrentTaskCount] *)
Definition GetCurrentTaskCount (w : World) : Z := currentTasks (scheduler w).

End task.

(** ** Package server: the stream handler *)

Module server.
Import pb task.

(** [handleRegister]; [Some err] is the error that ends [AgentStream].
    [RegisterAgentStream] and [RegisterAgentFromStream] never fail; the
    response is written straight to the stream and [sendErr] is its
    outcome. *)
Definition handleRegister (w : World) (agentInfo : option AgentInfo)
    (env : Env) : World * option string :=
  match agentInfo with
  | None => (w, Some "missing agent info")
  | Some info =>
      let w1 :=
        setRegistry w (agent.RegisterAgentStream (registry w) (Id info)) in
      let w2 :=
        setManager w1
          (agent.RegisterAgentFromStream (manager w1) info (now env)) in
      (w2, sendErr env)
  end.

(** [handleHeartbeat]: the error of [UpdateHeartbeat] is dropped, the
    acknowledgement goes straight to the stream and the caller only logs
    its error. *)
Definition handleHeartbeat (w : World) (heartbeat : option (string * Z))
    (env : Env) : World :=
  match heartbeat with
  | None => w
  | Some (agentID, currentTasks) =>
      match agent.UpdateHeartbeat (manager w) agentID currentTasks
              (now env) with
      | Some m => setManager w m
      | None => w
      end
  end.

(** [handleTaskOutput], [handleTaskComplete] and [handleTaskFailed] have the
    same body: a missing payload is logged, any other is handed to the
    scheduler ([master/main.go] sets the task output handler). *)
Definition handleTaskOutput (w : World) (output : option TaskOutput)
  : World :=
  match output with
  | None => w
  | Some o => HandleTaskOutput w (Some o)
  end.

(** The deferred clean-up of [AgentStream]. *)
Definition streamCleanup (w : World) (agentID : string) (registered : bool)
  : World :=
  if registered && negb (String.eqb agentID "") then
    let w1 :=
      setRegistry w (agent.UnregisterAgentStream (registry w) agentID) in
    setManager w1 (agent.MarkAgentOffline (manager w1) agentID)
  else w.

(** The receive loop of [AgentStream] over the messages one agent sends
    before its stream ends, with the locals [agentID] and [registered]. *)
Fixpoint streamLoop (w : World) (agentID : string) (registered : bool)
    (msgs : list (AgentMessage * Env)) : World * string * bool :=
  match msgs with
  | [] => (w, agentID, registered)
  | (msg, env) :: rest =>
      match msg with
      | TYPE_REGISTER agentInfo =>
          match handleRegister w agentInfo env with
          | (w', Some _) => (w', agentID, registered)
          | (w', None) =>
              streamLoop w' (default "" (Id <$> agentInfo)) true rest
          end
      | TYPE_HEARTBEAT hb =>
          streamLoop (handleHeartbeat w hb env) agentID registered rest
      | TYPE_TASK_OUTPUT o | TYPE_TASK_COMPLETE o | TYPE_TASK_FAILED o =>
          streamLoop (handleTaskOutput w o) agentID registered rest
      | TYPE_OTHER => streamLoop w agentID registered rest
      end
  end.

(** [AgentStream]: the loop until the stream ends, then the clean-up. *)
Definition AgentStream (w : World) (msgs : list (AgentMessage * Env))
  : World :=
  let '(w', agentID, registered) := streamLoop w "" false msgs in
  streamCleanup w' agentID registered.

(** [MasterServer.Heartbeat] (deprecated gRPC mode). *)
Definition Heartbeat (w : World) (agentID : string) (currentTasks : Z)
    (now : Z) : World :=
  match agent.UpdateHeartbeat (manager w) agentID (int32 currentTasks)
          now with
  | Some m => setManager w m
  | None => w
  end.

End server.

(** ** Package ws: IP masking *)

Module ws.
Import GoStrings.

(** [padHex]: [for len(s) < 4 { s = "0" + s }].  The loop body runs at most
    four times, which is the fuel given to it. *)
Fixpoint padHexLoop (fuel : nat) (s : string) : string :=
  match fuel with
  | O => s
  | S fuel' => if (len s <? 4)%nat then padHexLoop fuel' ("0" ++ s) else s
  end.

Definition padHex (s : string) : string := padHexLoop 4 s.

(** The two [for _, part := range parts] loops of [expandIPv6]: they write
    [padHex(part)] at [result[idx]] and return [None] where the source
    returns [""] from inside the loop. *)
Fixpoint fillParts (parts : list string) (result : list string) (idx : nat)
  : option (list string * nat) :=
  match parts with
  | [] => Some (result, idx)
  | part :: rest =>
      if (len part =? 0)%nat || (4 <? len part)%nat then None
      else fillParts rest (<[idx := padHex part]> result) (S idx)
  end.

(** [for i := 0; i < missingCount; i++ { result[idx] = "0000"; idx++ }] *)
Fixpoint fillZeros (missingCount : nat) (result : list string) (idx : nat)
  : list string * nat :=
  match missingCount with
  | O => (result, idx)
  | S n => fillZeros n (<[idx := "0000"]> result) (S idx)
  end.

(** The loop of the branch without [::]: every segment is checked and
    padded in place. *)
Fixpoint padAll (parts : list string) : option (list string) :=
  match parts with
  | [] => Some []
  | part :: rest =>
      if (len part =? 0)%nat || (4 <? len part)%nat then None
      else cons (padHex part) <$> padAll rest
  end.

Definition expandIPv6 (ip0 : string) : string :=
  if String.eqb ip0 "" then ""
  else
    let ip1 := if HasPrefix ip0 "::" then "0" ++ ip0 else ip0 in
    let ip := if HasSuffix ip1 "::" then ip1 ++ "0" else ip1 in
    if negb (Contains ip "::") then
      let parts := Split ip ":" in
      if negb (length parts =? 8)%nat then ""
      else match padAll parts with
           | None => ""
           | Some parts' => Join parts' ":"
           end
    else
      let halves := Split ip "::" in
      match halves with
      | [h0; h1] =>
          let leftParts := if String.eqb h0 "" then [] else Split h0 ":" in
          let rightParts := if String.eqb h1 "" then [] else Split h1 ":" in
          let missingCount :=
            (8 - Z.of_nat (length leftParts)
               - Z.of_nat (length rightParts))%Z in
          if (missingCount <? 1)%Z then ""
          else
            let result := replicate 8 "" in
            match fillParts leftParts result 0 with
            | None => ""
            | Some (result1, idx1) =>
                let '(result2, idx2) :=
                  fillZeros (Z.to_nat missingCount) result1 idx1 in
                match fillParts rightParts result2 idx2 with
                | None => ""
                | Some (result3, _) => Join result3 ":"
                end
            end
      | _ => ""
      end.

(** [parts[1] = "****"; ...; parts[6] = "****"] on a slice of length 8. *)
Definition maskMiddle (parts : list string) : list string :=
  <[6 := "****"]> (<[5 := "****"]> (<[4 := "****"]> (<[3 := "****"]>
    (<[2 := "****"]> (<[1 := "****"]> parts))))).

Definition maskIPv6Address (ip : string) : string :=
  if String.eqb ip "" then ip
  else
    let expandedIP := expandIPv6 ip in
    if String.eqb expandedIP "" then ip
    else
      let parts := Split expandedIP ":" in
      if negb (length parts =? 8)%nat then ip
      else Join (maskMiddle parts) ":".

(** [maskIP], used by the client session for the agent list. *)
Definition maskIP (ip : string) (shouldMask : bool) : string :=
  if negb shouldMask || String.eqb ip "" then ip
  else if Contains ip ":" then maskIPv6Address ip
  else
    let parts := Split ip "." in
    match parts with
    | [p0; p1; _; _] => p0 ++ "." ++ p1 ++ ".*.*"
    | _ => ip
    end.

(** [maskIPAddress], used by the server for broadcasts, has the same
    body. *)
Definition maskIPAddress (ip : string) (shouldMask : bool) : string :=
  if negb shouldMask || String.eqb ip "" then ip
  else if Contains ip ":" then maskIPv6Address ip
  else
    let parts := Split ip "." in
    match parts with
    | [p0; p1; _; _] => p0 ++ "." ++ p1 ++ ".*.*"
    | _ => ip
    end.

(** The frames of the client protocol. *)
Inductive WSResponseType :=
| TYPE_OUTPUT
| TYPE_ERROR
| TYPE_COMPLETE
| TYPE_TASK_STARTED.

#[global] Instance WSResponseType_eq_dec : EqDecision WSResponseType.
Proof. solve_decision. Defined.

(** The output handler built by [handleExecute]: the type of the frame it
    sends for an output. *)
Definition outputHandler (output : pb.TaskOutput) : WSResponseType :=
  match pb.Status output with
  | pb.TASK_STATUS_COMPLETED => TYPE_COMPLETE
  | pb.TASK_STATUS_FAILED => TYPE_ERROR
  | pb.TASK_STATUS_CANCELLED => TYPE_COMPLETE
  | _ => TYPE_OUTPUT
  end.

(** [HandleWebSocket]: a new client is entered in [clients]. *)
Definition HandleWebSocket (w : task.World) (clientID : string)
  : task.World :=
  task.setClients w ({[clientID]} ∪ task.clients w).

(** [Server.UnregisterClient] *)
Definition UnregisterClient (w : task.World) (clientID : string)
  : task.World :=
  task.setClients w (task.clients w ∖ {[clientID]}).

(** The end of [Client.ReadMessages]: the deferred function unregisters the
    client and closes the connection. *)
Definition ReadMessagesEnd (w : task.World) (clientID : string)
  : task.World :=
  UnregisterClient w clientID.

(** [handleExecute]: the frame answered to the request. *)
Definition handleExecute (w : task.World) (clientID : string)
    (req : option pb.Task) (now : Z) : task.World * WSResponseType :=
  match req with
  | None => (w, TYPE_ERROR)
  | Some t =>
      if String.eqb (pb.TaskName t) "" then (w, TYPE_ERROR)
      else
        match task.SubmitTask w t clientID (Some clientID) now with
        | (w', Some _) => (w', TYPE_ERROR)
        | (w', None) => (w', TYPE_TASK_STARTED)
        end
  end.

(** [handleCancel] *)
Definition handleCancel (w : task.World) (taskId : string) (env : task.Env)
  : task.World * WSResponseType :=
  if String.eqb taskId "" then (w, TYPE_ERROR)
  else
    match task.CancelTask w taskId env with
    | (w', Some _) => (w', TYPE_ERROR)
    | (w', None) => (w', TYPE_COMPLETE)
    end.

End ws.

(** ** The master as a transition system *)

Module master.
Import pb task.

(** One atomic action of the master: a request of a client session, a
    message or the end of an agent stream, a call of the deprecated gRPC
    service, a tick of the offline check, or the run of a goroutine started
    by [SubmitTask].  Any interleaving of the master's goroutines at the
    granularity of these actions is a list of them. *)
Inductive Op :=
| OpConnect (clientID : string)
| OpReadMessagesEnd (clientID : string)
| OpExecute (clientID : string) (req : option pb.Task) (now : Z)
| OpCancel (taskId : string) (env : Env)
| OpSubmitTask (t : pb.Task) (clientID : string) (h : Handler) (now : Z)
| OpCancelTask (taskID : string) (env : Env)
| OpExecuteTask (i : nat) (env : Env)
| OpAgentMessage (msg : AgentMessage) (env : Env)
| OpStreamEnd (agentID : string) (registered : bool)
| OpRegister (info : AgentInfo) (now : Z) (connErr : bool)
| OpHeartbeat (agentID : string) (currentTasks : Z) (now : Z)
| OpCheckOffline (now : Z).

(** [OpExecuteTask i] runs the [i]-th goroutine waiting to run. *)
Definition runGoroutine (w : World) (i : nat) (env : Env) : World :=
  match goroutines w !! i with
  | None => w
  | Some t => executeTask (setGoroutines w (delete i (goroutines w))) t env
  end.

Definition step (w : World) (op : Op) : World :=
  match op with
  | OpConnect c => ws.HandleWebSocket w c
  | OpReadMessagesEnd c => ws.ReadMessagesEnd w c
  | OpExecute c req now => (ws.handleExecute w c req now).1
  | OpCancel taskId env => (ws.handleCancel w taskId env).1
  | OpSubmitTask t c h now => (SubmitTask w t c h now).1
  | OpCancelTask taskID env => (CancelTask w taskID env).1
  | OpExecuteTask i env => runGoroutine w i env
  | OpAgentMessage msg env =>
      match msg with
      | TYPE_REGISTER agentInfo => (server.handleRegister w agentInfo env).1
      | TYPE_HEARTBEAT hb => server.handleHeartbeat w hb env
      | TYPE_TASK_OUTPUT o | TYPE_TASK_COMPLETE o | TYPE_TASK_FAILED o =>
          server.handleTaskOutput w o
      | TYPE_OTHER => w
      end
  | OpStreamEnd agentID registered =>
      server.streamCleanup w agentID registered
  | OpRegister info now connErr =>
      match agent.Register (manager w) info now connErr with
      | Some m => setManager w m
      | None => w
      end
  | OpHeartbeat agentID n now => server.Heartbeat w agentID n now
  | OpCheckOffline now =>
      setManager w (agent.checkOfflineAgents (manager w) now)
  end.

Definition run (w : World) (ops : list Op) : World := fold_left step ops w.

(** An environment in which every send succeeds. *)
Definition quiet (now : Z) : Env :=
  {| now := now; sendErr := None; grpcErr := None; recvs := [] |}.

End master.

(** ** Package executor (agent): the arguments of a custom command *)

Module executor.
Import GoStrings.

(** Modelled from the spec: the message [pb.NetworkTestParams] of the
    generated package [pb], which is not among the sources, with the fields
    the argument builders read (spec, Argument building).  [Count] and
    [Timeout] are [int32]; [ExtraOptions] is a map, given here as the list
    of its entries. *)
Record NetworkTestParams := {
  Target : string;
  Count : Z;
  Timeout : Z;
  Ipv6 : bool;
  ExtraOptions : list (string * string)
}.

(** The keys of the map [replacements] of [BuildCustomCommandArgs]. *)
Inductive Placeholder :=
| PhTarget
| PhCount
| PhTimeout
| PhIpv6.

#[global] Instance Placeholder_eq_dec : EqDecision Placeholder.
Proof. solve_decision. Defined.

Definition placeholder (ph : Placeholder) : string :=
  match ph with
  | PhTarget => "{target}"
  | PhCount => "{count}"
  | PhTimeout => "{timeout}"
  | PhIpv6 => "{ipv6}"
  end.

(** The value [replacements] holds for a key. *)
Definition replacement (params : NetworkTestParams) (ph : Placeholder)
  : string :=
  match ph with
  | PhTarget => Target params
  | PhCount => strconv.Itoa (Count params)
  | PhTimeout => strconv.Itoa (Timeout params)
  | PhIpv6 => strconv.FormatBool (Ipv6 params)
  end.

(** The inner loop of [BuildCustomCommandArgs] for the argument [arg]:
    [range replacements] visits the keys in [order].  The loop tests and
    rewrites the loop variable [arg], a copy of the default argument that
    the loop never updates, and assigns the result to [args[i]], here
    [cur]. *)
Definition replaceArg (arg : string) (params : NetworkTestParams)
    (order : list Placeholder) : string :=
  fold_left
    (fun cur ph =>
       if Contains arg (placeholder ph)
       then ReplaceAll arg (placeholder ph) (replacement params ph)
       else cur)
    order arg.

(** [BuildCustomCommandArgs]; [None] is the nil [params].  Go leaves the
    order in which [range] visits a map open, and it may differ from one
    argument to the next: [order i] is the order for the argument at
    index [i]. *)
Definition BuildCustomCommandArgs (defaultArgs : list string)
    (params : option NetworkTestParams) (order : nat -> list Placeholder)
  : list string :=
  match params with
  | None => defaultArgs
  | Some p => imap (fun i arg => replaceArg arg p (order i)) defaultArgs
  end.

(** [CreateCustomArgsBuilder] *)
Definition CreateCustomArgsBuilder (defaultArgs : list string)
  : option NetworkTestParams -> (nat -> list Placeholder) -> list string :=
  fun params => BuildCustomCommandArgs defaultArgs params.

End executor.

(** ** Package config: the configuration of the master *)

Module config.

(** Modelled from the spec: the generated package [pb] is not among the
    sources; this is its enumeration [pb.AuthMode], with the three members
    that [GetAuthMode] names. *)
Inductive AuthMode :=
| AUTH_MODE_UNSPECIFIED
| AUTH_MODE_API_KEY
| AUTH_MODE_IP_WHITELIST.

#[global] Instance AuthMode_eq_dec : EqDecision AuthMode.
Proof. solve_decision. Defined.

Record ServerConfig := { GRPCPort : Z; WSPort : Z }.

Record AuthConfig := {
  Mode : string;
  APIKey : string;
  IPWhitelist : list string
}.

Record ConcurrencyConfig := { GlobalMax : Z; AgentDefaultMax : Z }.

Record AgentConfig := {
  HeartbeatTimeout : Z;
  HeartbeatInterval : Z;
  OfflineCheckInterval : Z
}.

Record TaskConfig := {
  DefaultTimeout : Z;
  HistoryRetention : Z;
  DefaultPingCount : Z;
  DefaultMTRCount : Z
}.

Record NotificationEvents := {
  AgentOnline : bool;
  AgentOffline : bool;
  AgentError : bool;
  TaskFailed : bool
}.

Record BarkNotifierConfig := {
  ServerURL : string;
  DeviceKey : string;
  Sound : string;
  Icon : string;
  Group : string
}.

Record NotificationConfig := {
  Enabled : bool;
  Events : NotificationEvents;
  Bark : option BarkNotifierConfig
}.

Record LogConfig := { Level : string; File : string; Console : bool }.

Record BrandingConfig := {
  SiteTitle : string;
  LogoURL : string;
  LogoText : string;
  Subtitle : string;
  FooterText : string
}.

Record Config := {
  Server : ServerConfig;
  Auth : AuthConfig;
  Concurrency : ConcurrencyConfig;
  Agent : AgentConfig;
  Task : TaskConfig;
  Notification : NotificationConfig;
  Log : LogConfig;
  Branding : BrandingConfig
}.

(** [if v == 0 { v = d }] and [if s == "" { s = d }] *)
Definition orInt (v d : Z) : Z := if (v =? 0)%Z then d else v.

Definition orString (s d : string) : string :=
  if String.eqb s "" then d else s.

(** [setDefaults] *)
Definition setDefaults (c : Config) : Config :=
  let noLogo :=
    String.eqb (LogoURL (Branding c)) ""
    && String.eqb (LogoText (Branding c)) "" in
  {| Server :=
       {| GRPCPort := orInt (GRPCPort (Server c)) 50051;
          WSPort := orInt (WSPort (Server c)) 8080 |};
     Auth := Auth c;
     Concurrency :=
       {| GlobalMax := orInt (GlobalMax (Concurrency c)) 50;
          AgentDefaultMax := orInt (AgentDefaultMax (Concurrency c)) 5 |};
     Agent :=
       {| HeartbeatTimeout := orInt (HeartbeatTimeout (Agent c)) 60;
          HeartbeatInterval := orInt (HeartbeatInterval (Agent c)) 30;
          OfflineCheckInterval :=
            orInt (OfflineCheckInterval (Agent c)) 60 |};
     Task :=
       {| DefaultTimeout := orInt (DefaultTimeout (Task c)) 300;
          HistoryRetention := orInt (HistoryRetention (Task c)) 24;
          DefaultPingCount := orInt (DefaultPingCount (Task c)) 4;
          DefaultMTRCount := orInt (DefaultMTRCount (Task c)) 4 |};
     Notification := Notification c;
     Log :=
       {| Level := orString (Level (Log c)) "info";
          File := orString (File (Log c)) "logs/master.log";
          Console := Console (Log c) |};
     Branding :=
       {| SiteTitle :=
            orString (SiteTitle (Branding c))
              "LookingGlass - Network Diagnostics";
          LogoURL := LogoURL (Branding c);
          LogoText :=
            if noLogo then "üîç LookingGlass"
            else LogoText (Branding c);
          Subtitle :=
            if noLogo
            then orString (Subtitle (Branding c))
                   "Network Diagnostics Platform"
            else Subtitle (Branding c);
          FooterText := FooterText (Branding c) |} |}.

(** [validate]; [None] is [nil]. *)
Definition validate (c : Config) : option string :=
  if negb (String.eqb (Mode (Auth c)) "api_key")
     && negb (String.eqb (Mode (Auth c)) "ip_whitelist")
  then Some "auth.mode must be 'api_key' or 'ip_whitelist'"
  else if String.eqb (APIKey (Auth c)) ""
  then Some "auth.api_key is required"
  else if String.eqb (Mode (Auth c)) "ip_whitelist"
          && (length (IPWhitelist (Auth c)) =? 0)%nat
  then Some "auth.ip_whitelist cannot be empty when mode is 'ip_whitelist'"
  else if (GlobalMax (Concurrency c) <? 1)%Z
  then Some "concurrency.global_max must be at least 1"
  else if (AgentDefaultMax (Concurrency c) <? 1)%Z
  then Some "concurrency.agent_default_max must be at least 1"
  else None.

(** The errors of [Load]; each wraps the error of the step that failed. *)
Inductive LoadError :=
| ErrReadFile
| ErrParseFile
| ErrInvalid (msg : string).

(** [Load]: [data] is the outcome of [os.ReadFile] and [unmarshal] what
    [yaml.Unmarshal] makes of the bytes (both external). *)
Definition Load (data : option string) (unmarshal : string -> option Config)
  : Config + LoadError :=
  match data with
  | None => inr ErrReadFile
  | Some bytes =>
      match unmarshal bytes with
      | None => inr ErrParseFile
      | Some cfg =>
          let cfg := setDefaults cfg in
          match validate cfg with
          | Some msg => inr (ErrInvalid msg)
          | None => inl cfg
          end
      end
  end.

(** [GetAuthMode] *)
Definition GetAuthMode (c : Config) : AuthMode :=
  if String.eqb (Mode (Auth c)) "api_key" then AUTH_MODE_API_KEY
  else if String.eqb (Mode (Auth c)) "ip_whitelist"
  then AUTH_MODE_IP_WHITELIST
  else AUTH_MODE_UNSPECIFIED.

End config.

(** ** Package config (agent): the configuration of an agent *)

Module agentconfig.

Record AgentMetadata := {
  Location : string;
  Provider : string;
  IDC : string;
  Description : string
}.

Record AgentConfig := {
  ID : string;
  Name : string;
  IPv4 : string;
  IPv6 : string;
  HideIP : bool;
  GRPCPort : Z;
  MaxConcurrent : Z;
  Metadata : AgentMetadata
}.

Record MasterConfig := {
  Host : string;
  APIKey : string;
  TLSEnabled : bool;
  TLSCert : string;
  HeartbeatInterval : Z;
  RetryTimes : Z;
  RetryInterval : Z
}.

(** [ExecutorType] is a string type. *)
Definition ExecutorTypeCommand : string := "command".

Record ExecutorSpec := {
  Type_ : string;            (* Type *)
  Path : string;
  DefaultArgs : list string;
  ArgsBuilder : string;
  LineFormatter : string
}.

Record ConcurrencyConfig := { Max : Z }.

(** [Enabled], [RequiresTarget] and [Executor] are pointers; [None] is
    nil. *)
Record TaskConfig := {
  Enabled : option bool;
  DisplayName : string;
  RequiresTarget : option bool;
  Executor : option ExecutorSpec;
  Concurrency : ConcurrencyConfig
}.

(** [Tasks] maps a task name to a pointer, which may be nil. *)
Record ExecutorConfig := {
  GlobalConcurrency : Z;
  DefaultTimeout : Z;
  WorkDir : string;
  Tasks : gmap string (option TaskConfig)
}.

Record LogConfig := { Level : string; File : string; Console : bool }.

Record Config := {
  Agent : AgentConfig;
  Master : MasterConfig;
  Executor_ : ExecutorConfig;   (* Executor *)
  Log : LogConfig
}.

Definition builtinTask (displayName path argsBuilder lineFormatter : string)
    (max : Z) : TaskConfig :=
  {| Enabled := Some true; DisplayName := displayName;
     RequiresTarget := None;
     Executor := Some {| Type_ := ExecutorTypeCommand; Path := path;
                         DefaultArgs := []; ArgsBuilder := argsBuilder;
                         LineFormatter := lineFormatter |};
     Concurrency := {| Max := max |} |}.

(** [GetBuiltinTaskDefaults] *)
Definition GetBuiltinTaskDefaults : gmap string TaskConfig :=
  <["ping" := builtinTask "Ping" "/usr/bin/ping" "builtin_ping" "none" 3]>
    (<["mtr" := builtinTask "MTR" "/usr/bin/mtr" "builtin_mtr" "none" 2]>
       (<["nexttrace" :=
            builtinTask "NextTrace" "/usr/bin/nexttrace"
              "builtin_nexttrace" "newline" 2]> ∅)).

Definition orString (s d : string) : string :=
  if String.eqb s "" then d else s.

Definition orInt (v d : Z) : Z := if (v =? 0)%Z then d else v.

(** [MergeTaskConfig]; [merged.RequiresTarget] is never assigned. *)
Definition MergeTaskConfig (userTask : option TaskConfig)
    (defaultTask : TaskConfig) : TaskConfig :=
  match userTask with
  | None => defaultTask
  | Some u =>
      {| Enabled :=
           match Enabled u with
           | Some b => Some b
           | None => Enabled defaultTask
           end;
         DisplayName := orString (DisplayName u) (DisplayName defaultTask);
         RequiresTarget := None;
         Executor :=
           match Executor u, Executor defaultTask with
           | Some ue, Some de =>
               Some {| Type_ := orString (Type_ ue) (Type_ de);
                       Path := orString (Path ue) (Path de);
                       DefaultArgs := DefaultArgs ue;
                       ArgsBuilder :=
                         orString (ArgsBuilder ue) (ArgsBuilder de);
                       LineFormatter :=
                         orString (LineFormatter ue) (LineFormatter de) |}
           | Some ue, None => Some ue
           | None, de => de
           end;
         Concurrency :=
           {| Max := if (0 <? Max (Concurrency u))%Z
                     then Max (Concurrency u)
                     else Max (Concurrency defaultTask) |} |}
  end.

(** What the second loop of [setDefaults] does to the configuration of a
    task that is not builtin. *)
Definition customTask (u : TaskConfig) : TaskConfig :=
  {| Enabled := Enabled u; DisplayName := DisplayName u;
     RequiresTarget := RequiresTarget u;
     Executor :=
       match Executor u with
       | None => Some {| Type_ := ExecutorTypeCommand; Path := "";
                         DefaultArgs := []; ArgsBuilder := "";
                         LineFormatter := "" |}
       | Some e => Some e
       end;
     Concurrency := {| Max := orInt (Max (Concurrency u)) 1 |} |}.

(** The tasks named by the user that are not builtin. *)
Definition customTasks (tasks : gmap string (option TaskConfig))
  : gmap string (option TaskConfig) :=
  filter (fun kv => GetBuiltinTaskDefaults !! kv.1 = None) tasks.

(** The map [mergedTasks] of [setDefaults]: first the builtin tasks merged
    with what the user says about them, then the other tasks of the user.
    The second loop dereferences the pointer of every such task: a nil
    entry makes [setDefaults] panic. *)
Definition mergedTasks (tasks : gmap string (option TaskConfig))
  : option (gmap string (option TaskConfig)) :=
  let builtins :=
    map_imap
      (fun taskName defaultConfig =>
         Some (Some (MergeTaskConfig (mjoin (tasks !! taskName))
                       defaultConfig)))
      GetBuiltinTaskDefaults in
  if bool_decide (map_Forall (fun _ v => is_Some v) (customTasks tasks))
  then Some ((fmap customTask <$> customTasks tasks) ∪ builtins)
  else None.

(** [setDefaults]; [None] is the panic. *)
Definition setDefaults (c : Config) : option Config :=
  match mergedTasks (Tasks (Executor_ c)) with
  | None => None
  | Some merged =>
      Some
        {| Agent :=
             {| ID := ID (Agent c); Name := Name (Agent c);
                IPv4 := IPv4 (Agent c); IPv6 := IPv6 (Agent c);
                HideIP := HideIP (Agent c); GRPCPort := GRPCPort (Agent c);
                MaxConcurrent := orInt (MaxConcurrent (Agent c)) 5;
                Metadata := Metadata (Agent c) |};
           Master :=
             {| Host := Host (Master c); APIKey := APIKey (Master c);
                TLSEnabled := TLSEnabled (Master c);
                TLSCert := TLSCert (Master c);
                HeartbeatInterval :=
                  orInt (HeartbeatInterval (Master c)) 30;
                RetryTimes := orInt (RetryTimes (Master c)) 3;
                RetryInterval := orInt (RetryInterval (Master c)) 5 |};
           Executor_ :=
             {| GlobalConcurrency :=
                  orInt (GlobalConcurrency (Executor_ c)) 10;
                DefaultTimeout := orInt (DefaultTimeout (Executor_ c)) 300;
                WorkDir := orString (WorkDir (Executor_ c))
                             "/tmp/lookingglass";
                Tasks := merged |};
           Log :=
             {| Level := orString (Level (Log c)) "info";
                File := orString (File (Log c)) "logs/agent.log";
                Console := Console (Log c) |} |}
  end.


End agentconfig.

(** ** Scenarios used to exercise the model *)

Module Scenario.
Import pb task master.

(** The probe and the task of the spec's end-to-end scenarios. *)
Definition P1 : AgentInfo :=
  {| Id := "P1"; Name := "probe"; Location := "";
     Ipv4 := "203.0.113.45"; Ipv6 := "2001:db8::1"; HideIp := true;
     MaxConcurrent := 5 |}.

Definition T1 : pb.Task :=
  {| TaskId := "T1"; AgentId := "P1"; TaskName := "ping" |}.

(** P1 has registered on its stream and client c1 is connected. *)
Definition ready : World :=
  run (NewWorld 90 50)
    [OpAgentMessage (TYPE_REGISTER (Some P1)) (quiet 0); OpConnect "c1"].

(** c1 has submitted T1 and the task has been sent to P1. *)
Definition running : World :=
  run ready [OpExecute "c1" (Some T1) 1; OpExecuteTask 0 (quiet 2)].

(** An output line of the probe, and the terminal output the probe sends
    when the command has ended well. *)
Definition pingLine : TaskOutput :=
  {| OutTaskId := "T1"; OutputLine := "64 bytes from 8.8.8.8";
     Timestamp := Some 3%Z; pb.Status := TASK_STATUS_RUNNING;
     ErrorMessage := "" |}.

Definition probeCompleted : TaskOutput :=
  {| OutTaskId := "T1"; OutputLine := ""; Timestamp := Some 4%Z;
     pb.Status := TASK_STATUS_COMPLETED; ErrorMessage := "" |}.

(** The manager after P1 has registered and its stream has ended. *)
Definition offlineManager : agent.Manager :=
  agent.MarkAgentOffline
    (agent.RegisterAgentFromStream (agent.NewManager 90) P1 0) "P1".

End Scenario.

(** ** The vocabulary of the claims *)

Section Vocabulary.
Import GoStrings pb.

(** The strings in which the byte [c] does not occur. *)
Definition free (c : ascii) (s : string) : Prop :=
  ~ In c (list_ascii_of_string s).

(** The reading of C10: a dotted quad has exactly four parts between
    dots. *)
Definition isDottedQuad (ip : string) : bool :=
  (length (Split ip ".") =? 4)%nat.

(** C10 in its own words: an IPv6 string is text that stands for exactly
    eight groups of one to four characters between colons.  Either it lists
    the eight groups, or it has one [::] that stands for the groups left
    out, at least one of them.  [ipv6HexShape] asks in addition that the
    characters of the groups be hexadecimal digits, as the claim does;
    [ipv6Shape] does not. *)
Definition validGroup (g : string) : Prop :=
  (1 <= len g <= 4)%nat /\ free ":" g.

Definition listsGroups (ip : string) (left right : list string) : Prop :=
  ip = Join left ":" /\ right = [] /\ length left = 8%nat
  \/ ip = Join left ":" ++ "::" ++ Join right ":"
     /\ (length left + length right <= 7)%nat.

Definition ipv6Shape (ip : string) : Prop :=
  exists left right : list string,
    Forall validGroup left /\ Forall validGroup right
    /\ listsGroups ip left right.

Definition isHexDigit (c : ascii) : bool :=
  let n := nat_of_ascii c in
  ((48 <=? n) && (n <=? 57) || (65 <=? n) && (n <=? 70)
   || (97 <=? n) && (n <=? 102))%nat.

Definition hexGroup (g : string) : Prop :=
  forall c, In c (list_ascii_of_string g) -> isHexDigit c = true.

Definition ipv6HexShape (ip : string) : Prop :=
  exists left right : list string,
    Forall validGroup left /\ Forall validGroup right
    /\ Forall hexGroup left /\ Forall hexGroup right
    /\ listsGroups ip left right.

(** The groups that a half of an address with [::] lists: none when the
    half is empty. *)
Definition groupsOf (s : string) : list string :=
  if String.eqb s "" then [] else Split s ":".

(** The reading of C10 through the code's own test, kept for
    comparison. *)

Definition expandsToEightGroups (ip : string) : bool :=
  negb (String.eqb (ws.expandIPv6 ip) "")
  && (length (Split (ws.expandIPv6 ip) ":") =? 8)%nat.

Definition expandsToEightHexGroups (ip : string) : bool :=
  expandsToEightGroups ip
  && forallb (fun g => forallb isHexDigit (list_ascii_of_string g))
       (Split (ws.expandIPv6 ip) ":").

(** The substrings whose presence in a line suppresses the output. *)
Definition denylist : list string :=
  ["MapTrace URL"; "NextTrace"; "IP Geo Data Provider"].

Definition mentions (line sub : string) : Prop :=
  exists pre post, line = pre ++ sub ++ post.

Definition denied (line : string) : Prop :=
  exists sub, In sub denylist /\ mentions line sub.

(** The frame [completeTask] builds for the handler. *)
Definition finalFrame (taskID : string) (status : TaskStatus) : TaskOutput :=
  {| OutTaskId := taskID; OutputLine := ""; Timestamp := None;
     pb.Status := status; ErrorMessage := "" |}.

(** C2 in its own words: a heartbeat for an offline agent leaves it
    offline. *)
Definition heartbeatKeepsOffline (m : agent.Manager) (agentID : string)
    (currentTasks now : Z) : Prop :=
  forall a m',
    agent.agents m !! agentID = Some a ->
    agent.Status a = AGENT_STATUS_OFFLINE ->
    agent.UpdateHeartbeat m agentID currentTasks now = Some m' ->
    agent.Status <$> agent.agents m' !! agentID = Some AGENT_STATUS_OFFLINE.


(** C6 in its own words: when the session of a client ends, every task of
    that client still in flight has its handler unregistered and is
    cancelled. *)
Definition disconnectCancelsTasks (w : task.World) (clientID : string)
  : Prop :=
  forall taskID ti,
    task.tasks (task.scheduler w) !! taskID = Some ti ->
    task.ClientID ti = clientID ->
    task.Status ti = TASK_STATUS_RUNNING ->
    task.outputHandlers (task.scheduler (ws.ReadMessagesEnd w clientID))
      !! taskID = None
    /\ task.Status
         <$> task.tasks (task.scheduler (ws.ReadMessagesEnd w clientID))
               !! taskID
       = Some TASK_STATUS_CANCELLED.

(** With [globalMaxTasks = 0] the scheduler never leaves its first state:
    no record, no handler, no goroutine, and a counter of zero. *)
Definition idle (w : task.World) : Prop :=
  task.globalMaxTasks (task.scheduler w) = 0%Z
  /\ task.currentTasks (task.scheduler w) = 0%Z
  /\ task.tasks (task.scheduler w) = ∅
  /\ task.outputHandlers (task.scheduler w) = ∅
  /\ task.goroutines w = [].

Definition isTerminal (o : TaskOutput) : bool :=
  bool_decide (pb.Status o = TASK_STATUS_COMPLETED)
  || bool_decide (pb.Status o = TASK_STATUS_FAILED)
  || bool_decide (pb.Status o = TASK_STATUS_CANCELLED).

(** The terminal outputs handler [h] has received for a task. *)
Definition terminalFrames (w : task.World) (h taskID : string)
  : list TaskOutput :=
  filter (fun o => OutTaskId o = taskID /\ isTerminal o = true)
    (snd <$> filter (fun c => c.1 = h) (task.handlerCalls w)).

(** The groups of a masked IPv6 address. *)
Definition maskedGroups (g0 g7 : string) : list string :=
  [g0; "****"; "****"; "****"; "****"; "****"; "****"; g7].

(** The ranges of Go's [int32] and [int] (64 bits). *)
Definition isInt32 (x : Z) : Prop := (-2147483648 <= x <= 2147483647)%Z.

Definition isInt64 (x : Z) : Prop :=
  (-9223372036854775808 <= x <= 9223372036854775807)%Z.

(** Every registered handler belongs to a task that has a record. *)
Definition handlersHaveRecords (w : task.World) : Prop :=
  forall id,
    is_Some (task.outputHandlers (task.scheduler w) !! id) ->
    is_Some (task.tasks (task.scheduler w) !! id).

(** Every task that has a record in [w] still has one in [w']. *)
Definition recordsKept (w w' : task.World) : Prop :=
  forall id,
    is_Some (task.tasks (task.scheduler w) !! id) ->
    is_Some (task.tasks (task.scheduler w') !! id).

Definition keeps (w w' : task.World) : Prop :=
  recordsKept w w' /\ (handlersHaveRecords w -> handlersHaveRecords w').

(** Where [HandleTaskOutput] sends an output that is not terminal: to the
    handler registered for its task, unless the line is filtered. *)
Definition routed (w : task.World) (o : TaskOutput)
  : list (string * TaskOutput) :=
  if task.filterOutput (Some o) then []
  else match task.outputHandlers (task.scheduler w) !! OutTaskId o with
       | Some (Some h) => [(h, o)]
       | _ => []
       end.

(** The stream handler hands the outputs of a list to the scheduler one
    after the other. *)
Definition deliverAll (w : task.World) (outputs : list TaskOutput)
  : task.World :=
  fold_left (fun w o => task.HandleTaskOutput w (Some o)) outputs w.

(** A configuration file that gives the auth mode and the API key and
    nothing else, as [yaml.Unmarshal] reads it. *)
Definition keyOnlyConfig : config.Config :=
  {| config.Server := {| config.GRPCPort := 0; config.WSPort := 0 |};
     config.Auth := {| config.Mode := "api_key"; config.APIKey := "secret";
                       config.IPWhitelist := [] |};
     config.Concurrency :=
       {| config.GlobalMax := 0; config.AgentDefaultMax := 0 |};
     config.Agent :=
       {| config.HeartbeatTimeout := 0; config.HeartbeatInterval := 0;
          config.OfflineCheckInterval := 0 |};
     config.Task :=
       {| config.DefaultTimeout := 0; config.HistoryRetention := 0;
          config.DefaultPingCount := 0; config.DefaultMTRCount := 0 |};
     config.Notification :=
       {| config.Enabled := false;
          config.Events :=
            {| config.AgentOnline := false; config.AgentOffline := false;
               config.AgentError := false; config.TaskFailed := false |};
          config.Bark := None |};
     config.Log := {| config.Level := ""; config.File := "";
                      config.Console := false |};
     config.Branding :=
       {| config.SiteTitle := ""; config.LogoURL := "";
          config.LogoText := ""; config.Subtitle := "";
          config.FooterText := "" |} |}.

(** The four keys of [replacements], each of which [range] visits once. *)
Definition allPlaceholders : list executor.Placeholder :=
  [executor.PhTarget; executor.PhCount; executor.PhTimeout;
   executor.PhIpv6].

(** In [order] the key [ph] is visited after the key [other]. *)
Definition visitedAfter (order : list executor.Placeholder)
    (ph other : executor.Placeholder) : Prop :=
  exists before after,
    order = (before ++ ph :: after)%list /\ ~ In other after.

(** What follows the opening brace in a placeholder. *)
Definition body (ph : executor.Placeholder) : string :=
  match ph with
  | executor.PhTarget => "target}"
  | executor.PhCount => "count}"
  | executor.PhTimeout => "timeout}"
  | executor.PhIpv6 => "ipv6}"
  end.



(** The action [op] asks the scheduler to submit a task with the id
    [id]: an execute request of a client, or a direct submission. *)
Definition submits (id : string) (op : master.Op) : bool :=
  match op with
  | master.OpExecute _ (Some t) _ => String.eqb (pb.TaskId t) id
  | master.OpSubmitTask t _ _ _ => String.eqb (pb.TaskId t) id
  | _ => false
  end.

(** From [w] to [w'] the task [id], if it has no handler, gets none, and
    no handler is called with a frame of that task. *)
Definition silentFor (id : string) (w w' : task.World) : Prop :=
  task.outputHandlers (task.scheduler w) !! id = None ->
  task.outputHandlers (task.scheduler w') !! id = None
  /\ exists new,
       task.handlerCalls w' = (task.handlerCalls w ++ new)%list
       /\ forall h f, In (h, f) new -> OutTaskId f <> id.

End Vocabulary.

(** * Properties *)

(** ** Go's [strings] functions meet their specification *)

Section GoStringsFacts.
Import GoStrings.

Lemma append_cons (c : ascii) (s t : string) :
  String c s ++ t = String c (s ++ t).
Proof. reflexivity. Qed.

Lemma append_empty (t : string) : "" ++ t = t.
Proof. reflexivity. Qed.

Lemma HasPrefix_spec (s p : string) :
  HasPrefix s p = true <-> exists post, s = p ++ post.
Proof.
  revert s; induction p as [|a p IH]; intros s; simpl.
  - split; [intros _; exists s; reflexivity | reflexivity].
  - destruct s as [|c s].
    + split; [discriminate | intros [post H]; rewrite append_cons in H;
                              discriminate H].
    + destruct (Ascii.eqb a c) eqn:E.
      * apply Ascii.eqb_eq in E; subst c. rewrite IH.
        split; intros [post H]; exists post.
        -- rewrite H. reflexivity.
        -- rewrite append_cons in H. injection H as H. exact H.
      * apply Ascii.eqb_neq in E.
        split; [discriminate | intros [post H]; rewrite append_cons in H;
                              injection H as H _; congruence].
Qed.

Lemma Index_Some (s sub : string) (n : nat) :
  Index s sub = Some n ->
  exists pre post, s = pre ++ sub ++ post /\ len pre = n.
Proof.
  revert n; induction s as [|c s IH]; intros n; simpl.
  - destruct (HasPrefix "" sub) eqn:E; [|discriminate].
    intros [= <-]. apply HasPrefix_spec in E as [post E].
    exists "", post. split; [exact E | reflexivity].
  - destruct (HasPrefix (String c s) sub) eqn:E.
    + intros [= <-]. apply HasPrefix_spec in E as [post E].
      exists "", post. split; [exact E | reflexivity].
    + destruct (Index s sub) as [k|]; simpl; [|discriminate].
      intros [= <-]. destruct (IH k eq_refl) as (pre & post & Hs & Hl).
      exists (String c pre), post. rewrite append_cons. simpl.
      split; congruence.
Qed.

Lemma Index_None (s sub pre post : string) :
  Index s sub = None -> s <> pre ++ sub ++ post.
Proof.
  revert pre; induction s as [|c s IH]; intros pre; simpl.
  - destruct (HasPrefix "" sub) eqn:E; [discriminate|].
    intros _ H. destruct pre; [|rewrite append_cons in H; discriminate].
    assert (HasPrefix "" sub = true) by (apply HasPrefix_spec; eauto).
    congruence.
  - destruct (HasPrefix (String c s) sub) eqn:E; [discriminate|].
    destruct (Index s sub) as [k|]; simpl; [discriminate|].
    intros _ H. destruct pre as [|c' pre].
    + assert (HasPrefix (String c s) sub = true)
        by (apply HasPrefix_spec; eauto).
      congruence.
    + rewrite append_cons in H. injection H as _ H.
      exact (IH pre eq_refl H).
Qed.

Lemma Contains_spec (s sub : string) :
  Contains s sub = true <-> exists pre post, s = pre ++ sub ++ post.
Proof.
  unfold Contains. destruct (Index s sub) eqn:E.
  - split; [intros _|reflexivity].
    destruct (Index_Some _ _ _ E) as (pre & post & H & _). eauto.
  - split; [discriminate|]. intros (pre & post & H).
    exfalso. exact (Index_None _ _ _ _ E H).
Qed.

(** [Split] then [Join] gives the string back. *)

Lemma append_empty_r (s : string) : s ++ "" = s.
Proof.
  induction s as [|c s IH]; [reflexivity|].
  rewrite append_cons, IH. reflexivity.
Qed.

Lemma append_assoc (s t u : string) : (s ++ t) ++ u = s ++ t ++ u.
Proof.
  induction s as [|c s IH]; [reflexivity|].
  rewrite !append_cons, IH. reflexivity.
Qed.

Lemma string_of_app (l k : list ascii) :
  string_of_list_ascii (l ++ k)
  = string_of_list_ascii l ++ string_of_list_ascii k.
Proof.
  induction l as [|a l IH]; [reflexivity|].
  cbn [app string_of_list_ascii]. rewrite append_cons, IH. reflexivity.
Qed.

Lemma string_of_rev_cons (c : ascii) (cur : list ascii) (t : string) :
  string_of_list_ascii (rev (c :: cur)) ++ t
  = string_of_list_ascii (rev cur) ++ String c t.
Proof.
  change (rev (c :: cur)) with (rev cur ++ [c])%list.
  rewrite string_of_app, append_assoc. reflexivity.
Qed.

Lemma SplitFrom_nonempty (sep s : string) (skip : nat) (cur : list ascii) :
  SplitFrom sep s skip cur <> [].
Proof.
  revert skip cur; induction s as [|c s IH]; intros skip cur; simpl.
  - discriminate.
  - destruct skip; [|apply IH].
    destruct (HasPrefix (String c s) sep); [discriminate | apply IH].
Qed.

Lemma Join_cons (e : string) (rest : list string) (sep : string) :
  rest <> [] -> Join (e :: rest) sep = e ++ sep ++ Join rest sep.
Proof. destruct rest; [congruence | reflexivity]. Qed.

Lemma sliceFrom_append (s t : string) : sliceFrom (s ++ t) (len s) = t.
Proof. induction s as [|c s IH]; [destruct t; reflexivity | exact IH]. Qed.

Lemma Join_SplitFrom (sep s : string) (skip : nat) (cur : list ascii) :
  sep <> "" ->
  Join (SplitFrom sep s skip cur) sep
  = string_of_list_ascii (rev cur) ++ sliceFrom s skip.
Proof.
  intros Hsep. revert skip cur; induction s as [|c s IH]; intros skip cur.
  - cbn [SplitFrom Join]. destruct skip; cbn [sliceFrom];
      rewrite append_empty_r; reflexivity.
  - cbn [SplitFrom]. destruct skip as [|k].
    + destruct (HasPrefix (String c s) sep) eqn:E.
      * rewrite Join_cons by apply SplitFrom_nonempty. rewrite IH.
        cbn [rev string_of_list_ascii]. rewrite append_empty.
        apply HasPrefix_spec in E as [post E].
        destruct sep as [|a sep']; [congruence|].
        rewrite append_cons in E. injection E as <- ->.
        cbn [len String.length].
        replace (S (String.length sep') - 1)%nat with (String.length sep') by lia.
        change (String.length sep') with (len sep').
        rewrite sliceFrom_append, append_cons. reflexivity.
      * rewrite IH. cbn [sliceFrom]. apply string_of_rev_cons.
    + rewrite IH. reflexivity.
Qed.

Lemma Join_Split (s sep : string) : sep <> "" -> Join (Split s sep) sep = s.
Proof.
  intros Hsep. unfold Split. destruct sep as [|a sep']; [congruence|].
  rewrite Join_SplitFrom by exact Hsep. reflexivity.
Qed.

Lemma len_append (s t : string) : len (s ++ t) = (len s + len t)%nat.
Proof.
  induction s as [|c s IH]; [reflexivity|].
  rewrite append_cons. unfold len in *. simpl. rewrite IH. reflexivity.
Qed.

Lemma sliceFrom_split (s : string) (n : nat) :
  (n <= len s)%nat -> exists pre, s = pre ++ sliceFrom s n /\ len pre = n.
Proof.
  revert s; induction n as [|n IH]; intros s Hn.
  - exists "". split; reflexivity.
  - destruct s as [|c s]; [unfold len in Hn; simpl in Hn; lia|].
    destruct (IH s) as (pre & Hs & Hl); [unfold len in *; simpl in Hn; lia|].
    exists (String c pre). rewrite append_cons. cbn [sliceFrom].
    split; [congruence | unfold len in *; simpl; lia].
Qed.

Lemma HasSuffix_spec (s suffix : string) :
  HasSuffix s suffix = true <-> exists pre, s = pre ++ suffix.
Proof.
  unfold HasSuffix. rewrite andb_true_iff, Nat.leb_le, String.eqb_eq. split.
  - intros [Hlen Hs].
    destruct (sliceFrom_split s (len s - len suffix)) as (pre & H & _);
      [lia|].
    exists pre. congruence.
  - intros [pre ->]. rewrite len_append. split; [lia|].
    replace (len pre + len suffix - len suffix)%nat with (len pre) by lia.
    apply sliceFrom_append.
Qed.

(** Pieces cut at a one-byte separator do not contain it, and joining
    such pieces and splitting again gives the pieces back. *)
Lemma SplitFrom_free (c : ascii) (s : string) (cur : list ascii) :
  ~ In c cur ->
  Forall (free c) (SplitFrom (String c "") s 0 cur).
Proof.
  revert cur; induction s as [|a s IH]; intros cur Hcur.
  - cbn [SplitFrom]. constructor; [|constructor]. unfold free.
    rewrite list_ascii_of_string_of_list_ascii, <- in_rev. exact Hcur.
  - cbn [SplitFrom HasPrefix]. destruct (Ascii.eqb_spec c a) as [->|Hne].
    + cbn [len String.length Nat.sub]. constructor.
      * unfold free.
        rewrite list_ascii_of_string_of_list_ascii, <- in_rev. exact Hcur.
      * apply IH. intros [].
    + apply IH. intros [H|H]; [congruence | exact (Hcur H)].
Qed.

Lemma Split_free (c : ascii) (s : string) :
  Forall (free c) (Split s (String c "")).
Proof. apply SplitFrom_free. intros []. Qed.

Lemma SplitFrom_piece (c : ascii) (p t : string) (cur : list ascii) :
  free c p ->
  SplitFrom (String c "") (p ++ t) 0 cur
  = SplitFrom (String c "") t 0 (rev (list_ascii_of_string p) ++ cur).
Proof.
  revert cur; induction p as [|a p IH]; intros cur Hp; [reflexivity|].
  rewrite append_cons. cbn [SplitFrom HasPrefix].
  destruct (Ascii.eqb_spec c a) as [->|Hne].
  - exfalso. apply Hp. left. reflexivity.
  - rewrite IH by (intros H; apply Hp; right; exact H).
    cbn [list_ascii_of_string rev]. rewrite <- app_assoc. reflexivity.
Qed.

Lemma Split_Join (c : ascii) (parts : list string) :
  parts <> [] -> Forall (free c) parts ->
  Split (Join parts (String c "")) (String c "") = parts.
Proof.
  intros Hne Hfree. unfold Split.
  assert (Hp : forall p, SplitFrom (String c "") "" 0
                            (rev (list_ascii_of_string p) ++ []) = [p]).
  { intros p. cbn [SplitFrom]. rewrite app_nil_r, rev_involutive,
      string_of_list_ascii_of_string. reflexivity. }
  induction Hfree as [|p rest Hp1 Hrest IH]; [congruence|].
  destruct rest as [|q rest].
  - cbn [Join]. rewrite <- (append_empty_r p) at 1.
    rewrite SplitFrom_piece by exact Hp1. apply Hp.
  - rewrite Join_cons by discriminate.
    rewrite SplitFrom_piece by exact Hp1.
    rewrite append_cons, append_empty. cbn [SplitFrom HasPrefix].
    rewrite Ascii.eqb_refl. cbn [len String.length Nat.sub].
    rewrite app_nil_r, rev_involutive, string_of_list_ascii_of_string.
    f_equal. apply IH. discriminate.
Qed.

End GoStringsFacts.

Section ModelExamples.
Import GoStrings.

(** The model on the examples of Go's documentation and of the comments
    of [iputils.go]. *)
Example Split_examples :
  Split "a,b,c" "," = ["a"; "b"; "c"]
  /\ Split "a man a plan a canal panama" "a "
     = [""; "man "; "plan "; "canal panama"]
  /\ Split "" ":" = [""]
  /\ Split "0:::0" "::" = ["0"; ":0"]
  /\ Join ["foo"; "bar"; "baz"] ", " = "foo, bar, baz"
  /\ Index "chicken" "ken" = Some 4%nat
  /\ Index "chicken" "dmr" = None
  /\ HasSuffix "2001:db8::" "::" = true
  /\ Contains "NextTrace v1.2" "NextTrace" = true.
Proof. repeat split. Qed.

Example expandIPv6_examples :
  ws.expandIPv6 "2001:0db8::8a2e:0370:7334"
  = "2001:0db8:0000:0000:0000:8a2e:0370:7334"
  /\ ws.expandIPv6 "::1" = "0000:0000:0000:0000:0000:0000:0000:0001"
  /\ ws.expandIPv6 "1:2:3:4:5:6:7:8::" = ""
  /\ ws.expandIPv6 "1::2::3" = ""
  /\ ws.expandIPv6 "12345::1" = ""
  /\ ws.maskIPv6Address "2001:0db8:85a3:0000:0000:8a2e:0370:7334"
     = "2001:****:****:****:****:****:****:7334"
  /\ ws.maskIPv6Address "2001:0db8::8a2e:0370:7334"
     = "2001:****:****:****:****:****:****:7334".
Proof. repeat split. Qed.

End ModelExamples.

(** ** IP masking *)

Section Masking.
Import GoStrings ws.

(** The loop of [padHex] has stopped when its fuel is used up. *)
Lemma padHexLoop_len (fuel : nat) (s : string) :
  (4 <= fuel + len s)%nat -> (4 <= len (padHexLoop fuel s))%nat.
Proof.
  revert s; induction fuel as [|fuel IH]; intros s H; simpl.
  - exact H.
  - destruct (Nat.ltb_spec (len s) 4); [|assumption].
    apply IH. rewrite append_cons, append_empty. unfold len in *. simpl. lia.
Qed.

Lemma padHex_len (s : string) : (4 <= len (padHex s))%nat.
Proof. apply padHexLoop_len. lia. Qed.

(** *** The shape of an expanded address *)

Lemma padHexLoop_free (c : ascii) (fuel : nat) (p : string) :
  c <> "0"%char -> free c p -> free c (padHexLoop fuel p).
Proof.
  intros Hc. revert p; induction fuel as [|fuel IH]; intros p Hp; simpl.
  - exact Hp.
  - destruct (len p <? 4)%nat; [|exact Hp].
    apply IH. rewrite append_cons, append_empty.
    intros [H|H]; [congruence | exact (Hp H)].
Qed.

Lemma padAll_Some (parts parts' : list string) :
  padAll parts = Some parts' -> parts' = map padHex parts.
Proof.
  revert parts'; induction parts as [|p parts IH]; intros parts'; simpl.
  - intros [= <-]. reflexivity.
  - destruct ((len p =? 0)%nat || (4 <? len p)%nat); [discriminate|].
    destruct (padAll parts) as [l|]; [|discriminate].
    intros [= <-]. rewrite (IH l eq_refl). reflexivity.
Qed.

Lemma fillParts_Some (parts pre rest r : list string) (i : nat) :
  fillParts parts (pre ++ rest) (length pre) = Some (r, i) ->
  (length parts <= length rest)%nat ->
  r = (pre ++ map padHex parts ++ drop (length parts) rest)%list
  /\ i = (length pre + length parts)%nat.
Proof.
  revert pre rest; induction parts as [|p parts IH]; intros pre rest; simpl.
  - intros [= <- <-] _. rewrite drop_0. split; [reflexivity | lia].
  - destruct ((len p =? 0)%nat || (4 <? len p)%nat); [discriminate|].
    destruct rest as [|r0 rest]; [simpl; lia|]. intros H Hlen.
    replace (length pre) with (length pre + 0)%nat in H at 1 by lia.
    rewrite insert_app_r in H. cbn [insert list_insert] in H.
    replace (S (length pre)) with (length (pre ++ [padHex p])) in H
      by (rewrite length_app; simpl; lia).
    change (pre ++ padHex p :: rest)%list
      with (pre ++ [padHex p] ++ rest)%list in H.
    rewrite app_assoc in H.
    destruct (IH _ _ H) as [-> ->]; [simpl in Hlen; lia|].
    rewrite length_app. cbn [length drop]. rewrite <- app_assoc.
    split; [reflexivity | lia].
Qed.

Lemma fillZeros_spec (n : nat) (pre rest : list string) :
  (n <= length rest)%nat ->
  fillZeros n (pre ++ rest) (length pre)
  = ((pre ++ replicate n "0000" ++ drop n rest)%list,
     (length pre + n)%nat).
Proof.
  revert pre rest; induction n as [|n IH]; intros pre rest Hlen; simpl.
  - rewrite drop_0. f_equal. lia.
  - destruct rest as [|r0 rest]; [simpl in Hlen; lia|].
    replace (length pre) with (length pre + 0)%nat at 1 by lia.
    rewrite insert_app_r. cbn [insert list_insert].
    replace (S (length pre)) with (length (pre ++ ["0000"]))
      by (rewrite length_app; simpl; lia).
    change (pre ++ "0000" :: rest)%list
      with (pre ++ ["0000"] ++ rest)%list.
    rewrite app_assoc, IH by (simpl in Hlen; lia).
    rewrite length_app, <- app_assoc. cbn [length drop app].
    f_equal. lia.
Qed.

Lemma Forall_free_padHex (parts : list string) :
  Forall (free ":") parts -> Forall (free ":") (map padHex parts).
Proof.
  intros H. apply Forall_map. eapply Forall_impl; [exact H|].
  intros p Hp. apply padHexLoop_free; [discriminate | exact Hp].
Qed.

(** Whenever [expandIPv6] succeeds its result is the join of exactly eight
    groups free of colons. *)
Lemma expandIPv6_groups (ip : string) :
  expandIPv6 ip <> "" ->
  exists groups,
    expandIPv6 ip = Join groups ":"
    /\ length groups = 8%nat /\ Forall (free ":") groups.
Proof.
  unfold expandIPv6. destruct (String.eqb ip ""); [congruence|].
  set (ip1 := if HasPrefix ip "::" then "0" ++ ip else ip).
  set (ip2 := if HasSuffix ip1 "::" then ip1 ++ "0" else ip1).
  destruct (Contains ip2 "::"); cbn [negb].
  - destruct (Split ip2 "::") as [|h0 [|h1 [|? ?]]]; try congruence.
    set (leftParts := if String.eqb h0 "" then [] else Split h0 ":").
    set (rightParts := if String.eqb h1 "" then [] else Split h1 ":").
    assert (Hl : Forall (free ":") leftParts).
    { unfold leftParts. destruct (String.eqb h0 "");
        [constructor | apply Split_free]. }
    assert (Hr : Forall (free ":") rightParts).
    { unfold rightParts. destruct (String.eqb h1 "");
        [constructor | apply Split_free]. }
    destruct (Z.ltb_spec (8 - Z.of_nat (length leftParts)
                            - Z.of_nat (length rightParts)) 1)
      as [|Hm]; [congruence|].
    set (m := Z.to_nat (8 - Z.of_nat (length leftParts)
                          - Z.of_nat (length rightParts))).
    assert (Hsum : (length leftParts + m + length rightParts = 8)%nat)
      by (unfold m; lia).
    destruct (fillParts leftParts (replicate 8 "") 0) as [[r1 i1]|] eqn:E1;
      [|congruence].
    apply (fillParts_Some leftParts [] (replicate 8 "")) in E1 as [-> ->];
      [|rewrite length_replicate; lia].
    cbn [app length Nat.add].
    pose proof (fillZeros_spec m (map padHex leftParts)
                  (drop (length leftParts) (replicate 8 ""))) as E2.
    rewrite length_map in E2. rewrite E2
      by (rewrite length_drop, length_replicate; lia).
    clear E2.
    assert (Hpre : length (map padHex leftParts ++ replicate m "0000")
                   = (length leftParts + m)%nat)
      by (rewrite length_app, length_map, length_replicate; reflexivity).
    rewrite <- Hpre, app_assoc.
    destruct (fillParts rightParts _ _) as [[r3 i3]|] eqn:E3; [|congruence].
    apply fillParts_Some in E3 as [-> _];
      [|rewrite !length_drop, length_replicate; lia].
    intros _. eexists. split; [reflexivity|]. split.
    + rewrite !length_app, !length_map, !length_drop, !length_replicate.
      lia.
    + rewrite !Forall_app. repeat split.
      * apply Forall_free_padHex, Hl.
      * apply Forall_replicate. intros H. simpl in H.
        repeat destruct H as [H|H]; try discriminate H; exact H.
      * apply Forall_free_padHex, Hr.
      * rewrite !drop_drop, drop_ge; [constructor|].
        rewrite length_replicate. lia.
  - destruct (Nat.eqb_spec (length (Split ip2 ":")) 8) as [H8|];
      cbn [negb]; [|congruence].
    destruct (padAll (Split ip2 ":")) as [parts'|] eqn:E; [|congruence].
    apply padAll_Some in E as ->. intros _.
    eexists. split; [reflexivity|]. split.
    + rewrite length_map. exact H8.
    + apply Forall_free_padHex, Split_free.
Qed.

(** So the test [len(parts) != 8] of [maskIPv6Address] never fires. *)
Lemma expandIPv6_eight_groups (ip : string) :
  expandIPv6 ip <> "" -> length (Split (expandIPv6 ip) ":") = 8%nat.
Proof.
  intros H. destruct (expandIPv6_groups ip H) as (groups & -> & H8 & Hf).
  rewrite Split_Join; [exact H8 | | exact Hf].
  destruct groups; [discriminate H8 | discriminate].
Qed.

Lemma expandsToEightGroups_eq (ip : string) :
  expandsToEightGroups ip = negb (String.eqb (expandIPv6 ip) "").
Proof.
  unfold expandsToEightGroups.
  destruct (String.eqb_spec (expandIPv6 ip) "") as [|H]; [reflexivity|].
  rewrite (expandIPv6_eight_groups ip H). reflexivity.
Qed.

(** C8: masking switched off returns the address as it is, the IPv4 address
    203.0.113.45 is masked to 203.0.*.*, and the IPv6 address 2001:db8::1 is
    masked to 2001:****:****:****:****:****:****:0001, the last group padded
    to four digits, where the claim and the examples in the comment of
    [maskIPv6Address] have the last group as it was written, 1. *)
Theorem C8_masking_pads_the_last_ipv6_group :
  (forall ip, maskIP ip false = ip)
  /\ maskIP "203.0.113.45" true = "203.0.*.*"
  /\ maskIP "2001:db8::1" true = "2001:****:****:****:****:****:****:0001"
  /\ maskIP "2001:db8::1" true <> "2001:****:****:****:****:****:****:1"
  /\ maskIPv6Address "fe80::1" = "fe80:****:****:****:****:****:****:0001".
Proof.
  split; [intros ip; reflexivity|].
  repeat split; try (vm_compute; reflexivity).
  vm_compute. discriminate.
Qed.

End Masking.

(** ** The scheduler: output filtering *)

Section Filtering.
Import GoStrings pb task.

Lemma filterOutput_spec (o : TaskOutput) :
  filterOutput (Some o) = true <-> denied (OutputLine o).
Proof.
  unfold filterOutput, denied, denylist, mentions.
  destruct (Contains (OutputLine o) "MapTrace URL") eqn:E1;
    [|destruct (Contains (OutputLine o) "NextTrace") eqn:E2;
      [|destruct (Contains (OutputLine o) "IP Geo Data Provider") eqn:E3]];
    cbn [orb].
  - split; [intros _|reflexivity]. apply Contains_spec in E1.
    exists "MapTrace URL". split; [simpl; auto | exact E1].
  - split; [intros _|reflexivity]. apply Contains_spec in E2.
    exists "NextTrace". split; [simpl; auto | exact E2].
  - split; [intros _|reflexivity]. apply Contains_spec in E3.
    exists "IP Geo Data Provider". split; [simpl; auto | exact E3].
  - split; [discriminate|]. intros (sub & Hin & Hm). exfalso.
    apply Contains_spec in Hm. simpl in Hin.
    destruct Hin as [<-|[<-|[<-|[]]]]; congruence.
Qed.

Lemma denied_nonempty (line : string) : denied line -> line <> "".
Proof.
  intros (sub & Hin & pre & post & ->) H.
  destruct pre; [|rewrite append_cons in H; discriminate].
  rewrite append_empty in H. simpl in Hin.
  destruct Hin as [<-|[<-|[<-|[]]]]; discriminate H.
Qed.

(** What [completeTask] tells the handlers: nothing, or the final frame to
    the handler registered for the task. *)
Lemma completeTask_handlerCalls (w : World) (taskID : string)
    (status : TaskStatus) :
  handlerCalls (completeTask w taskID status) = handlerCalls w
  \/ exists h, outputHandlers (scheduler w) !! taskID = Some (Some h)
       /\ handlerCalls (completeTask w taskID status)
          = (handlerCalls w ++ [(h, finalFrame taskID status)])%list.
Proof.
  unfold completeTask.
  destruct (tasks (scheduler w) !! taskID) as [ti|]; [|left; reflexivity].
  cbn.
  destruct (outputHandlers (scheduler w) !! taskID) as [[h|]|] eqn:Eh;
    try (left; reflexivity).
  destruct (bool_decide (status = TASK_STATUS_COMPLETED)
            || bool_decide (status = TASK_STATUS_CANCELLED));
    [right; exists h; split; reflexivity | left; reflexivity].
Qed.

Lemma forwardOutput_scheduler (w : World) (o : TaskOutput) :
  scheduler (forwardOutput w o) = scheduler w.
Proof.
  unfold forwardOutput.
  destruct (outputHandlers (scheduler w) !! OutTaskId o) as [[h|]|];
    reflexivity.
Qed.

(** C9: a delivered output whose task has a registered handler is handed to
    that handler exactly when its line contains none of the substrings
    MapTrace URL, NextTrace and IP Geo Data Provider; a nil output is
    dropped.  (After it the handler may still get the final frame that
    [completeTask] builds.) *)
Theorem C9_output_is_forwarded_iff_not_denied (w : World) :
  filterOutput None = true
  /\ HandleTaskOutput w None = w
  /\ forall (o : TaskOutput) (h : string),
       outputHandlers (scheduler w) !! OutTaskId o = Some (Some h) ->
       (filterOutput (Some o) = true <-> denied (OutputLine o))
       /\ exists forwarded extra,
            handlerCalls (HandleTaskOutput w (Some o))
            = (handlerCalls w ++ forwarded ++ extra)%list
            /\ (forwarded = [] <-> denied (OutputLine o))
            /\ (forwarded = [(h, o)] <-> ~ denied (OutputLine o))
            /\ (extra = []
                \/ extra = [(h, finalFrame (OutTaskId o) (pb.Status o))])
            /\ (In (h, o) (forwarded ++ extra) <-> ~ denied (OutputLine o)).
Proof.
  split; [reflexivity|]. split; [reflexivity|].
  intros o h Hh. split; [apply filterOutput_spec|].
  assert (Hextra : forall w1 st,
    scheduler w1 = scheduler w -> st = pb.Status o ->
    exists extra,
      handlerCalls (completeTask w1 (OutTaskId o) st)
      = (handlerCalls w1 ++ extra)%list
      /\ (extra = [] \/ extra = [(h, finalFrame (OutTaskId o) (pb.Status o))])).
  { intros w1 st Hs ->.
    destruct (completeTask_handlerCalls w1 (OutTaskId o) (pb.Status o))
      as [H|(h' & Hh' & H)].
    - exists []. rewrite H, app_nil_r. auto.
    - rewrite Hs, Hh in Hh'. injection Hh' as <-.
      exists [(h, finalFrame (OutTaskId o) (pb.Status o))]. auto. }
  assert (Htail : forall w1, scheduler w1 = scheduler w ->
    exists extra,
      handlerCalls
        (match pb.Status o with
         | TASK_STATUS_COMPLETED =>
             completeTask w1 (OutTaskId o) TASK_STATUS_COMPLETED
         | TASK_STATUS_FAILED =>
             completeTask w1 (OutTaskId o) TASK_STATUS_FAILED
         | TASK_STATUS_CANCELLED =>
             completeTask w1 (OutTaskId o) TASK_STATUS_CANCELLED
         | _ => w1
         end) = (handlerCalls w1 ++ extra)%list
      /\ (extra = [] \/ extra = [(h, finalFrame (OutTaskId o) (pb.Status o))])).
  { intros w1 Hs.
    destruct (pb.Status o) eqn:Est;
      try solve [exists []; rewrite app_nil_r; auto];
      apply Hextra; auto. }
  unfold HandleTaskOutput.
  destruct (filterOutput (Some o)) eqn:Ef; cbn [negb].
  - assert (Hd : denied (OutputLine o)) by (apply filterOutput_spec, Ef).
    destruct (Htail w eq_refl) as (extra & Hc & Hx).
    exists [], extra. split; [exact Hc|].
    split; [tauto|]. split; [split; [discriminate | tauto]|].
    split; [exact Hx|]. split; [|tauto].
    intros Hin. exfalso. apply (denied_nonempty _ Hd).
    destruct Hx as [-> | ->]; simpl in Hin; [tauto|].
    destruct Hin as [Heq|[]]. injection Heq as <-. reflexivity.
  - assert (Hd : ~ denied (OutputLine o)).
    { intros Hd. apply filterOutput_spec in Hd. congruence. }
    destruct (Htail (forwardOutput w o) (forwardOutput_scheduler w o))
      as (extra & Hc & Hx).
    exists [(h, o)], extra. split.
    + rewrite Hc. unfold forwardOutput. rewrite Hh. cbn.
      rewrite <- app_assoc. reflexivity.
    + split; [split; [discriminate | tauto]|]. split; [tauto|].
      split; [exact Hx|]. split; [intros _; exact Hd|].
      intros _. simpl. auto.
Qed.

Lemma C9_output_is_forwarded_iff_not_denied_witness :
  outputHandlers (scheduler Scenario.running)
    !! OutTaskId Scenario.pingLine = Some (Some "c1")
  /\ handlerCalls (HandleTaskOutput Scenario.running (Some Scenario.pingLine))
     = [("c1", Scenario.pingLine)]
  /\ exists forwarded extra,
       handlerCalls
         (HandleTaskOutput Scenario.running (Some Scenario.pingLine))
       = (handlerCalls Scenario.running ++ forwarded ++ extra)%list
       /\ (forwarded = [] <-> denied (OutputLine Scenario.pingLine))
       /\ (forwarded = [("c1", Scenario.pingLine)]
           <-> ~ denied (OutputLine Scenario.pingLine))
       /\ (extra = []
           \/ extra = [("c1", finalFrame (OutTaskId Scenario.pingLine)
                                (pb.Status Scenario.pingLine))])
       /\ (In ("c1", Scenario.pingLine) (forwarded ++ extra)
           <-> ~ denied (OutputLine Scenario.pingLine)).
Proof.
  split; [vm_compute; reflexivity|]. split; [vm_compute; reflexivity|].
  apply (C9_output_is_forwarded_iff_not_denied Scenario.running).
  vm_compute; reflexivity.
Defined.

End Filtering.

(** ** The agent manager: heartbeats *)

Section Heartbeats.
Import pb agent.

(** C2 as stated fails: P1 is offline after its stream has ended, and one
    heartbeat makes it online again. *)
Lemma C2_counterexample :
  Status <$> agents Scenario.offlineManager !! "P1"
  = Some AGENT_STATUS_OFFLINE
  /\ (m ← UpdateHeartbeat Scenario.offlineManager "P1" 0 10;
      Status <$> agents m !! "P1") = Some AGENT_STATUS_ONLINE
  /\ ~ heartbeatKeepsOffline Scenario.offlineManager "P1" 0 10.
Proof.
  split; [vm_compute; reflexivity|]. split; [vm_compute; reflexivity|].
  intros H.
  assert (Ha : exists a, agents Scenario.offlineManager !! "P1" = Some a
                         /\ Status a = AGENT_STATUS_OFFLINE)
    by (eexists; split; [vm_compute; reflexivity | reflexivity]).
  assert (Hm : exists m', UpdateHeartbeat Scenario.offlineManager "P1" 0 10
                          = Some m'
                          /\ Status <$> agents m' !! "P1"
                             = Some AGENT_STATUS_ONLINE)
    by (eexists; split; [vm_compute; reflexivity | vm_compute; reflexivity]).
  destruct Ha as (a & Ha & Hst). destruct Hm as (m' & Hm & Hon).
  specialize (H a m' Ha Hst Hm). congruence.
Qed.

(** C2, amended: [UpdateHeartbeat] for a registered agent succeeds, refreshes
    the agent's heartbeat time and task count and sets its status to online,
    whatever the status was; the other agents are left alone and no
    status-change callback runs. *)
Theorem C2_heartbeat_sets_the_agent_online (m : Manager) (agentID : string)
    (currentTasks now : Z) (a : Agent) :
  agents m !! agentID = Some a ->
  exists m',
    UpdateHeartbeat m agentID currentTasks now = Some m'
    /\ agents m' !! agentID
       = Some {| Info := Info a; Status := AGENT_STATUS_ONLINE;
                 LastHeartbeat := now; CurrentTasks := int32 currentTasks;
                 HasGRPCConn := HasGRPCConn a; UseStream := UseStream a |}
    /\ (forall other, other <> agentID ->
          agents m' !! other = agents m !! other)
    /\ statusChanges m' = statusChanges m.
Proof.
  intros Ha. unfold UpdateHeartbeat. rewrite Ha.
  eexists. split; [reflexivity|]. cbn.
  split; [apply lookup_insert_eq|]. split; [|reflexivity].
  intros other Hne. apply lookup_insert_ne. congruence.
Qed.

Lemma C2_heartbeat_sets_the_agent_online_witness :
  exists a,
    agents Scenario.offlineManager !! "P1" = Some a
    /\ Status a = AGENT_STATUS_OFFLINE
    /\ exists m',
         UpdateHeartbeat Scenario.offlineManager "P1" 2 10 = Some m'
         /\ Status <$> agents m' !! "P1" = Some AGENT_STATUS_ONLINE.
Proof.
  assert (Ha : exists a, agents Scenario.offlineManager !! "P1" = Some a
                         /\ Status a = AGENT_STATUS_OFFLINE)
    by (eexists; split; [vm_compute; reflexivity | reflexivity]).
  destruct Ha as (a & Ha & Hst).
  exists a. split; [exact Ha|]. split; [exact Hst|].
  destruct (C2_heartbeat_sets_the_agent_online
              Scenario.offlineManager "P1" 2 10 a Ha)
    as (m' & Hm' & Hl & _).
  exists m'. split; [exact Hm'|]. rewrite Hl. reflexivity.
Defined.

End Heartbeats.

(** ** Disconnections *)

Section Disconnections.
Import pb task server.



(** C6 as stated fails: T1 of client c1 is running; when the session of c1
    ends the handler of T1 stays registered, T1 stays running and no
    cancellation is sent to P1. *)
Lemma C6_counterexample :
  outputHandlers (scheduler (ws.ReadMessagesEnd Scenario.running "c1"))
    !! "T1" = Some (Some "c1")
  /\ Status <$> tasks (scheduler (ws.ReadMessagesEnd Scenario.running "c1"))
                  !! "T1" = Some TASK_STATUS_RUNNING
  /\ agent.sent (registry (ws.ReadMessagesEnd Scenario.running "c1"))
     = [("P1", TYPE_EXECUTE_TASK Scenario.T1)]
  /\ ~ disconnectCancelsTasks Scenario.running "c1".
Proof.
  split; [vm_compute; reflexivity|]. split; [vm_compute; reflexivity|].
  split; [vm_compute; reflexivity|].
  intros H.
  assert (Ht : exists ti, tasks (scheduler Scenario.running) !! "T1" = Some ti
                          /\ ClientID ti = "c1"
                          /\ Status ti = TASK_STATUS_RUNNING)
    by (eexists; split; [vm_compute; reflexivity | split; reflexivity]).
  destruct Ht as (ti & Ht & Hc & Hst).
  destruct (H "T1" ti Ht Hc Hst) as [Hh _].
  vm_compute in Hh. discriminate Hh.
Qed.

(** C6, amended: when the session of a client ends, the client is removed
    from the server's client table and nothing else changes: the scheduler
    keeps the client's task records, handlers and counters, no handler is
    called and nothing is sent to any agent. *)
Theorem C6_client_disconnect_only_unregisters (w : World)
    (clientID : string) :
  let w' := ws.ReadMessagesEnd w clientID in
  (clientID ∉ clients w')
  /\ scheduler w' = scheduler w
  /\ manager w' = manager w
  /\ registry w' = registry w
  /\ handlerCalls w' = handlerCalls w
  /\ goroutines w' = goroutines w.
Proof.
  cbn. repeat split.
  intros [_ H]%elem_of_difference. apply H, elem_of_singleton. reflexivity.
Qed.

End Disconnections.

(** ** Admission with a global limit of zero *)

Section ZeroLimit.
Import pb task master.

Lemma idle_frame (w w' : World) :
  scheduler w' = scheduler w -> goroutines w' = goroutines w ->
  idle w -> idle w'.
Proof. unfold idle. intros -> ->. trivial. Qed.

Lemma idle_SubmitTask (w : World) (t : pb.Task) (c : string) (h : Handler)
    (now : Z) :
  idle w -> SubmitTask w t c h now = (w, Some (ErrSystemBusy 0 0)).
Proof.
  intros (Hmax & Hcur & _). unfold SubmitTask. rewrite Hmax, Hcur.
  reflexivity.
Qed.

Lemma idle_CancelTask (w : World) (taskID : string) (env : Env) :
  idle w -> CancelTask w taskID env = (w, Some (ErrTaskNotFound taskID)).
Proof.
  intros (_ & _ & Ht & _). unfold CancelTask. rewrite Ht, lookup_empty.
  reflexivity.
Qed.

Lemma idle_completeTask (w : World) (taskID : string) (st : TaskStatus) :
  idle w -> completeTask w taskID st = w.
Proof.
  intros (_ & _ & Ht & _). unfold completeTask. rewrite Ht, lookup_empty.
  reflexivity.
Qed.

Lemma idle_forwardOutput (w : World) (o : TaskOutput) :
  idle w -> forwardOutput w o = w.
Proof.
  intros (_ & _ & _ & Hh & _). unfold forwardOutput.
  rewrite Hh, lookup_empty. reflexivity.
Qed.

Lemma idle_HandleTaskOutput (w : World) (o : option TaskOutput) :
  idle w -> HandleTaskOutput w o = w.
Proof.
  intros Hi. destruct o as [o|]; [|reflexivity]. unfold HandleTaskOutput.
  assert (Hw : (if negb (filterOutput (Some o)) then forwardOutput w o
                else w) = w).
  { destruct (negb (filterOutput (Some o)));
      [apply idle_forwardOutput, Hi | reflexivity]. }
  rewrite Hw. destruct (pb.Status o); try reflexivity;
    apply idle_completeTask, Hi.
Qed.

Lemma idle_step (w : World) (op : Op) : idle w -> idle (step w op).
Proof.
  intros Hi. destruct op as
    [c|c|c req now|taskId env|t c h now|taskID env|i env|msg env
    |agentID registered|info now connErr|agentID n now|now]; cbn [step].
  - apply (idle_frame w); [reflexivity..|exact Hi].
  - apply (idle_frame w); [reflexivity..|exact Hi].
  - unfold ws.handleExecute. destruct req as [t|]; [|exact Hi].
    destruct (String.eqb (TaskName t) ""); [exact Hi|].
    rewrite (idle_SubmitTask w t c (Some c) now Hi). exact Hi.
  - unfold ws.handleCancel. destruct (String.eqb taskId ""); [exact Hi|].
    rewrite (idle_CancelTask w taskId env Hi). exact Hi.
  - rewrite (idle_SubmitTask w t c h now Hi). exact Hi.
  - rewrite (idle_CancelTask w taskID env Hi). exact Hi.
  - unfold runGoroutine. destruct Hi as (H1 & H2 & H3 & H4 & Hg).
    rewrite Hg. rewrite lookup_nil. unfold idle. rewrite Hg. auto.
  - destruct msg as [info|hb|o|o|o|].
    + unfold server.handleRegister. destruct info as [info|]; [|exact Hi].
      apply (idle_frame w); [reflexivity..|exact Hi].
    + unfold server.handleHeartbeat. destruct hb as [[a n]|]; [|exact Hi].
      destruct (agent.UpdateHeartbeat (manager w) a n (task.now env));
        [apply (idle_frame w); [reflexivity..|exact Hi] | exact Hi].
    + unfold server.handleTaskOutput. destruct o as [o|]; [|exact Hi].
      rewrite (idle_HandleTaskOutput w (Some o) Hi). exact Hi.
    + unfold server.handleTaskOutput. destruct o as [o|]; [|exact Hi].
      rewrite (idle_HandleTaskOutput w (Some o) Hi). exact Hi.
    + unfold server.handleTaskOutput. destruct o as [o|]; [|exact Hi].
      rewrite (idle_HandleTaskOutput w (Some o) Hi). exact Hi.
    + exact Hi.
  - unfold server.streamCleanup.
    destruct (registered && negb (String.eqb agentID "")); [|exact Hi].
    apply (idle_frame w); [reflexivity..|exact Hi].
  - destruct (agent.Register (manager w) info now connErr);
      [apply (idle_frame w); [reflexivity..|exact Hi] | exact Hi].
  - unfold server.Heartbeat.
    destruct (agent.UpdateHeartbeat (manager w) agentID (int32 n) now);
      [apply (idle_frame w); [reflexivity..|exact Hi] | exact Hi].
  - apply (idle_frame w); [reflexivity..|exact Hi].
Qed.

Lemma idle_run (ops : list Op) (w : World) : idle w -> idle (run w ops).
Proof.
  revert w; induction ops as [|op ops IH]; intros w Hi; [exact Hi|].
  apply IH, idle_step, Hi.
Qed.

Lemma idle_NewWorld (heartbeatTimeout : Z) : idle (NewWorld heartbeatTimeout 0).
Proof. repeat split. Qed.

(** C7: a scheduler created with a global limit of zero rejects every
    submission, in every state the master can reach and whatever the task,
    the agent, the client and the handler are, with the error
    [system busy: global task limit reached (0/0)]; the state is left as it
    was, with no task record and no handler. *)
Theorem C7_zero_global_limit_rejects_every_submission
    (heartbeatTimeout : Z) (ops : list Op)
    (t : pb.Task) (clientID : string) (h : Handler) (now : Z) :
  let w := run (NewWorld heartbeatTimeout 0) ops in
  SubmitTask w t clientID h now = (w, Some (ErrSystemBusy 0 0))
  /\ tasks (scheduler w) = ∅
  /\ outputHandlers (scheduler w) = ∅.
Proof.
  intros w.
  assert (Hi : idle w) by (apply idle_run, idle_NewWorld).
  split; [apply idle_SubmitTask, Hi|].
  destruct Hi as (_ & _ & Ht & Hh & _). auto.
Qed.

End ZeroLimit.

(** ** Terminal frames and the task counters *)

Section Lifecycle.
Import pb task master.

(** The spec's scenario of the global cap: with a limit of one task, a
    second submission while T1 runs is refused, and T1 goes on. *)
Example global_cap_scenario :
  let w := run (NewWorld 90 1)
             [OpAgentMessage (TYPE_REGISTER (Some Scenario.P1)) (quiet 0);
              OpSubmitTask Scenario.T1 "c1" (Some "c1") 1;
              OpExecuteTask 0 (quiet 2)] in
  let T2 := {| TaskId := "T2"; AgentId := "P1"; TaskName := "ping" |} in
  (SubmitTask w T2 "c1" (Some "c1") 3).2 = Some (ErrSystemBusy 1 1)
  /\ (SubmitTask w T2 "c1" (Some "c1") 3).1 = w
  /\ Status <$> tasks (scheduler w) !! "T1" = Some TASK_STATUS_RUNNING.
Proof. repeat split; vm_compute; reflexivity. Qed.

(** A failure reported by the probe reaches the client once, as an Error
    frame, and both counters return to zero. *)
Example failed_output_scenario :
  let failed := {| OutTaskId := "T1"; OutputLine := "";
                   Timestamp := Some 4%Z; pb.Status := TASK_STATUS_FAILED;
                   ErrorMessage := "exit status 1" |} in
  let w := step Scenario.running
             (OpAgentMessage (TYPE_TASK_FAILED (Some failed)) (quiet 4)) in
  handlerCalls w = [("c1", failed)]
  /\ (ws.outputHandler ∘ snd) <$> handlerCalls w = [ws.TYPE_ERROR]
  /\ GetCurrentTaskCount w = 0%Z
  /\ agent.CurrentTasks <$> agent.agents (manager w) !! "P1" = Some 0%Z.
Proof. repeat split; vm_compute; reflexivity. Qed.

(** [completeTask] keeps the record of the task it completes, and
    decrements the counter each time it finds the record. *)
Lemma completeTask_keeps_record (w : World) (taskID : string)
    (status : TaskStatus) (ti : TaskInfo) :
  tasks (scheduler w) !! taskID = Some ti ->
  tasks (scheduler (completeTask w taskID status)) !! taskID
  = Some (setStatus ti status)
  /\ currentTasks (scheduler (completeTask w taskID status))
     = int64 (currentTasks (scheduler w) - 1)
  /\ outputHandlers (scheduler (completeTask w taskID status)) !! taskID
     = None.
Proof.
  intros Ht. unfold completeTask. rewrite Ht. cbn.
  destruct (outputHandlers (scheduler w) !! taskID) as [[h|]|];
    try destruct (bool_decide (status = TASK_STATUS_COMPLETED)
                  || bool_decide (status = TASK_STATUS_CANCELLED));
    cbn; rewrite lookup_insert_eq, lookup_delete_eq; auto.
Qed.

(** A terminal output of the probe that is not filtered reaches the handler
    once when it is a failure, and is followed by the final frame of
    [completeTask] when it is a completion or a cancellation. *)
Lemma HandleTaskOutput_terminal (w : World) (o : TaskOutput) (h : string)
    (ti : TaskInfo) :
  tasks (scheduler w) !! OutTaskId o = Some ti ->
  outputHandlers (scheduler w) !! OutTaskId o = Some (Some h) ->
  filterOutput (Some o) = false ->
  handlerCalls (HandleTaskOutput w (Some o))
  = (handlerCalls w
     ++ match pb.Status o with
        | TASK_STATUS_COMPLETED | TASK_STATUS_CANCELLED =>
            [(h, o); (h, finalFrame (OutTaskId o) (pb.Status o))]
        | _ => [(h, o)]
        end)%list.
Proof.
  intros Ht Hh Hf. unfold HandleTaskOutput. rewrite Hf. cbn [negb].
  unfold forwardOutput. rewrite Hh.
  destruct (pb.Status o) eqn:Est; try reflexivity;
    unfold completeTask; cbn; rewrite Ht; cbn; rewrite Hh;
    repeat (case_bool_decide; try congruence); cbn;
    rewrite <- ?app_assoc; reflexivity.
Qed.

(** C1 fails on the code: T1 runs on P1 for client c1 and P1 reports that
    the command has ended well.  [HandleTaskOutput] forwards the probe's
    output to the handler, and [completeTask] then sends the handler a
    second frame with the same status, so c1 gets two Complete frames. *)
Theorem C1_probe_terminal_output_is_sent_twice :
  let w' := step Scenario.running
              (OpAgentMessage (TYPE_TASK_COMPLETE (Some Scenario.probeCompleted))
                 (quiet 4)) in
  outputHandlers (scheduler Scenario.running) !! "T1" = Some (Some "c1")
  /\ handlerCalls Scenario.running = []
  /\ handlerCalls w'
     = [("c1", Scenario.probeCompleted);
        ("c1", finalFrame "T1" TASK_STATUS_COMPLETED)]
  /\ (ws.outputHandler ∘ snd) <$> handlerCalls w'
     = [ws.TYPE_COMPLETE; ws.TYPE_COMPLETE]
  /\ length (terminalFrames w' "c1" "T1") = 2%nat.
Proof. repeat split; vm_compute; reflexivity. Qed.

(** C4 fails on the code: [completeTask] never removes the record of a
    task from [tasks], so a second [CancelTask] for T1 finds the record
    again: it returns no error, sends a second cancellation to P1 and
    decrements the counter of running tasks once more, from 0 to -1. *)
Theorem C4_second_cancel_succeeds_and_decrements_again :
  let first := CancelTask Scenario.running "T1" (quiet 5) in
  let second := CancelTask first.1 "T1" (quiet 6) in
  first.2 = None
  /\ second.2 = None
  /\ second.2 <> Some (ErrTaskNotFound "T1")
  /\ currentTasks (scheduler first.1) = 0%Z
  /\ currentTasks (scheduler second.1) = (-1)%Z
  /\ agent.sent (registry second.1)
     = [("P1", TYPE_EXECUTE_TASK Scenario.T1);
        ("P1", TYPE_CANCEL_TASK "T1"); ("P1", TYPE_CANCEL_TASK "T1")]
  /\ is_Some (tasks (scheduler first.1) !! "T1").
Proof.
  repeat split; try (vm_compute; reflexivity).
  - vm_compute. discriminate.
  - vm_compute. eexists. reflexivity.
Qed.

(** C5 fails on the code: one submission followed by two cancellations of
    the same task leaves the global counter of running tasks at -1. *)
Theorem C5_global_counter_goes_negative :
  let w := run (NewWorld 90 50)
             [OpAgentMessage (TYPE_REGISTER (Some Scenario.P1)) (quiet 0);
              OpSubmitTask Scenario.T1 "c1" (Some "c1") 1;
              OpExecuteTask 0 (quiet 2);
              OpCancelTask "T1" (quiet 3);
              OpCancelTask "T1" (quiet 4)] in
  GetCurrentTaskCount w = (-1)%Z
  /\ (GetCurrentTaskCount w < 0)%Z
  /\ agent.CurrentTasks <$> agent.agents (manager w) !! "P1" = Some 0%Z.
Proof. repeat split; vm_compute; reflexivity. Qed.

End Lifecycle.

(** * Further properties of the code *)

(** ** The shape of expanded and masked addresses *)

Section MaskingShape.
Import GoStrings ws.

Lemma padHexLoop_len_eq (fuel : nat) (p : string) :
  (len p <= 4)%nat -> (4 <= fuel + len p)%nat ->
  len (padHexLoop fuel p) = 4%nat.
Proof.
  revert p; induction fuel as [|fuel IH]; intros p Hle Hge; simpl.
  - lia.
  - destruct (Nat.ltb_spec (len p) 4); [|lia].
    apply IH; rewrite append_cons, append_empty; unfold len in *; simpl; lia.
Qed.

Lemma padHex_full (p : string) : len p = 4%nat -> padHex p = p.
Proof.
  intros H. unfold padHex. cbn [padHexLoop]. rewrite H. reflexivity.
Qed.

Lemma padAll_valid (parts parts' : list string) :
  padAll parts = Some parts' ->
  Forall (fun p => (1 <= len p <= 4)%nat) parts.
Proof.
  revert parts'; induction parts as [|p parts IH]; intros parts'; simpl.
  - constructor.
  - destruct (Nat.eqb_spec (len p) 0) as [|Hz]; [discriminate|].
    destruct (Nat.ltb_spec 4 (len p)) as [|Hf]; [discriminate|]. cbn [orb].
    destruct (padAll parts) as [l|]; [|discriminate]. intros _.
    constructor; [lia | eapply IH; reflexivity].
Qed.

Lemma fillParts_valid (parts result : list string) (idx : nat)
    (r : list string * nat) :
  fillParts parts result idx = Some r ->
  Forall (fun p => (1 <= len p <= 4)%nat) parts.
Proof.
  revert result idx; induction parts as [|p parts IH]; intros result idx;
    simpl.
  - constructor.
  - destruct (Nat.eqb_spec (len p) 0) as [|Hz]; [discriminate|].
    destruct (Nat.ltb_spec 4 (len p)) as [|Hf]; [discriminate|]. cbn [orb].
    intros Hrest. constructor; [lia | eapply IH; exact Hrest].
Qed.

Lemma Forall_len_padHex (parts : list string) :
  Forall (fun p => (1 <= len p <= 4)%nat) parts ->
  Forall (fun g => len g = 4%nat) (map padHex parts).
Proof.
  intros H. apply Forall_map. eapply Forall_impl; [exact H|].
  intros p Hp. cbv beta in Hp. apply padHexLoop_len_eq; lia.
Qed.

(** The groups of a successful expansion, with their lengths. *)
Lemma expandIPv6_shape (ip : string) :
  expandIPv6 ip <> "" ->
  exists groups,
    expandIPv6 ip = Join groups ":"
    /\ length groups = 8%nat
    /\ Forall (free ":") groups
    /\ Forall (fun g => len g = 4%nat) groups.
Proof.
  unfold expandIPv6. destruct (String.eqb ip ""); [congruence|].
  set (ip1 := if HasPrefix ip "::" then "0" ++ ip else ip).
  set (ip2 := if HasSuffix ip1 "::" then ip1 ++ "0" else ip1).
  destruct (Contains ip2 "::"); cbn [negb].
  - destruct (Split ip2 "::") as [|h0 [|h1 [|? ?]]]; try congruence.
    set (leftParts := if String.eqb h0 "" then [] else Split h0 ":").
    set (rightParts := if String.eqb h1 "" then [] else Split h1 ":").
    assert (Hl : Forall (free ":") leftParts).
    { unfold leftParts. destruct (String.eqb h0 "");
        [constructor | apply Split_free]. }
    assert (Hr : Forall (free ":") rightParts).
    { unfold rightParts. destruct (String.eqb h1 "");
        [constructor | apply Split_free]. }
    destruct (Z.ltb_spec (8 - Z.of_nat (length leftParts)
                            - Z.of_nat (length rightParts)) 1)
      as [|Hm]; [congruence|].
    set (m := Z.to_nat (8 - Z.of_nat (length leftParts)
                          - Z.of_nat (length rightParts))).
    destruct (fillParts leftParts (replicate 8 "") 0) as [[r1 i1]|] eqn:E1;
      [|congruence].
    pose proof (fillParts_valid _ _ _ _ E1) as Hvl.
    apply (fillParts_Some leftParts [] (replicate 8 "")) in E1 as [-> ->];
      [|rewrite length_replicate; lia].
    cbn [app length Nat.add].
    pose proof (fillZeros_spec m (map padHex leftParts)
                  (drop (length leftParts) (replicate 8 ""))) as E2.
    rewrite length_map in E2. rewrite E2
      by (rewrite length_drop, length_replicate; lia).
    clear E2.
    assert (Hpre : length (map padHex leftParts ++ replicate m "0000")
                   = (length leftParts + m)%nat)
      by (rewrite length_app, length_map, length_replicate; reflexivity).
    rewrite <- Hpre, app_assoc.
    destruct (fillParts rightParts _ _) as [[r3 i3]|] eqn:E3; [|congruence].
    pose proof (fillParts_valid _ _ _ _ E3) as Hvr.
    apply fillParts_Some in E3 as [-> _];
      [|rewrite !length_drop, length_replicate; lia].
    intros _. eexists. split; [reflexivity|].
    assert (Hnil : drop (length rightParts)
                     (drop m (drop (length leftParts) (replicate 8 "")))
                   = []).
    { rewrite !drop_drop, drop_ge; [reflexivity|].
      rewrite length_replicate. lia. }
    rewrite Hnil, app_nil_r. split.
    + rewrite !length_app, !length_map, !length_replicate. lia.
    + split; rewrite !Forall_app; repeat split.
      * apply Forall_free_padHex, Hl.
      * apply Forall_replicate. intros H. simpl in H.
        repeat destruct H as [H|H]; try discriminate H; exact H.
      * apply Forall_free_padHex, Hr.
      * apply Forall_len_padHex, Hvl.
      * apply Forall_replicate. reflexivity.
      * apply Forall_len_padHex, Hvr.
  - destruct (Nat.eqb_spec (length (Split ip2 ":")) 8) as [H8|];
      cbn [negb]; [|congruence].
    destruct (padAll (Split ip2 ":")) as [parts'|] eqn:E; [|congruence].
    pose proof (padAll_valid _ _ E) as Hv.
    apply padAll_Some in E as ->. intros _.
    eexists. split; [reflexivity|]. split; [|split].
    + rewrite length_map. exact H8.
    + apply Forall_free_padHex, Split_free.
    + apply Forall_len_padHex, Hv.
Qed.

(** Bytes that do not occur, and the search for a substring. *)
Lemma free_append (c : ascii) (s t : string) :
  free c (s ++ t) <-> free c s /\ free c t.
Proof.
  unfold free. induction s as [|a s IH].
  - rewrite append_empty. simpl. tauto.
  - rewrite append_cons. simpl. tauto.
Qed.

Lemma Index_free (c : ascii) (s t : string) :
  free c s -> Index s (String c t) = None.
Proof.
  induction s as [|a s IH]; intros Hs; [reflexivity|].
  cbn [Index HasPrefix]. destruct (Ascii.eqb_spec c a) as [->|Hne].
  - exfalso. apply Hs. left. reflexivity.
  - rewrite IH; [reflexivity|]. intros H. apply Hs. right. exact H.
Qed.

Lemma Contains_free (c : ascii) (s : string) :
  Contains s (String c "") = false <-> free c s.
Proof.
  split.
  - induction s as [|a s IH]; intros H; [intros []|].
    unfold Contains in *. cbn [Index HasPrefix] in H.
    destruct (Ascii.eqb_spec c a) as [->|Hne]; [discriminate H|].
    destruct (Index s (String c "")) eqn:E; [discriminate H|].
    intros [Ha|Hin]; [congruence | exact (IH eq_refl Hin)].
  - intros H. unfold Contains. rewrite Index_free by exact H. reflexivity.
Qed.

(** The pieces of a split contain only bytes of the string that was
    split. *)
Lemma SplitFrom_keeps_free (c : ascii) (sep s : string) (skip : nat)
    (cur : list ascii) :
  free c s -> ~ In c cur -> Forall (free c) (SplitFrom sep s skip cur).
Proof.
  revert skip cur; induction s as [|a s IH]; intros skip cur Hs Hcur.
  - cbn [SplitFrom]. constructor; [|constructor]. unfold free.
    rewrite list_ascii_of_string_of_list_ascii, <- in_rev. exact Hcur.
  - assert (Hs' : free c s) by (intros H; apply Hs; right; exact H).
    assert (Ha : a <> c) by (intros ->; apply Hs; left; reflexivity).
    cbn [SplitFrom]. destruct skip as [|k]; [|apply IH; assumption].
    destruct (HasPrefix (String a s) sep).
    + constructor; [|apply IH; [assumption | intros []]]. unfold free.
      rewrite list_ascii_of_string_of_list_ascii, <- in_rev. exact Hcur.
    + apply IH; [assumption|]. intros [H|H]; [congruence | exact (Hcur H)].
Qed.

Lemma Split_keeps_free (c : ascii) (s sep : string) :
  sep <> "" -> free c s -> Forall (free c) (Split s sep).
Proof.
  intros Hsep Hs. unfold Split. destruct sep; [congruence|].
  apply SplitFrom_keeps_free; [exact Hs | intros []].
Qed.

Lemma free_Join (c d : ascii) (parts : list string) :
  c <> d -> Forall (free c) parts -> free c (Join parts (String d "")).
Proof.
  intros Hcd H. induction H as [|p rest Hp Hrest IH]; [intros []|].
  destruct rest as [|q rest]; [exact Hp|].
  rewrite Join_cons by discriminate. rewrite !free_append.
  split; [exact Hp|]. split; [|exact IH].
  intros [Hd|[]]. congruence.
Qed.

(** Between groups that are neither empty nor contain a colon there is no
    double colon. *)
Lemma Index_append_free (g t : string) :
  free ":" g -> Index t "::" = None -> Index (g ++ t) "::" = None.
Proof.
  intros Hg Ht. induction g as [|a g IH]; [exact Ht|].
  rewrite append_cons. cbn [Index HasPrefix].
  destruct (Ascii.eqb_spec ":" a) as [<-|Hne].
  - exfalso. apply Hg. left. reflexivity.
  - rewrite IH; [reflexivity|]. intros H. apply Hg. right. exact H.
Qed.

Lemma Join_head (p : string) (rest : list string) (sep : string) :
  p <> "" -> exists a t, Join (p :: rest) sep = String a t
                         /\ exists p', p = String a p'.
Proof.
  intros Hp. destruct p as [|a p']; [congruence|].
  destruct rest as [|q rest].
  - exists a, p'. split; [reflexivity | eauto].
  - rewrite Join_cons by discriminate. rewrite append_cons. eauto.
Qed.

Lemma Index_colon_cons (a : ascii) (t : string) :
  a <> ":"%char -> Index (String a t) "::" = None ->
  Index (String ":" (String a t)) "::" = None.
Proof.
  intros Ha H.
  change (Index (String ":" (String a t)) "::")
    with (if HasPrefix (String ":" (String a t)) "::" then Some 0%nat
          else S <$> Index (String a t) "::").
  rewrite H. cbn [HasPrefix].
  destruct (Ascii.eqb_spec ":" a) as [<-|_]; [congruence|].
  rewrite Ascii.eqb_refl. reflexivity.
Qed.

Lemma Index_Join_double_colon (groups : list string) :
  Forall (free ":") groups -> Forall (fun g => g <> "") groups ->
  Index (Join groups ":") "::" = None.
Proof.
  intros Hf. induction Hf as [|p rest Hp Hrest IH]; intros Hne;
    [reflexivity|].
  apply Forall_cons in Hne as [Hp0 Hne].
  destruct rest as [|q rest].
  - cbn [Join]. rewrite <- (append_empty_r p).
    apply Index_append_free; [exact Hp | reflexivity].
  - rewrite Join_cons by discriminate. apply Index_append_free; [exact Hp|].
    specialize (IH Hne). apply Forall_cons in Hne as [Hq _].
    apply Forall_cons in Hrest as [Hqf _].
    destruct (Join_head q rest ":" Hq) as (a & t & E & q' & ->).
    rewrite E in *. rewrite append_cons, append_empty.
    apply Index_colon_cons; [|exact IH].
    intros ->. apply Hqf. left. reflexivity.
Qed.

Lemma padAll_full (groups : list string) :
  Forall (fun g => len g = 4%nat) groups -> padAll groups = Some groups.
Proof.
  intros H. induction H as [|g rest Hg Hrest IH]; [reflexivity|].
  cbn [padAll]. rewrite (padHex_full g Hg), Hg, IH. reflexivity.
Qed.

Lemma Forall_len4_nonempty (groups : list string) :
  Forall (fun g => len g = 4%nat) groups -> Forall (fun g => g <> "") groups.
Proof.
  intros H. eapply Forall_impl; [exact H|]. intros g Hg ->. discriminate Hg.
Qed.

Lemma len_Join8 (groups : list string) :
  length groups = 8%nat -> Forall (fun g => len g = 4%nat) groups ->
  len (Join groups ":") = 39%nat.
Proof.
  intros H8 Hl.
  destruct groups as [|g0 [|g1 [|g2 [|g3 [|g4 [|g5 [|g6 [|g7 [|? ?]]]]]]]]];
    try discriminate H8.
  repeat (apply Forall_cons in Hl as [? Hl]).
  cbn [Join]. rewrite !len_append. unfold len in *. simpl. lia.
Qed.

(** An expanded address is its own expansion. *)
Lemma expandIPv6_fixed (groups : list string) :
  length groups = 8%nat -> Forall (free ":") groups ->
  Forall (fun g => len g = 4%nat) groups ->
  expandIPv6 (Join groups ":") = Join groups ":"
  /\ Split (Join groups ":") ":" = groups
  /\ Join groups ":" <> "".
Proof.
  intros H8 Hf Hl.
  assert (Hne : groups <> []) by (destruct groups; [discriminate H8 | discriminate]).
  assert (Hsplit : Split (Join groups ":") ":" = groups)
    by (apply Split_Join; assumption).
  assert (Hidx : Index (Join groups ":") "::" = None)
    by (apply Index_Join_double_colon;
        [assumption | apply Forall_len4_nonempty, Hl]).
  assert (Hc : Contains (Join groups ":") "::" = false)
    by (unfold Contains; rewrite Hidx; reflexivity).
  assert (Hs : Join groups ":" <> "").
  { intros E. pose proof (len_Join8 groups H8 Hl) as H39.
    rewrite E in H39. discriminate H39. }
  assert (Hp : HasPrefix (Join groups ":") "::" = false).
  { destruct (HasPrefix (Join groups ":") "::") eqn:E; [|reflexivity].
    apply HasPrefix_spec in E as [post E].
    assert (Contains (Join groups ":") "::" = true)
      by (apply Contains_spec; exists "", post; exact E).
    congruence. }
  assert (Hx : HasSuffix (Join groups ":") "::" = false).
  { destruct (HasSuffix (Join groups ":") "::") eqn:E; [|reflexivity].
    apply HasSuffix_spec in E as [pre E].
    assert (Contains (Join groups ":") "::" = true).
    { apply Contains_spec. exists pre, "".
      rewrite append_empty_r. exact E. }
    congruence. }
  split; [|split; assumption].
  unfold expandIPv6. cbv zeta.
  destruct (String.eqb_spec (Join groups ":") "") as [|_]; [contradiction|].
  rewrite Hp, Hx, Hc. cbn [negb]. rewrite Hsplit, H8. cbn [Nat.eqb negb].
  rewrite padAll_full by exact Hl. reflexivity.
Qed.

(** X1. Whenever [expandIPv6] succeeds, its result is made of exactly eight
    groups of exactly four bytes, none of them a colon, separated by single
    colons (39 bytes in all), and expanding the result again changes
    nothing. *)
Theorem expandIPv6_eight_groups_of_four (ip : string) :
  expandIPv6 ip <> "" ->
  length (Split (expandIPv6 ip) ":") = 8%nat
  /\ Forall (fun g => len g = 4%nat /\ free ":" g)
       (Split (expandIPv6 ip) ":")
  /\ len (expandIPv6 ip) = 39%nat
  /\ expandIPv6 (expandIPv6 ip) = expandIPv6 ip.
Proof.
  intros H.
  destruct (expandIPv6_shape ip H) as (groups & -> & H8 & Hf & Hl).
  destruct (expandIPv6_fixed groups H8 Hf Hl) as (Hfix & Hsplit & _).
  rewrite Hsplit. split; [exact H8|]. split.
  - apply Forall_forall. intros g Hg.
    rewrite Forall_forall in Hf, Hl. auto.
  - split; [apply len_Join8; assumption | exact Hfix].
Qed.

Lemma expandIPv6_eight_groups_of_four_witness :
  expandIPv6 "fe80::1" <> ""
  /\ length (Split (expandIPv6 "fe80::1") ":") = 8%nat
  /\ len (expandIPv6 "fe80::1") = 39%nat.
Proof.
  assert (H : expandIPv6 "fe80::1" <> "") by (vm_compute; discriminate).
  split; [exact H|].
  destruct (expandIPv6_eight_groups_of_four "fe80::1" H) as (H8 & _ & H39 & _).
  split; assumption.
Defined.

(** The masked form of an address whose expansion succeeds. *)
Lemma maskIPv6Address_shape (ip : string) :
  expandIPv6 ip <> "" ->
  exists g0 mid g7,
    Split (expandIPv6 ip) ":" = (g0 :: mid ++ [g7])%list
    /\ length mid = 6%nat
    /\ len g0 = 4%nat /\ len g7 = 4%nat
    /\ free ":" g0 /\ free ":" g7
    /\ maskIPv6Address ip = Join (maskedGroups g0 g7) ":"
    /\ len (maskIPv6Address ip) = 39%nat.
Proof.
  intros H.
  assert (Hip : ip <> "") by (intros ->; apply H; reflexivity).
  destruct (expandIPv6_shape ip H) as (groups & E & H8 & Hf & Hl).
  destruct (expandIPv6_fixed groups H8 Hf Hl) as (_ & Hsplit & Hne).
  unfold maskIPv6Address.
  destruct (String.eqb_spec ip "") as [|_]; [contradiction|].
  rewrite E. destruct (String.eqb_spec (Join groups ":") "") as [|_];
    [contradiction|].
  rewrite Hsplit, H8. cbn [Nat.eqb negb].
  destruct groups as [|g0 [|g1 [|g2 [|g3 [|g4 [|g5 [|g6 [|g7 [|? ?]]]]]]]]];
    try discriminate H8.
  exists g0, [g1; g2; g3; g4; g5; g6], g7.
  split; [reflexivity|]. split; [reflexivity|].
  repeat (apply Forall_cons in Hl as [? Hl]).
  repeat (apply Forall_cons in Hf as [? Hf]).
  repeat (split; [assumption|]).
  split; [reflexivity|].
  apply len_Join8; [reflexivity|]. unfold maskMiddle. cbn.
  repeat constructor; assumption.
Qed.

(** X2. Whenever the expansion succeeds, the masked address keeps the first
    and the last group of the expansion (four bytes each) and has [****] in
    the six places between them, whatever the six middle groups were. *)
Theorem maskIPv6Address_keeps_only_the_outer_groups (ip : string) :
  expandIPv6 ip <> "" ->
  exists g0 mid g7,
    Split (expandIPv6 ip) ":" = (g0 :: mid ++ [g7])%list
    /\ length mid = 6%nat
    /\ len g0 = 4%nat /\ len g7 = 4%nat
    /\ free ":" g0 /\ free ":" g7
    /\ maskIPv6Address ip = Join (maskedGroups g0 g7) ":"
    /\ len (maskIPv6Address ip) = 39%nat.
Proof. exact (maskIPv6Address_shape ip). Qed.

Lemma maskIPv6Address_keeps_only_the_outer_groups_witness :
  expandIPv6 "2001:db8:1:2:3:4:5:6" <> ""
  /\ exists g0 mid g7,
       Split (expandIPv6 "2001:db8:1:2:3:4:5:6") ":"
       = (g0 :: mid ++ [g7])%list
       /\ length mid = 6%nat
       /\ len g0 = 4%nat /\ len g7 = 4%nat
       /\ free ":" g0 /\ free ":" g7
       /\ maskIPv6Address "2001:db8:1:2:3:4:5:6"
          = Join (maskedGroups g0 g7) ":"
       /\ len (maskIPv6Address "2001:db8:1:2:3:4:5:6") = 39%nat.
Proof.
  assert (H : expandIPv6 "2001:db8:1:2:3:4:5:6" <> "")
    by (vm_compute; discriminate).
  split; [exact H|].
  exact (maskIPv6Address_keeps_only_the_outer_groups _ H).
Defined.

(** The three outcomes of masking. *)
Lemma maskIP_cases (ip : string) :
  maskIP ip true = ip
  \/ (exists g0 g7,
        len g0 = 4%nat /\ len g7 = 4%nat /\ free ":" g0 /\ free ":" g7
        /\ maskIP ip true = Join (maskedGroups g0 g7) ":")
  \/ (exists p0 p1,
        free "." p0 /\ free "." p1 /\ free ":" p0 /\ free ":" p1
        /\ maskIP ip true = Join [p0; p1; "*"; "*"] ".").
Proof.
  unfold maskIP. cbn [negb orb].
  destruct (String.eqb ip ""); [left; reflexivity|].
  destruct (Contains ip ":") eqn:Ec.
  - destruct (String.eqb_spec (expandIPv6 ip) "") as [E|E].
    + left. unfold maskIPv6Address. rewrite E.
      destruct (String.eqb ip ""); reflexivity.
    + right; left.
      destruct (maskIPv6Address_shape ip E)
        as (g0 & mid & g7 & _ & _ & H0 & H7 & F0 & F7 & Hm & _).
      exists g0, g7. auto.
  - apply Contains_free in Ec.
    pose proof (Split_free "." ip) as Hd.
    pose proof (Split_keeps_free ":" ip "." ltac:(discriminate) Ec) as Hc.
    destruct (Split ip ".") as [|p0 [|p1 [|p2 [|p3 [|? ?]]]]];
      try (left; reflexivity).
    right; right. exists p0, p1.
    apply Forall_cons in Hd as [? Hd]. apply Forall_cons in Hd as [? _].
    apply Forall_cons in Hc as [? Hc]. apply Forall_cons in Hc as [? _].
    repeat (split; [assumption|]). reflexivity.
Qed.

Lemma star_free (c : ascii) : c <> "*"%char -> free c "*".
Proof. intros H [E|[]]. congruence. Qed.

Lemma maskIP_fixed4 (p0 p1 : string) :
  free "." p0 -> free "." p1 -> free ":" p0 -> free ":" p1 ->
  maskIP (Join [p0; p1; "*"; "*"] ".") true = Join [p0; p1; "*"; "*"] ".".
Proof.
  intros D0 D1 C0 C1.
  assert (Hs : Split (Join [p0; p1; "*"; "*"] ".") "." = [p0; p1; "*"; "*"]).
  { apply Split_Join; [discriminate|].
    repeat constructor; try assumption; apply star_free; discriminate. }
  assert (Hc : Contains (Join [p0; p1; "*"; "*"] ".") ":" = false).
  { apply Contains_free, free_Join; [discriminate|].
    repeat constructor; try assumption; apply star_free; discriminate. }
  unfold maskIP. cbn [negb orb]. rewrite Hc, Hs.
  destruct (String.eqb _ ""); reflexivity.
Qed.

Lemma maskIP_fixed6 (g0 g7 : string) :
  len g0 = 4%nat -> len g7 = 4%nat -> free ":" g0 -> free ":" g7 ->
  maskIP (Join (maskedGroups g0 g7) ":") true
  = Join (maskedGroups g0 g7) ":".
Proof.
  intros L0 L7 F0 F7.
  assert (Hstar : free ":" "****").
  { intros H. simpl in H. repeat destruct H as [H|H]; try discriminate H.
    exact H. }
  assert (Hf : Forall (free ":") (maskedGroups g0 g7))
    by (repeat constructor; assumption).
  assert (Hl : Forall (fun g => len g = 4%nat) (maskedGroups g0 g7))
    by (repeat constructor; assumption).
  destruct (expandIPv6_fixed (maskedGroups g0 g7) eq_refl Hf Hl)
    as (Hfix & Hsplit & Hne).
  unfold maskIP. cbn [negb orb].
  destruct (String.eqb_spec (Join (maskedGroups g0 g7) ":") "") as [|_];
    [contradiction|].
  assert (Hc : Contains (Join (maskedGroups g0 g7) ":") ":" = true).
  { apply Contains_spec. exists g0. eexists.
    unfold maskedGroups. rewrite Join_cons by discriminate. reflexivity. }
  rewrite Hc. unfold maskIPv6Address. rewrite Hfix.
  destruct (String.eqb_spec (Join (maskedGroups g0 g7) ":") "") as [|_];
    [contradiction|].
  rewrite Hsplit. reflexivity.
Qed.

(** X3. Masking is idempotent: masking an address that has been masked
    gives the same string, with masking on or off. *)
Theorem maskIP_idempotent (ip : string) (shouldMask : bool) :
  maskIP (maskIP ip shouldMask) shouldMask = maskIP ip shouldMask
  /\ maskIPAddress (maskIPAddress ip shouldMask) shouldMask
     = maskIPAddress ip shouldMask.
Proof.
  change (maskIPAddress ip shouldMask) with (maskIP ip shouldMask).
  change (maskIPAddress (maskIP ip shouldMask) shouldMask)
    with (maskIP (maskIP ip shouldMask) shouldMask).
  assert (H : maskIP (maskIP ip shouldMask) shouldMask
              = maskIP ip shouldMask); [|split; exact H].
  destruct shouldMask; [|reflexivity].
  destruct (maskIP_cases ip)
    as [E|[(g0 & g7 & L0 & L7 & F0 & F7 & E)|(p0 & p1 & D0 & D1 & C0 & C1 & E)]].
  - rewrite E. exact E.
  - rewrite E. apply maskIP_fixed6; assumption.
  - rewrite E. apply maskIP_fixed4; assumption.
Qed.

(** X4. For every dotted quad, whose four parts contain neither a dot nor a
    colon, masking returns the first two parts followed by [.*.*]: the last
    two parts have no influence on the result. *)
Theorem maskIP_dotted_quad (p0 p1 p2 p3 : string) :
  Forall (free ".") [p0; p1; p2; p3] ->
  Forall (free ":") [p0; p1; p2; p3] ->
  maskIP (Join [p0; p1; p2; p3] ".") true = p0 ++ "." ++ p1 ++ ".*.*"
  /\ forall q2 q3,
       Forall (free ".") [q2; q3] -> Forall (free ":") [q2; q3] ->
       maskIP (Join [p0; p1; q2; q3] ".") true
       = maskIP (Join [p0; p1; p2; p3] ".") true.
Proof.
  assert (Hone : forall a b c d,
    Forall (free ".") [a; b; c; d] -> Forall (free ":") [a; b; c; d] ->
    maskIP (Join [a; b; c; d] ".") true = a ++ "." ++ b ++ ".*.*").
  { intros a b c d Hd Hc.
    assert (Hs : Split (Join [a; b; c; d] ".") "." = [a; b; c; d])
      by (apply Split_Join; [discriminate | exact Hd]).
    assert (Hcol : Contains (Join [a; b; c; d] ".") ":" = false)
      by (apply Contains_free, free_Join; [discriminate | exact Hc]).
    unfold maskIP. cbn [negb orb]. rewrite Hcol, Hs.
    destruct (String.eqb_spec (Join [a; b; c; d] ".") "") as [E|_];
      [|reflexivity].
    exfalso. cbn [Join] in E. destruct a; discriminate E. }
  intros Hd Hc. split; [apply Hone; assumption|].
  intros q2 q3 Hqd Hqc. rewrite (Hone p0 p1 p2 p3 Hd Hc).
  apply Forall_cons in Hd as [A0 [A1 _]%Forall_cons].
  apply Forall_cons in Hc as [B0 [B1 _]%Forall_cons].
  apply Hone.
  - apply Forall_cons. split; [exact A0|].
    apply Forall_cons. split; [exact A1 | exact Hqd].
  - apply Forall_cons. split; [exact B0|].
    apply Forall_cons. split; [exact B1 | exact Hqc].
Qed.

Lemma maskIP_dotted_quad_witness :
  Forall (free ".") ["203"; "0"; "113"; "45"]
  /\ Forall (free ":") ["203"; "0"; "113"; "45"]
  /\ maskIP (Join ["203"; "0"; "113"; "45"] ".") true = "203.0.*.*".
Proof.
  assert (Hd : Forall (free ".") ["203"; "0"; "113"; "45"]).
  { repeat constructor; intros H; simpl in H;
      repeat destruct H as [H|H]; try discriminate H; exact H. }
  assert (Hc : Forall (free ":") ["203"; "0"; "113"; "45"]).
  { repeat constructor; intros H; simpl in H;
      repeat destruct H as [H|H]; try discriminate H; exact H. }
  split; [exact Hd|]. split; [exact Hc|].
  exact (proj1 (maskIP_dotted_quad "203" "0" "113" "45" Hd Hc)).
Defined.

End MaskingShape.

(** ** Masking: addresses that are returned as they are *)

Section MalformedAddresses.
Import GoStrings ws.

Lemma append_eq_append (a b c d : string) :
  a ++ b = c ++ d ->
  (exists k, c = a ++ k /\ b = k ++ d)
  \/ (exists k, a = c ++ k /\ d = k ++ b).
Proof.
  revert c. induction a as [|x a IH]; intros c H.
  - left. exists c. rewrite !append_empty in *. auto.
  - destruct c as [|y c].
    + right. exists (String x a). rewrite !append_empty in *. auto.
    + rewrite !append_cons in H. injection H as -> H.
      destruct (IH c H) as [(k & -> & ->)|(k & -> & ->)].
      * left. exists k. rewrite append_cons. auto.
      * right. exists k. rewrite append_cons. auto.
Qed.

Lemma validGroup_nonempty (groups : list string) :
  Forall validGroup groups -> Forall (fun g => g <> "") groups.
Proof.
  intros H. eapply Forall_impl; [exact H|].
  intros g [[Hl _] _] ->. cbn in Hl. lia.
Qed.

Lemma validGroup_free (groups : list string) :
  Forall validGroup groups -> Forall (free ":") groups.
Proof.
  intros H. eapply Forall_impl; [exact H|]. intros g [_ Hf]. exact Hf.
Qed.

Lemma validGroup_len (groups : list string) :
  Forall validGroup groups ->
  Forall (fun p => (1 <= len p <= 4)%nat) groups.
Proof.
  intros H. eapply Forall_impl; [exact H|]. intros g [Hl _]. exact Hl.
Qed.

Lemma validGroup_intro (groups : list string) :
  Forall (fun p => (1 <= len p <= 4)%nat) groups ->
  Forall (free ":") groups ->
  Forall validGroup groups.
Proof.
  intros Hl Hf. induction Hl as [|g rest Hg Hrest IH]; [constructor|].
  apply Forall_cons in Hf as [Hf1 Hf2].
  constructor; [split; assumption | apply IH, Hf2].
Qed.

(** The groups of a half, and the half as the groups joined. *)
Lemma groupsOf_free (s : string) : Forall (free ":") (groupsOf s).
Proof.
  unfold groupsOf. destruct (String.eqb s "");
    [constructor | apply Split_free].
Qed.

Lemma Join_groupsOf (s : string) : Join (groupsOf s) ":" = s.
Proof.
  unfold groupsOf. destruct (String.eqb_spec s "") as [->|_];
    [reflexivity | apply Join_Split; discriminate].
Qed.

(** A string of valid groups joined by colons has no [::] and does not
    start with a colon. *)
Lemma Join_no_double_colon (groups : list string) (pre post : string) :
  Forall validGroup groups ->
  Join groups ":" <> pre ++ "::" ++ post.
Proof.
  intros H. apply Index_None, Index_Join_double_colon;
    [apply validGroup_free, H | apply validGroup_nonempty, H].
Qed.

Lemma Join_no_leading_colon (groups : list string) (post : string) :
  Forall validGroup groups ->
  Join groups ":" <> String ":" post.
Proof.
  intros H E. destruct H as [|g rest Hg Hrest]; [discriminate E|].
  destruct Hg as [[Hl _] Hf].
  assert (Hne : g <> "") by (intros ->; cbn in Hl; lia).
  destruct (Join_head g rest ":" Hne) as (a & t & Ej & g' & ->).
  rewrite Ej in E. injection E as -> _.
  apply Hf. left. reflexivity.
Qed.

(** The suffix rule of [expandIPv6]: when a zero is appended to text that
    ends in [::], the groups after the first [::] are that zero alone. *)
Lemma zero_after_double_colon (x h0 : string) (right : list string) :
  Forall validGroup right ->
  x ++ "::" ++ "0" = h0 ++ "::" ++ Join right ":" ->
  Join right ":" = "0" /\ x = h0.
Proof.
  intros Hv E.
  apply append_eq_append in E as [(k & -> & E)|(k & -> & E)].
  - (* h0 = x ++ k and ::0 = k ++ :: ++ groups *)
    destruct k as [|a k].
    + rewrite append_empty in E. injection E as E.
      rewrite append_empty_r. auto.
    + rewrite append_cons in E. injection E as <- E.
      destruct k as [|b k].
      * rewrite append_empty in E. discriminate E.
      * rewrite append_cons in E. injection E as <- E.
        destruct k as [|c k].
        -- rewrite append_empty in E. discriminate E.
        -- rewrite append_cons in E. injection E as _ E.
           destruct k; discriminate E.
  - (* x = h0 ++ k and :: ++ groups = k ++ ::0 *)
    destruct k as [|a k].
    + rewrite append_empty in E. injection E as E.
      rewrite append_empty_r. auto.
    + rewrite append_cons in E. injection E as <- E.
      destruct k as [|b k].
      * rewrite append_empty in E. injection E as E.
        exfalso. exact (Join_no_leading_colon right "0" Hv E).
      * rewrite append_cons in E. injection E as <- E.
        exfalso. exact (Join_no_double_colon right k "0" Hv E).
Qed.

(** The prefix rule of [expandIPv6]: the zero put before a leading [::] is
    the only group before it. *)
Lemma Split_zero_prefix (post : string) :
  Split ("0" ++ "::" ++ post) "::" = "0" :: Split post "::".
Proof. reflexivity. Qed.

(** What [expandIPv6] has checked when it returns an expansion, in terms of
    the string [ip2] it works on. *)
Lemma expandIPv6_checked (ip : string) :
  expandIPv6 ip <> "" ->
  let ip1 := if HasPrefix ip "::" then "0" ++ ip else ip in
  let ip2 := if HasSuffix ip1 "::" then ip1 ++ "0" else ip1 in
  ip <> ""
  /\ (Contains ip2 "::" = false
      /\ length (Split ip2 ":") = 8%nat
      /\ Forall validGroup (Split ip2 ":")
      \/ exists h0 h1,
           Split ip2 "::" = [h0; h1]
           /\ Forall validGroup (groupsOf h0)
           /\ Forall validGroup (groupsOf h1)
           /\ (length (groupsOf h0) + length (groupsOf h1) <= 7)%nat).
Proof.
  unfold expandIPv6.
  destruct (String.eqb_spec ip "") as [|Hne]; [congruence|].
  cbv zeta.
  set (ip1 := if HasPrefix ip "::" then "0" ++ ip else ip).
  set (ip2 := if HasSuffix ip1 "::" then ip1 ++ "0" else ip1).
  intros H. split; [exact Hne|].
  destruct (Contains ip2 "::"); cbn [negb] in H.
  - right.
    destruct (Split ip2 "::") as [|h0 [|h1 [|? ?]]]; try congruence.
    exists h0, h1. split; [reflexivity|].
    change (if String.eqb h0 "" then [] else Split h0 ":")
      with (groupsOf h0) in H.
    change (if String.eqb h1 "" then [] else Split h1 ":")
      with (groupsOf h1) in H.
    destruct (Z.ltb_spec (8 - Z.of_nat (length (groupsOf h0))
                            - Z.of_nat (length (groupsOf h1))) 1)
      as [|Hm]; [congruence|].
    destruct (fillParts (groupsOf h0) (replicate 8 "") 0)
      as [[r1 i1]|] eqn:E1; [|congruence].
    pose proof (fillParts_valid _ _ _ _ E1) as Hvl.
    destruct (fillZeros _ r1 i1) as [r2 i2].
    destruct (fillParts (groupsOf h1) r2 i2) as [[r3 i3]|] eqn:E3;
      [|congruence].
    pose proof (fillParts_valid _ _ _ _ E3) as Hvr.
    split; [apply validGroup_intro; [exact Hvl | apply groupsOf_free]|].
    split; [apply validGroup_intro; [exact Hvr | apply groupsOf_free]|].
    lia.
  - left. split; [reflexivity|].
    destruct (Nat.eqb_spec (length (Split ip2 ":")) 8) as [H8|];
      cbn [negb] in H; [|congruence].
    destruct (padAll (Split ip2 ":")) as [parts'|] eqn:E; [|congruence].
    split; [exact H8|].
    apply validGroup_intro; [exact (padAll_valid _ _ E) | apply Split_free].
Qed.

(** Whatever [expandIPv6] expands has the shape of an IPv6 string. *)
Lemma expandIPv6_ipv6Shape (ip : string) :
  expandIPv6 ip <> "" -> ipv6Shape ip.
Proof.
  intros H. destruct (expandIPv6_checked ip H) as [Hne Hc]. clear H.
  cbv zeta in Hc.
  destruct (HasPrefix ip "::") eqn:Hp.
  - (* a leading :: *)
    apply HasPrefix_spec in Hp as [post ->].
    destruct (HasSuffix ("0" ++ "::" ++ post) "::") eqn:Hs.
    + (* and a trailing one *)
      apply HasSuffix_spec in Hs as [x Hx].
      destruct Hc as [(Hc & _)|(h0 & h1 & Hsp & Hl & Hr & Hn)].
      { assert (Contains (("0" ++ "::" ++ post) ++ "0") "::" = true).
        { apply Contains_spec. exists "0", (post ++ "0").
          rewrite !append_assoc. reflexivity. }
        congruence. }
      replace (("0" ++ "::" ++ post) ++ "0")
        with ("0" ++ "::" ++ (post ++ "0")) in Hsp
        by (rewrite !append_assoc; reflexivity).
      rewrite Split_zero_prefix in Hsp. injection Hsp as <- Hsp.
      assert (E1 : post ++ "0" = h1).
      { pose proof (Join_Split (post ++ "0") "::") as J.
        cbv [Split] in J, Hsp. rewrite Hsp in J. cbn in J. symmetry. apply J. discriminate. }
      assert (E2 : x ++ "::" ++ "0" = "0" ++ "::" ++ Join (groupsOf h1) ":").
      { rewrite Join_groupsOf, <- E1.
        replace (x ++ "::" ++ "0") with ((x ++ "::") ++ "0")
          by (rewrite !append_assoc; reflexivity).
        rewrite <- Hx, !append_assoc. reflexivity. }
      destruct (zero_after_double_colon x "0" (groupsOf h1) Hr E2)
        as [E3 _].
      rewrite Join_groupsOf in E3. rewrite E3 in E1.
      assert (post = "").
      { destruct post as [|a post]; [reflexivity|].
        rewrite append_cons in E1. injection E1 as _ E1.
        destruct post; discriminate E1. }
      subst post. exists [], []. split; [constructor|].
      split; [constructor|]. right. split; [reflexivity | cbn; lia].
    + (* and no trailing one *)
      destruct Hc as [(Hc & _)|(h0 & h1 & Hsp & Hl & Hr & Hn)].
      { assert (Contains ("0" ++ "::" ++ post) "::" = true).
        { apply Contains_spec. exists "0", post. reflexivity. }
        congruence. }
      rewrite Split_zero_prefix in Hsp. injection Hsp as <- Hsp.
      assert (E1 : post = h1).
      { pose proof (Join_Split post "::") as J.
        cbv [Split] in J, Hsp. rewrite Hsp in J. cbn in J. symmetry. apply J. discriminate. }
      exists [], (groupsOf h1). split; [constructor|].
      split; [exact Hr|]. right. split.
      * rewrite Join_groupsOf, E1. reflexivity.
      * cbn in Hn |- *. lia.
  - (* no leading :: *)
    destruct (HasSuffix ip "::") eqn:Hs.
    + apply HasSuffix_spec in Hs as [x ->].
      destruct Hc as [(Hc & _)|(h0 & h1 & Hsp & Hl & Hr & Hn)].
      { assert (Contains ((x ++ "::") ++ "0") "::" = true).
        { apply Contains_spec. exists x, "0".
          rewrite !append_assoc. reflexivity. }
        congruence. }
      assert (E1 : (x ++ "::") ++ "0" = h0 ++ "::" ++ h1).
      { pose proof (Join_Split ((x ++ "::") ++ "0") "::") as J.
        cbv [Split] in J, Hsp. rewrite Hsp in J. cbn in J. symmetry. apply J. discriminate. }
      assert (E2 : x ++ "::" ++ "0" = h0 ++ "::" ++ Join (groupsOf h1) ":").
      { rewrite Join_groupsOf, <- E1, !append_assoc. reflexivity. }
      destruct (zero_after_double_colon x h0 (groupsOf h1) Hr E2)
        as [_ ->].
      exists (groupsOf h0), []. split; [exact Hl|].
      split; [constructor|]. right. split.
      * rewrite Join_groupsOf. reflexivity.
      * cbn. lia.
    + destruct Hc as [(Hc & H8 & Hv)|(h0 & h1 & Hsp & Hl & Hr & Hn)].
      * exists (Split ip ":"), []. split; [exact Hv|].
        split; [constructor|]. left.
        split; [symmetry; apply Join_Split; discriminate|].
        split; [reflexivity | exact H8].
      * assert (E1 : ip = h0 ++ "::" ++ h1).
        { pose proof (Join_Split ip "::") as J.
          cbv [Split] in J, Hsp. rewrite Hsp in J. cbn in J. symmetry. apply J. discriminate. }
        exists (groupsOf h0), (groupsOf h1). split; [exact Hl|].
        split; [exact Hr|]. right. split; [|exact Hn].
        rewrite !Join_groupsOf. exact E1.
Qed.

(** Eight valid groups written out in full are expanded by padding each
    of them, and masked. *)
Lemma padAll_ok (groups : list string) :
  Forall validGroup groups -> padAll groups = Some (map padHex groups).
Proof.
  intros H. induction H as [|g rest [[H1 H4] _] Hrest IH]; [reflexivity|].
  cbn [padAll map].
  destruct (Nat.eqb_spec (len g) 0) as [E|_]; [lia|].
  destruct (Nat.ltb_spec 4 (len g)) as [E|_]; [lia|].
  cbn [orb]. rewrite IH. reflexivity.
Qed.

Lemma maskIP_eight_groups (g0 g1 g2 g3 g4 g5 g6 g7 : string) :
  Forall validGroup [g0; g1; g2; g3; g4; g5; g6; g7] ->
  maskIP (Join [g0; g1; g2; g3; g4; g5; g6; g7] ":") true
  = Join (maskedGroups (padHex g0) (padHex g7)) ":"
  /\ maskIPAddress (Join [g0; g1; g2; g3; g4; g5; g6; g7] ":") true
     = Join (maskedGroups (padHex g0) (padHex g7)) ":".
Proof.
  intros Hv. set (groups := [g0; g1; g2; g3; g4; g5; g6; g7]) in *.
  assert (Hf : Forall (free ":") groups) by apply validGroup_free, Hv.
  assert (Hsplit : Split (Join groups ":") ":" = groups)
    by (apply Split_Join; [discriminate | exact Hf]).
  assert (Hc : Contains (Join groups ":") "::" = false).
  { unfold Contains.
    rewrite Index_Join_double_colon;
      [reflexivity | exact Hf | apply validGroup_nonempty, Hv]. }
  assert (Hs : Join groups ":" <> "").
  { assert (Hne : g0 <> "").
    { apply Forall_cons in Hv as [[[Hl _] _] _]. intros ->. cbn in Hl. lia. }
    destruct (Join_head g0 [g1; g2; g3; g4; g5; g6; g7] ":" Hne)
      as (a & t & E & _).
    unfold groups. rewrite E. discriminate. }
  assert (Hp : HasPrefix (Join groups ":") "::" = false).
  { destruct (HasPrefix (Join groups ":") "::") eqn:E; [|reflexivity].
    apply HasPrefix_spec in E as [post E].
    assert (Contains (Join groups ":") "::" = true)
      by (apply Contains_spec; exists "", post; exact E).
    congruence. }
  assert (Hx : HasSuffix (Join groups ":") "::" = false).
  { destruct (HasSuffix (Join groups ":") "::") eqn:E; [|reflexivity].
    apply HasSuffix_spec in E as [pre E].
    assert (Contains (Join groups ":") "::" = true).
    { apply Contains_spec. exists pre, "".
      rewrite append_empty_r. exact E. }
    congruence. }
  assert (He : expandIPv6 (Join groups ":") = Join (map padHex groups) ":").
  { unfold expandIPv6. cbv zeta.
    destruct (String.eqb_spec (Join groups ":") "") as [|_];
      [contradiction|].
    rewrite Hp, Hx, Hc. cbn [negb]. rewrite Hsplit.
    cbn [groups length Nat.eqb negb].
    rewrite (padAll_ok _ Hv). reflexivity. }
  assert (Hs' : Join (map padHex groups) ":" <> "").
  { assert (Hne : padHex g0 <> "").
    { intros E. pose proof (padHex_len g0) as L. rewrite E in L.
      cbn in L. lia. }
    cbn [groups map].
    destruct (Join_head (padHex g0)
                (map padHex [g1; g2; g3; g4; g5; g6; g7]) ":" Hne)
      as (a & t & E & _).
    cbn [map] in E. rewrite E. discriminate. }
  assert (Hsplit' : Split (Join (map padHex groups) ":") ":"
                    = map padHex groups)
    by (apply Split_Join; [discriminate | apply Forall_free_padHex, Hf]).
  assert (H6 : maskIPv6Address (Join groups ":")
               = Join (maskedGroups (padHex g0) (padHex g7)) ":").
  { unfold maskIPv6Address.
    destruct (String.eqb_spec (Join groups ":") "") as [|_];
      [contradiction|].
    rewrite He.
    destruct (String.eqb_spec (Join (map padHex groups) ":") "") as [|_];
      [contradiction|].
    rewrite Hsplit'. reflexivity. }
  assert (Hcol : Contains (Join groups ":") ":" = true).
  { apply Contains_spec.
    exists g0, (Join [g1; g2; g3; g4; g5; g6; g7] ":").
    unfold groups. apply Join_cons. discriminate. }
  unfold maskIP, maskIPAddress. cbn [negb orb].
  destruct (String.eqb_spec (Join groups ":") "") as [|_];
    [contradiction|].
  rewrite Hcol. split; exact H6.
Qed.

(** The characters of a string that has the hexadecimal shape. *)
Lemma In_append (c : ascii) (s t : string) :
  In c (list_ascii_of_string (s ++ t))
  <-> In c (list_ascii_of_string s) \/ In c (list_ascii_of_string t).
Proof.
  induction s as [|a s IH].
  - rewrite append_empty. simpl. tauto.
  - rewrite append_cons. simpl. tauto.
Qed.

Lemma In_Join (c : ascii) (groups : list string) :
  In c (list_ascii_of_string (Join groups ":")) ->
  c = ":"%char \/ exists g, In g groups /\ In c (list_ascii_of_string g).
Proof.
  induction groups as [|g rest IH]; [intros []|].
  destruct rest as [|g' rest].
  - cbn [Join]. intros H. right. exists g. split; [left; reflexivity|exact H].
  - rewrite Join_cons by discriminate. intros H.
    apply In_append in H as [H|H].
    + right. exists g. split; [left; reflexivity | exact H].
    + apply In_append in H as [H|H].
      * left. cbn in H. destruct H as [H|[]]. symmetry. exact H.
      * destruct (IH H) as [E|(x & Hx & Hc)]; [left; exact E|].
        right. exists x. split; [right; exact Hx | exact Hc].
Qed.

Lemma ipv6HexShape_chars (ip : string) (c : ascii) :
  ipv6HexShape ip -> In c (list_ascii_of_string ip) ->
  c = ":"%char \/ isHexDigit c = true.
Proof.
  intros (left & right & _ & _ & Hl & Hr & Hs) Hin.
  assert (K : forall groups, Forall hexGroup groups ->
            In c (list_ascii_of_string (Join groups ":")) ->
            c = ":"%char \/ isHexDigit c = true).
  { intros groups Hh H. destruct (In_Join c groups H) as [E|(g & Hg & Hc)];
      [left; exact E|].
    right. rewrite Forall_forall in Hh. apply (Hh g); [|exact Hc].
    apply list_elem_of_In, Hg. }
  destruct Hs as [(-> & _ & _)|(-> & _)].
  - apply (K left Hl Hin).
  - apply In_append in Hin as [H|H]; [apply (K left Hl H)|].
    apply In_append in H as [H|H]; [|apply (K right Hr H)].
    left. cbn in H. destruct H as [H|[H|[]]]; symmetry; exact H.
Qed.

Lemma ipv6Shape_inv (ip : string) :
  ipv6Shape ip ->
  length (Split ip ":") = 8%nat \/ Contains ip "::" = true.
Proof.
  intros (left & right & Hl & _ & [(-> & _ & H8)|(-> & _)]).
  - left. rewrite Split_Join; [exact H8 | | apply validGroup_free, Hl].
    destruct left; [discriminate H8 | discriminate].
  - right. apply Contains_spec. eauto.
Qed.

(** C10 as stated fails: zz::1 is no dotted quad and no IPv6 string of
    hexadecimal groups (it has the shape, but z is no hexadecimal digit),
    and yet masking rewrites it. *)
Lemma C10_counterexample :
  isDottedQuad "zz::1" = false
  /\ ~ ipv6HexShape "zz::1"
  /\ ipv6Shape "zz::1"
  /\ expandsToEightHexGroups "zz::1" = false
  /\ maskIP "zz::1" true = "00zz:****:****:****:****:****:****:0001"
  /\ maskIP "zz::1" true <> "zz::1".
Proof.
  split; [reflexivity|]. split.
  { intros H.
    destruct (ipv6HexShape_chars "zz::1" "z" H) as [E|E];
      [left; reflexivity | discriminate E | discriminate E]. }
  split.
  { exists ["zz"], ["1"].
    assert (F : forall g, free ":" g -> (1 <= len g <= 4)%nat ->
                Forall validGroup [g])
      by (intros g Hf Hl; constructor; [split; assumption | constructor]).
    split; [|split].
    - apply F; [|cbn; lia]. intros Hin. cbn in Hin.
      repeat (destruct Hin as [Hin|Hin]; [discriminate Hin|]). exact Hin.
    - apply F; [|cbn; lia]. intros Hin. cbn in Hin.
      repeat (destruct Hin as [Hin|Hin]; [discriminate Hin|]). exact Hin.
    - right. split; [reflexivity | cbn; lia]. }
  repeat split; try (vm_compute; reflexivity).
  vm_compute. discriminate.
Qed.

(** C10, amended: with masking on, an address that is no dotted quad and
    no IPv6 string, that is, no text standing for exactly eight groups of
    one to four characters between colons (written out in full, or with
    one [::] for the groups left out; the characters need not be
    hexadecimal digits), is returned as it is; so is the empty string.
    Eight such groups written out in full, on the other hand, are masked
    whatever their characters are: the first and the last group are padded
    and the six between them are replaced. *)
Theorem C10_malformed_addresses_are_not_masked (ip : string) :
  isDottedQuad ip = false ->
  ~ ipv6Shape ip ->
  maskIP ip true = ip /\ maskIPAddress ip true = ip
  /\ maskIP "" true = "" /\ maskIPAddress "" true = ""
  /\ forall g0 g1 g2 g3 g4 g5 g6 g7,
       Forall validGroup [g0; g1; g2; g3; g4; g5; g6; g7] ->
       maskIP (Join [g0; g1; g2; g3; g4; g5; g6; g7] ":") true
       = Join (maskedGroups (padHex g0) (padHex g7)) ":"
       /\ maskIPAddress (Join [g0; g1; g2; g3; g4; g5; g6; g7] ":") true
          = Join (maskedGroups (padHex g0) (padHex g7)) ":".
Proof.
  intros Hquad Hshape.
  assert (H6 : maskIPv6Address ip = ip).
  { unfold maskIPv6Address. destruct (String.eqb ip ""); [reflexivity|].
    destruct (String.eqb_spec (expandIPv6 ip) "") as [|Hne];
      [reflexivity|].
    exfalso. apply Hshape, expandIPv6_ipv6Shape, Hne. }
  assert (H4 : match Split ip "." with
               | [p0; p1; _; _] => p0 ++ "." ++ p1 ++ ".*.*"
               | _ => ip
               end = ip).
  { unfold isDottedQuad in Hquad.
    destruct (Split ip ".") as [|? [|? [|? [|? [|? ?]]]]];
      try reflexivity; discriminate Hquad. }
  assert (Hip : maskIP ip true = ip /\ maskIPAddress ip true = ip).
  { unfold maskIP, maskIPAddress. cbn [negb orb].
    destruct (String.eqb ip ""); [split; reflexivity|].
    destruct (Contains ip ":"); split; assumption. }
  destruct Hip as [Hip1 Hip2].
  split; [exact Hip1|]. split; [exact Hip2|].
  split; [reflexivity|]. split; [reflexivity|].
  exact maskIP_eight_groups.
Qed.

Lemma C10_malformed_addresses_are_not_masked_witness :
  isDottedQuad "2001:db8:1" = false
  /\ ~ ipv6Shape "2001:db8:1"
  /\ maskIP "2001:db8:1" true = "2001:db8:1".
Proof.
  assert (H1 : isDottedQuad "2001:db8:1" = false) by reflexivity.
  assert (H2 : ~ ipv6Shape "2001:db8:1").
  { intros H. destruct (ipv6Shape_inv _ H) as [E|E];
      vm_compute in E; discriminate E. }
  split; [exact H1|]. split; [exact H2|].
  exact (proj1 (C10_malformed_addresses_are_not_masked "2001:db8:1" H1 H2)).
Defined.

End MalformedAddresses.

(** ** The agent manager: transitions, sweeps and counters *)

Section ManagerFacts.
Import pb agent.

Lemma int32_id (x : Z) : isInt32 x -> int32 x = x.
Proof.
  unfold isInt32, int32, wrap. intros H.
  change (2 ^ (32 - 1))%Z with 2147483648%Z.
  change (2 ^ 32)%Z with 4294967296%Z.
  rewrite Z.mod_small by lia. lia.
Qed.

Lemma int64_id (x : Z) : isInt64 x -> int64 x = x.
Proof.
  unfold isInt64, int64, wrap. intros H.
  change (2 ^ (64 - 1))%Z with 9223372036854775808%Z.
  change (2 ^ 64)%Z with 18446744073709551616%Z.
  rewrite Z.mod_small by lia. lia.
Qed.

(** X5. Marking an agent offline is idempotent, and the status-change
    callbacks run once when the agent was online and not at all otherwise;
    afterwards the agent is not online and the other agents are as they
    were. *)
Theorem MarkAgentOffline_idempotent (m : Manager) (agentID : string) :
  let m' := MarkAgentOffline m agentID in
  MarkAgentOffline m' agentID = m'
  /\ statusChanges m'
     = (statusChanges m
        + if bool_decide (Status <$> agents m !! agentID
                          = Some AGENT_STATUS_ONLINE)
          then 1 else 0)%nat
  /\ Status <$> agents m' !! agentID <> Some AGENT_STATUS_ONLINE
  /\ forall other, other <> agentID ->
       agents m' !! other = agents m !! other.
Proof.
  unfold MarkAgentOffline.
  destruct (agents m !! agentID) as [a|] eqn:Ea;
    cbn [fmap option_fmap option_map].
  - destruct (bool_decide_reflect (Status a = AGENT_STATUS_ONLINE))
      as [Hon|Hoff].
    + rewrite (bool_decide_eq_true_2 (Some (Status a)
                                      = Some AGENT_STATUS_ONLINE))
        by congruence.
      cbn. rewrite lookup_insert_eq. cbn.
      repeat split; [lia | discriminate |].
      intros other Hne. apply lookup_insert_ne. congruence.
    + rewrite (bool_decide_eq_false_2 (Some (Status a)
                                       = Some AGENT_STATUS_ONLINE))
        by congruence.
      rewrite Ea.
      rewrite (bool_decide_eq_false_2 (Status a = AGENT_STATUS_ONLINE))
        by exact Hoff.
      cbn. repeat split; [lia | congruence].
  - rewrite Ea. cbn. rewrite bool_decide_eq_false_2 by discriminate.
    repeat split; [lia | discriminate].
Qed.

(** X6. The offline check marks offline exactly the online agents whose
    last heartbeat is older than the timeout (an agent exactly at the
    timeout stays online), leaves every other agent as it is, adds and
    removes no agent, runs no status-change callback, and doing it again at
    the same instant changes nothing. *)
Theorem checkOfflineAgents_sweep (m : Manager) (now : Z) :
  let m' := checkOfflineAgents m now in
  statusChanges m' = statusChanges m
  /\ (forall id, agents m !! id = None -> agents m' !! id = None)
  /\ (forall id a, agents m !! id = Some a ->
        (Status a = AGENT_STATUS_ONLINE
         /\ (heartbeatTimeout m < now - LastHeartbeat a)%Z ->
         agents m' !! id = Some (setStatus a AGENT_STATUS_OFFLINE))
        /\ (Status a <> AGENT_STATUS_ONLINE
            \/ (now - LastHeartbeat a <= heartbeatTimeout m)%Z ->
            agents m' !! id = Some a))
  /\ checkOfflineAgents m' now = m'.
Proof.
  cbn zeta. unfold checkOfflineAgents. cbn [statusChanges agents setAgents
                                           heartbeatTimeout].
  split; [reflexivity|]. split.
  { intros id H. rewrite lookup_fmap, H. reflexivity. }
  split.
  { intros id a H. rewrite lookup_fmap, H. cbn. split.
    - intros [Hon Hexp]. rewrite bool_decide_eq_true_2 by exact Hon.
      destruct (Z.ltb_spec (heartbeatTimeout m) (now - LastHeartbeat a));
        [reflexivity | lia].
    - intros [Hoff|Hin].
      + rewrite bool_decide_eq_false_2 by exact Hoff. reflexivity.
      + destruct (Z.ltb_spec (heartbeatTimeout m) (now - LastHeartbeat a));
          [lia|]. rewrite andb_false_r. reflexivity. }
  unfold setAgents. cbn. f_equal.
  apply map_eq. intros id. rewrite !lookup_fmap.
  destruct (agents m !! id) as [a|]; [|reflexivity]. cbn. f_equal.
  destruct (bool_decide_reflect (Status a = AGENT_STATUS_ONLINE)) as [Hon|Hoff];
    cbn [andb].
  - destruct (heartbeatTimeout m <? now - LastHeartbeat a)%Z eqn:E.
    + cbn. reflexivity.
    + rewrite bool_decide_eq_true_2 by exact Hon. cbn [andb]. rewrite E.
      reflexivity.
  - rewrite bool_decide_eq_false_2 by exact Hoff. reflexivity.
Qed.

Lemma setCurrentTasks_back (a : Agent) (n : Z) :
  setCurrentTasks (setCurrentTasks a n) (CurrentTasks a) = a.
Proof. destruct a; reflexivity. Qed.

Lemma setAgents_back (m : Manager) (ags : gmap string Agent) :
  setAgents (setAgents m ags) (agents m) = m.
Proof. destruct m; reflexivity. Qed.

(** X7. The task counter of an agent: for a count in [0, 2^31 - 2] an
    increment followed by a decrement gives the manager back as it was; a
    decrement at a count of zero or less changes nothing, so the count
    never goes below zero through it; for an unknown agent the increment
    fails and the decrement changes nothing. *)
Theorem task_count_round_trip (m : Manager) (agentID : string) :
  (forall a, agents m !! agentID = Some a ->
     ((0 <= CurrentTasks a < 2147483647)%Z ->
      exists m1,
        IncrementTaskCount m agentID = Some m1
        /\ CurrentTasks <$> agents m1 !! agentID = Some (CurrentTasks a + 1)%Z
        /\ DecrementTaskCount m1 agentID = m)
     /\ ((CurrentTasks a <= 0)%Z -> DecrementTaskCount m agentID = m)
     /\ ((0 < CurrentTasks a)%Z -> isInt32 (CurrentTasks a) ->
         CurrentTasks <$> agents (DecrementTaskCount m agentID) !! agentID
         = Some (CurrentTasks a - 1)%Z))
  /\ (agents m !! agentID = None ->
      IncrementTaskCount m agentID = None
      /\ DecrementTaskCount m agentID = m).
Proof.
  split.
  - intros a Ha. split; [|split].
    + intros Hr. unfold IncrementTaskCount. rewrite Ha.
      eexists. split; [reflexivity|].
      rewrite int32_id by (unfold isInt32; lia).
      cbn. rewrite lookup_insert_eq. split; [reflexivity|].
      unfold DecrementTaskCount. cbn. rewrite lookup_insert_eq. cbn.
      destruct (Z.ltb_spec 0 (CurrentTasks a + 1)); [|lia].
      replace (CurrentTasks a + 1 - 1)%Z with (CurrentTasks a) by lia.
      rewrite int32_id by (unfold isInt32; lia).
      rewrite setCurrentTasks_back, insert_insert_eq.
      rewrite (insert_id _ _ _ Ha). apply setAgents_back.
    + intros Hz. unfold DecrementTaskCount. rewrite Ha.
      destruct (Z.ltb_spec 0 (CurrentTasks a)); [lia | reflexivity].
    + intros Hp Hi. unfold DecrementTaskCount. rewrite Ha.
      destruct (Z.ltb_spec 0 (CurrentTasks a)); [|lia].
      cbn. rewrite lookup_insert_eq. cbn.
      rewrite int32_id by (unfold isInt32 in *; lia). reflexivity.
  - intros Hn. unfold IncrementTaskCount, DecrementTaskCount. rewrite Hn.
    split; reflexivity.
Qed.

Lemma task_count_round_trip_witness :
  exists a,
    agents Scenario.offlineManager !! "P1" = Some a
    /\ (0 <= CurrentTasks a < 2147483647)%Z
    /\ exists m1,
         IncrementTaskCount Scenario.offlineManager "P1" = Some m1
         /\ CurrentTasks <$> agents m1 !! "P1" = Some (CurrentTasks a + 1)%Z
         /\ DecrementTaskCount m1 "P1" = Scenario.offlineManager.
Proof.
  assert (Ha : exists a, agents Scenario.offlineManager !! "P1" = Some a
                         /\ CurrentTasks a = 0%Z)
    by (eexists; split; [vm_compute; reflexivity | reflexivity]).
  destruct Ha as (a & Ha & Hc). exists a. split; [exact Ha|].
  assert (Hr : (0 <= CurrentTasks a < 2147483647)%Z) by (rewrite Hc; lia).
  split; [exact Hr|].
  exact (proj1 (proj1 (task_count_round_trip Scenario.offlineManager "P1")
                  a Ha) Hr).
Defined.

(** X8. Registration over a stream: the agent becomes online in stream
    mode with the new info, and keeps the task count it had (a new agent
    starts at zero).  Registering again an agent that is online runs no
    status-change callback; an agent that went offline in between costs one
    callback for going offline and one for coming back. *)
Theorem RegisterAgentFromStream_again (m : Manager) (info info' : AgentInfo)
    (now now' : Z) :
  Id info' = Id info ->
  let m1 := RegisterAgentFromStream m info now in
  let m2 := RegisterAgentFromStream m1 info' now' in
  let m3 := RegisterAgentFromStream (MarkAgentOffline m1 (Id info))
              info' now' in
  agents m1 !! Id info
  = Some {| Info := info; Status := AGENT_STATUS_ONLINE;
            LastHeartbeat := now;
            CurrentTasks :=
              default 0%Z (CurrentTasks <$> agents m !! Id info);
            HasGRPCConn := false; UseStream := true |}
  /\ agents m2 !! Id info
     = Some {| Info := info'; Status := AGENT_STATUS_ONLINE;
               LastHeartbeat := now';
               CurrentTasks :=
                 default 0%Z (CurrentTasks <$> agents m !! Id info);
               HasGRPCConn := false; UseStream := true |}
  /\ statusChanges m2 = statusChanges m1
  /\ agents m3 !! Id info = agents m2 !! Id info
  /\ statusChanges m3 = (statusChanges m1 + 2)%nat.
Proof.
  intros Hid.
  assert (H1 : agents (RegisterAgentFromStream m info now) !! Id info
    = Some {| Info := info; Status := AGENT_STATUS_ONLINE;
              LastHeartbeat := now;
              CurrentTasks :=
                default 0%Z (CurrentTasks <$> agents m !! Id info);
              HasGRPCConn := false; UseStream := true |}).
  { unfold RegisterAgentFromStream.
    destruct (agents m !! Id info) as [a|]; cbn.
    - destruct (bool_decide (Status a = AGENT_STATUS_OFFLINE)); cbn;
        apply lookup_insert_eq.
    - apply lookup_insert_eq. }
  cbn zeta. split; [exact H1|].
  set (m1 := RegisterAgentFromStream m info now) in *.
  set (a1 := {| Info := info; Status := AGENT_STATUS_ONLINE;
                LastHeartbeat := now;
                CurrentTasks :=
                  default 0%Z (CurrentTasks <$> agents m !! Id info);
                HasGRPCConn := false; UseStream := true |}) in *.
  assert (Hoff : MarkAgentOffline m1 (Id info)
                 = notifyStatusChange
                     (setAgents m1
                        (<[Id info := setStatus a1 AGENT_STATUS_OFFLINE]>
                           (agents m1)))).
  { unfold MarkAgentOffline. rewrite H1.
    rewrite bool_decide_eq_true_2 by reflexivity. reflexivity. }
  assert (Hreg : forall mm a,
    agents mm !! Id info = Some a ->
    RegisterAgentFromStream mm info' now'
    = (if bool_decide (Status a = AGENT_STATUS_OFFLINE)
       then notifyStatusChange else fun x => x)
        (setAgents mm
           (<[Id info := {| Info := info'; Status := AGENT_STATUS_ONLINE;
                            LastHeartbeat := now';
                            CurrentTasks := CurrentTasks a;
                            HasGRPCConn := false; UseStream := true |}]>
              (agents mm)))).
  { intros mm a Ha. unfold RegisterAgentFromStream. rewrite Hid, Ha.
    destruct (bool_decide (Status a = AGENT_STATUS_OFFLINE)); reflexivity. }
  rewrite (Hreg m1 a1 H1).
  rewrite (Hreg (MarkAgentOffline m1 (Id info))
             (setStatus a1 AGENT_STATUS_OFFLINE))
    by (rewrite Hoff; cbn; apply lookup_insert_eq).
  rewrite Hoff.
  rewrite (bool_decide_eq_false_2 (Status a1 = AGENT_STATUS_OFFLINE))
    by discriminate.
  rewrite (bool_decide_eq_true_2
             (Status (setStatus a1 AGENT_STATUS_OFFLINE)
              = AGENT_STATUS_OFFLINE)) by reflexivity.
  cbn. rewrite !lookup_insert_eq.
  repeat split; lia.
Qed.

Lemma RegisterAgentFromStream_again_witness :
  Id Scenario.P1 = Id Scenario.P1
  /\ statusChanges
       (RegisterAgentFromStream
          (RegisterAgentFromStream (NewManager 90) Scenario.P1 0)
          Scenario.P1 5)
     = statusChanges (RegisterAgentFromStream (NewManager 90) Scenario.P1 0).
Proof.
  split; [reflexivity|].
  exact (proj1 (proj2 (proj2
    (RegisterAgentFromStream_again (NewManager 90) Scenario.P1 Scenario.P1
       0 5 eq_refl)))).
Defined.

End ManagerFacts.

(** ** The scheduler: admission *)

Section Admission.
Import pb task.

(** X9. [SubmitTask] admits a task exactly when the global counter is below
    the global limit and the target agent is known, online and below its
    own limit.  A refusal names the first of these tests that fails, in
    this order, and leaves the whole master as it was: no record, no
    handler, no goroutine, no counter changed. *)
Theorem SubmitTask_admission (w : World) (t : pb.Task) (clientID : string)
    (h : Handler) (now : Z) :
  let r := SubmitTask w t clientID h now in
  let s := scheduler w in
  (r.2 = None <->
     (currentTasks s < globalMaxTasks s)%Z
     /\ exists a, agent.agents (manager w) !! AgentId t = Some a
          /\ agent.Status a = AGENT_STATUS_ONLINE
          /\ (agent.CurrentTasks a < MaxConcurrent (agent.Info a))%Z)
  /\ (forall e, r.2 = Some e ->
        r.1 = w
        /\ ((globalMaxTasks s <= currentTasks s)%Z
            /\ e = ErrSystemBusy (currentTasks s) (globalMaxTasks s)
            \/ (currentTasks s < globalMaxTasks s)%Z
               /\ (agent.agents (manager w) !! AgentId t = None
                   /\ e = ErrAgentNotFound (AgentId t)
                   \/ exists a,
                        agent.agents (manager w) !! AgentId t = Some a
                        /\ (agent.Status a <> AGENT_STATUS_ONLINE
                            /\ e = ErrAgentOffline (AgentId t)
                            \/ agent.Status a = AGENT_STATUS_ONLINE
                               /\ (MaxConcurrent (agent.Info a)
                                   <= agent.CurrentTasks a)%Z
                               /\ e = ErrAgentBusy (agent.CurrentTasks a)
                                        (MaxConcurrent (agent.Info a)))))).
Proof.
  cbn zeta. unfold SubmitTask, agent.GetAgent, agent.IncrementTaskCount.
  destruct (Z.leb_spec (globalMaxTasks (scheduler w))
              (currentTasks (scheduler w))) as [Hg|Hg].
  { split.
    - split; [discriminate|]. intros [Hlt _]. lia.
    - intros e [= <-]. split; [reflexivity|]. left. auto. }
  destruct (agent.agents (manager w) !! AgentId t) as [a|] eqn:Ea.
  2:{ split.
      - split; [discriminate|]. intros (_ & a & Ha & _). discriminate Ha.
      - intros e [= <-]. split; [reflexivity|]. right. split; [lia|].
        left. auto. }
  destruct (bool_decide_reflect (agent.Status a = AGENT_STATUS_ONLINE))
    as [Hon|Hoff]; cbn [negb].
  2:{ split.
      - split; [discriminate|]. intros (_ & a' & [= <-] & Hon & _).
        contradiction.
      - intros e [= <-]. split; [reflexivity|]. right. split; [lia|].
        right. exists a. split; [reflexivity|]. left. auto. }
  destruct (Z.leb_spec (MaxConcurrent (agent.Info a)) (agent.CurrentTasks a))
    as [Hb|Hb].
  { split.
    - split; [discriminate|]. intros (_ & a' & [= <-] & _ & Hlt). lia.
    - intros e [= <-]. split; [reflexivity|]. right. split; [lia|].
      right. exists a. split; [reflexivity|]. right. auto. }
  cbn. split.
  - split; [intros _|reflexivity]. split; [lia|]. exists a. auto.
  - intros e He. discriminate He.
Qed.

(** What an admission tells about the state it was granted in. *)
Lemma SubmitTask_None_inv (w : World) (t : pb.Task) (clientID : string)
    (h : Handler) (now : Z) :
  (SubmitTask w t clientID h now).2 = None ->
  (currentTasks (scheduler w) < globalMaxTasks (scheduler w))%Z
  /\ exists a, agent.agents (manager w) !! AgentId t = Some a
       /\ agent.Status a = AGENT_STATUS_ONLINE
       /\ (agent.CurrentTasks a < MaxConcurrent (agent.Info a))%Z.
Proof.
  unfold SubmitTask, agent.GetAgent, agent.IncrementTaskCount.
  destruct (Z.leb_spec (globalMaxTasks (scheduler w))
              (currentTasks (scheduler w))) as [Hg|Hg]; [discriminate|].
  destruct (agent.agents (manager w) !! AgentId t) as [a|] eqn:Ea;
    [|discriminate].
  destruct (bool_decide_reflect (agent.Status a = AGENT_STATUS_ONLINE))
    as [Hon|Hoff]; cbn [negb]; [|discriminate].
  destruct (Z.leb_spec (MaxConcurrent (agent.Info a)) (agent.CurrentTasks a))
    as [Hb|Hb]; [discriminate|].
  intros _. split; [exact Hg|]. exists a. auto.
Qed.



End Admission.

(** ** The scheduler: dispatch, cancellation and routing *)

Section Dispatch.
Import pb task.

Lemma Increment_then_Decrement (m : agent.Manager) (agentID : string)
    (a : agent.Agent) :
  agent.agents m !! agentID = Some a ->
  (0 <= agent.CurrentTasks a < 2147483647)%Z ->
  agent.DecrementTaskCount
    (agent.setAgents m
       (<[agentID := agent.setCurrentTasks a
                       (int32 (agent.CurrentTasks a + 1))]>
          (agent.agents m))) agentID = m.
Proof.
  intros Ha Hr. unfold agent.DecrementTaskCount. cbn.
  rewrite lookup_insert_eq. cbn.
  rewrite (int32_id (agent.CurrentTasks a + 1)) by (unfold isInt32; lia).
  destruct (Z.ltb_spec 0 (agent.CurrentTasks a + 1)); [|lia].
  replace (agent.CurrentTasks a + 1 - 1)%Z with (agent.CurrentTasks a) by lia.
  rewrite int32_id by (unfold isInt32; lia).
  rewrite setCurrentTasks_back, insert_insert_eq.
  rewrite (insert_id _ _ _ Ha). apply setAgents_back.
Qed.

(** X11. When an admitted task cannot be sent to its agent (no stream is
    registered for the agent, or the send fails), the goroutine of the
    task tells the handler once, with a failed frame carrying the error,
    removes the handler, marks the record failed and takes back both
    increments: the global counter, the manager and the registry are as
    they were before the submission. *)
Theorem dispatch_failure_unwinds (w : World) (t : pb.Task)
    (clientID h : string) (now : Z) (a : agent.Agent) (env : Env)
    (e : string) :
  (SubmitTask w t clientID (Some h) now).2 = None ->
  agent.agents (manager w) !! AgentId t = Some a ->
  agent.UseStream a = true ->
  streamSender (scheduler w) = true ->
  (StreamSender.SendTaskToAgent (registry w) (AgentId t) t (sendErr env)).2
  = Some e ->
  isInt64 (currentTasks (scheduler w)) ->
  isInt64 (globalMaxTasks (scheduler w)) ->
  (0 <= agent.CurrentTasks a)%Z ->
  isInt32 (MaxConcurrent (agent.Info a)) ->
  let w1 := (SubmitTask w t clientID (Some h) now).1 in
  let w2 := executeTask w1 t env in
  handlerCalls w2
  = (handlerCalls w
     ++ [(h, {| OutTaskId := TaskId t; OutputLine := "";
                Timestamp := Some (task.now env);
                pb.Status := TASK_STATUS_FAILED; ErrorMessage := e |})])%list
  /\ currentTasks (scheduler w2) = currentTasks (scheduler w)
  /\ manager w2 = manager w
  /\ registry w2 = registry w
  /\ outputHandlers (scheduler w2) !! TaskId t = None
  /\ Status <$> tasks (scheduler w2) !! TaskId t = Some TASK_STATUS_FAILED.
Proof.
  intros Hok Ha Hus Hss Hsend Hc Hg Hn Hm.
  destruct (SubmitTask_None_inv w t clientID (Some h) now Hok)
    as (Hlt & a' & Ha' & Hon & Hb).
  rewrite Ha in Ha'. injection Ha' as <-.
  assert (Hr : (0 <= agent.CurrentTasks a < 2147483647)%Z)
    by (unfold isInt32 in Hm; lia).
  pose proof (Increment_then_Decrement (manager w) (AgentId t) a Ha Hr)
    as Hback.
  assert (Hreg : StreamSender.SendTaskToAgent (registry w) (AgentId t) t
                   (sendErr env) = (registry w, Some e)).
  { revert Hsend. unfold StreamSender.SendTaskToAgent, agent.SendToAgent.
    destruct (bool_decide (AgentId t ∈ agent.agentStreams (registry w)));
      [destruct (sendErr env)|]; cbn; congruence. }
  cbn zeta. unfold SubmitTask, agent.GetAgent, agent.IncrementTaskCount.
  destruct (Z.leb_spec (globalMaxTasks (scheduler w))
              (currentTasks (scheduler w))); [lia|].
  rewrite Ha. rewrite (bool_decide_eq_true_2 _ Hon). cbn [negb].
  destruct (Z.leb_spec (MaxConcurrent (agent.Info a)) (agent.CurrentTasks a));
    [lia|].
  cbn [fst snd].
  unfold executeTask, updateTaskStatus, agent.GetAgent.
  repeat first [rewrite lookup_insert_eq | progress cbn].
  rewrite Hus, Hss. cbn. rewrite Hreg.
  unfold handleTaskError, forwardOutput, completeTask.
  repeat first [rewrite lookup_insert_eq | rewrite lookup_delete_eq
               | rewrite bool_decide_eq_false_2 by discriminate
               | progress cbn].
  rewrite Hback.
  rewrite (int64_id (currentTasks (scheduler w) + 1))
    by (unfold isInt64 in *; lia).
  replace (currentTasks (scheduler w) + 1 - 1)%Z
    with (currentTasks (scheduler w)) by lia.
  rewrite (int64_id _ Hc).
  repeat split;
    repeat first [rewrite lookup_insert_eq | rewrite lookup_delete_eq
                 | progress cbn];
    reflexivity.
Qed.

Lemma dispatch_failure_unwinds_witness :
  let env := {| now := 2; sendErr := Some "broken pipe"; grpcErr := None;
                recvs := [] |} in
  let w1 := (SubmitTask Scenario.ready Scenario.T1 "c1" (Some "c1") 1).1 in
  (SubmitTask Scenario.ready Scenario.T1 "c1" (Some "c1") 1).2 = None
  /\ streamSender (scheduler Scenario.ready) = true
  /\ manager (executeTask w1 Scenario.T1 env) = manager Scenario.ready.
Proof.
  cbn zeta.
  assert (Ha : exists a,
             agent.agents (manager Scenario.ready) !! AgentId Scenario.T1
             = Some a
             /\ agent.UseStream a = true
             /\ agent.CurrentTasks a = 0%Z
             /\ MaxConcurrent (agent.Info a) = 5%Z)
    by (eexists; split; [vm_compute; reflexivity | repeat split]).
  destruct Ha as (a & Ha & Hu & Hc & Hm).
  assert (H1 : (SubmitTask Scenario.ready Scenario.T1 "c1" (Some "c1") 1).2
               = None) by (vm_compute; reflexivity).
  assert (H2 : streamSender (scheduler Scenario.ready) = true)
    by (vm_compute; reflexivity).
  assert (H3 : (StreamSender.SendTaskToAgent (registry Scenario.ready)
                  (AgentId Scenario.T1) Scenario.T1 (Some "broken pipe")).2
               = Some "broken pipe")
    by (vm_compute; reflexivity).
  assert (H4 : isInt64 (currentTasks (scheduler Scenario.ready)))
    by (vm_compute; split; discriminate).
  assert (H5 : isInt64 (globalMaxTasks (scheduler Scenario.ready)))
    by (vm_compute; split; discriminate).
  assert (H6 : (0 <= agent.CurrentTasks a)%Z) by (rewrite Hc; lia).
  assert (H7 : isInt32 (MaxConcurrent (agent.Info a)))
    by (rewrite Hm; vm_compute; split; discriminate).
  split; [exact H1|]. split; [exact H2|].
  exact (proj1 (proj2 (proj2
    (dispatch_failure_unwinds Scenario.ready Scenario.T1 "c1" "c1" 1 a
       {| now := 2; sendErr := Some "broken pipe"; grpcErr := None;
          recvs := [] |} _ H1 Ha Hu H2 H3 H4 H5 H6 H7)))).
Defined.

End Dispatch.

(** ** The scheduler: records and handlers in the reachable states *)

Section Records.
Import pb task master.

Lemma keeps_refl (w : World) : keeps w w.
Proof. split; [intros id H; exact H | trivial]. Qed.

Lemma keeps_trans (w1 w2 w3 : World) :
  keeps w1 w2 -> keeps w2 w3 -> keeps w1 w3.
Proof.
  intros [K1 H1] [K2 H2]. split; [|tauto].
  intros id H. apply K2, K1, H.
Qed.

Lemma keeps_frame (w w' : World) : scheduler w' = scheduler w -> keeps w w'.
Proof.
  intros E. unfold keeps, recordsKept, handlersHaveRecords. rewrite E.
  split; trivial.
Qed.

Lemma completeTask_maps (w : World) (taskID : string) (status : TaskStatus)
    (ti : TaskInfo) :
  tasks (scheduler w) !! taskID = Some ti ->
  tasks (scheduler (completeTask w taskID status))
  = <[taskID := setStatus ti status]> (tasks (scheduler w))
  /\ outputHandlers (scheduler (completeTask w taskID status))
     = delete taskID (outputHandlers (scheduler w)).
Proof.
  intros Ht. unfold completeTask. rewrite Ht. cbn.
  destruct (outputHandlers (scheduler w) !! taskID) as [[h|]|];
    try destruct (bool_decide (status = TASK_STATUS_COMPLETED)
                  || bool_decide (status = TASK_STATUS_CANCELLED));
    split; reflexivity.
Qed.

Lemma keeps_insert_existing (w w' : World) (id : string) (ti ti' : TaskInfo) :
  tasks (scheduler w) !! id = Some ti ->
  tasks (scheduler w') = <[id := ti']> (tasks (scheduler w)) ->
  (forall k, is_Some (outputHandlers (scheduler w') !! k) ->
             is_Some (outputHandlers (scheduler w) !! k)) ->
  keeps w w'.
Proof.
  intros Ht Et Hh.
  assert (K : recordsKept w w').
  { intros k Hk. rewrite Et. destruct (decide (id = k)) as [->|Hne].
    - rewrite lookup_insert_eq. eauto.
    - rewrite lookup_insert_ne by exact Hne. exact Hk. }
  split; [exact K|]. intros Hw k Hk. apply K, Hw, Hh, Hk.
Qed.

Lemma keeps_completeTask (w : World) (taskID : string) (st : TaskStatus) :
  keeps w (completeTask w taskID st).
Proof.
  destruct (tasks (scheduler w) !! taskID) as [ti|] eqn:Ht.
  - destruct (completeTask_maps w taskID st ti Ht) as [Et Eh].
    apply (keeps_insert_existing w _ taskID ti _ Ht Et).
    intros k. rewrite Eh. destruct (decide (taskID = k)) as [->|Hne].
    + rewrite lookup_delete_eq. intros [? H]. discriminate H.
    + rewrite lookup_delete_ne by exact Hne. trivial.
  - unfold completeTask. rewrite Ht. apply keeps_refl.
Qed.

Lemma keeps_forwardOutput (w : World) (o : TaskOutput) :
  keeps w (forwardOutput w o).
Proof. apply keeps_frame, forwardOutput_scheduler. Qed.

Lemma keeps_updateTaskStatus (w : World) (taskID : string)
    (st : TaskStatus) :
  keeps w (updateTaskStatus w taskID st).
Proof.
  unfold updateTaskStatus.
  destruct (tasks (scheduler w) !! taskID) as [ti|] eqn:Ht;
    [|apply keeps_refl].
  eapply (keeps_insert_existing w _ taskID ti _ Ht); [reflexivity|].
  intros k Hk. exact Hk.
Qed.

Lemma keeps_handleTaskError (w : World) (taskID err : string) (now : Z) :
  keeps w (handleTaskError w taskID err now).
Proof.
  unfold handleTaskError.
  eapply keeps_trans; [apply keeps_forwardOutput | apply keeps_completeTask].
Qed.

Lemma keeps_HandleTaskOutput (w : World) (o : option TaskOutput) :
  keeps w (HandleTaskOutput w o).
Proof.
  destruct o as [o|]; [|apply keeps_refl]. unfold HandleTaskOutput.
  assert (K : keeps w (if negb (filterOutput (Some o))
                       then forwardOutput w o else w)).
  { destruct (negb (filterOutput (Some o)));
      [apply keeps_forwardOutput | apply keeps_refl]. }
  destruct (pb.Status o); try exact K;
    (eapply keeps_trans; [exact K | apply keeps_completeTask]).
Qed.

Lemma keeps_recvLoop (recvs : list RecvResult) (w : World)
    (taskID : string) (now : Z) :
  keeps w (recvLoop w taskID recvs now).
Proof.
  revert w; induction recvs as [|r recvs IH]; intros w; [apply keeps_refl|].
  destruct r as [o|e]; cbn [recvLoop].
  - assert (K : keeps w (if negb (filterOutput (Some o))
                         then forwardOutput w o else w)).
    { destruct (negb (filterOutput (Some o)));
        [apply keeps_forwardOutput | apply keeps_refl]. }
    destruct (pb.Status o);
      (eapply keeps_trans; [exact K|]);
      first [apply keeps_completeTask | apply IH].
  - destruct (String.eqb e "EOF");
      [apply keeps_completeTask | apply keeps_handleTaskError].
Qed.

Lemma keeps_executeTask (w : World) (t : pb.Task) (env : Env) :
  keeps w (executeTask w t env).
Proof.
  unfold executeTask.
  eapply keeps_trans; [apply keeps_updateTaskStatus|].
  set (w1 := updateTaskStatus w (TaskId t) TASK_STATUS_RUNNING).
  destruct (agent.GetAgent (manager w1) (AgentId t)) as [a|];
    [|apply keeps_handleTaskError].
  destruct (agent.UseStream a).
  - destruct (negb (streamSender (scheduler w1)));
      [apply keeps_handleTaskError|].
    destruct (StreamSender.SendTaskToAgent _ _ _ _) as [r [e|]].
    + eapply keeps_trans; [|apply keeps_handleTaskError].
      apply keeps_frame. reflexivity.
    + apply keeps_frame. reflexivity.
  - destruct (agent.ExecuteTaskOnAgent _ _ _);
      [apply keeps_handleTaskError | apply keeps_recvLoop].
Qed.

Lemma keeps_SubmitTask (w : World) (t : pb.Task) (c : string) (h : Handler)
    (now : Z) :
  keeps w (SubmitTask w t c h now).1.
Proof.
  unfold SubmitTask.
  destruct (globalMaxTasks (scheduler w) <=? currentTasks (scheduler w))%Z;
    [apply keeps_refl|].
  destruct (agent.GetAgent (manager w) (AgentId t)) as [a|];
    [|apply keeps_refl].
  destruct (negb (bool_decide (agent.Status a = AGENT_STATUS_ONLINE)));
    [apply keeps_refl|].
  destruct (MaxConcurrent (agent.Info a) <=? agent.CurrentTasks a)%Z;
    [apply keeps_refl|].
  destruct (agent.IncrementTaskCount (manager w) (AgentId t)) as [m1|].
  - cbn [fst]. split.
    + intros k Hk. cbn. destruct (decide (TaskId t = k)) as [->|Hne].
      * rewrite lookup_insert_eq. eauto.
      * rewrite lookup_insert_ne by exact Hne. exact Hk.
    + intros Hw k. cbn. destruct (decide (TaskId t = k)) as [->|Hne].
      * rewrite !lookup_insert_eq. eauto.
      * rewrite !lookup_insert_ne by exact Hne. apply Hw.
  - cbn [fst]. split; [intros k Hk; exact Hk | intros Hw; exact Hw].
Qed.

Lemma keeps_CancelTask (w : World) (taskID : string) (env : Env) :
  keeps w (CancelTask w taskID env).1.
Proof.
  unfold CancelTask.
  destruct (tasks (scheduler w) !! taskID) as [ti|] eqn:Ht;
    [|apply keeps_refl].
  cbn [fst]. eapply keeps_trans; [|apply keeps_completeTask].
  eapply keeps_trans.
  - eapply (keeps_insert_existing w
             (setScheduler w
                (setTasks (scheduler w)
                   (<[taskID := callCancelFunc ti]> (tasks (scheduler w)))))
             taskID ti _ Ht); [reflexivity|].
    intros k Hk. exact Hk.
  - apply keeps_frame.
    destruct (agent.GetAgent _ _) as [a|]; [|reflexivity].
    destruct (agent.UseStream a && _); reflexivity.
Qed.

Lemma keeps_step (w : World) (op : Op) : keeps w (step w op).
Proof.
  destruct op as
    [c|c|c req now|taskId env|t c h now|taskID env|i env|msg env
    |agentID registered|info now connErr|agentID n now|now]; cbn [step].
  - apply keeps_frame. reflexivity.
  - apply keeps_frame. reflexivity.
  - unfold ws.handleExecute. destruct req as [t|]; [|apply keeps_refl].
    destruct (String.eqb (TaskName t) ""); [apply keeps_refl|].
    pose proof (keeps_SubmitTask w t c (Some c) now) as K.
    destruct (SubmitTask w t c (Some c) now) as [w' [e|]]; exact K.
  - unfold ws.handleCancel. destruct (String.eqb taskId "");
      [apply keeps_refl|].
    pose proof (keeps_CancelTask w taskId env) as K.
    destruct (CancelTask w taskId env) as [w' [e|]]; exact K.
  - apply keeps_SubmitTask.
  - apply keeps_CancelTask.
  - unfold runGoroutine. destruct (goroutines w !! i) as [t|];
      [|apply keeps_refl].
    eapply keeps_trans; [|apply keeps_executeTask].
    apply keeps_frame. reflexivity.
  - destruct msg as [info|hb|o|o|o|].
    + unfold server.handleRegister. destruct info as [info|];
        [apply keeps_frame; reflexivity | apply keeps_refl].
    + unfold server.handleHeartbeat. destruct hb as [[a n]|];
        [|apply keeps_refl].
      destruct (agent.UpdateHeartbeat _ _ _ _);
        [apply keeps_frame; reflexivity | apply keeps_refl].
    + unfold server.handleTaskOutput. destruct o as [o|];
        [apply keeps_HandleTaskOutput | apply keeps_refl].
    + unfold server.handleTaskOutput. destruct o as [o|];
        [apply keeps_HandleTaskOutput | apply keeps_refl].
    + unfold server.handleTaskOutput. destruct o as [o|];
        [apply keeps_HandleTaskOutput | apply keeps_refl].
    + apply keeps_refl.
  - unfold server.streamCleanup.
    destruct (registered && negb (String.eqb agentID ""));
      [apply keeps_frame; reflexivity | apply keeps_refl].
  - destruct (agent.Register _ _ _ _);
      [apply keeps_frame; reflexivity | apply keeps_refl].
  - unfold server.Heartbeat. destruct (agent.UpdateHeartbeat _ _ _ _);
      [apply keeps_frame; reflexivity | apply keeps_refl].
  - apply keeps_frame. reflexivity.
Qed.

Lemma keeps_run (ops : list Op) (w : World) : keeps w (run w ops).
Proof.
  revert w; induction ops as [|op ops IH]; intros w; [apply keeps_refl|].
  eapply keeps_trans; [apply keeps_step | apply IH].
Qed.

(** X12. In every state the master can reach, each registered output
    handler belongs to a task that has a record; and no action of the
    master ever removes a task record: a task id that has a record keeps
    one in every later state. *)
Theorem handlers_have_records_and_records_stay
    (heartbeatTimeout globalMax : Z) (ops later : list Op) :
  let w := run (NewWorld heartbeatTimeout globalMax) ops in
  handlersHaveRecords w /\ recordsKept w (run w later).
Proof.
  cbn zeta. split; [|apply keeps_run].
  apply (keeps_run ops (NewWorld heartbeatTimeout globalMax)).
  intros id. cbn. rewrite lookup_empty. intros [? H]. discriminate H.
Qed.

(** Without a registered handler for its task an output calls no handler
    and registers none. *)
Lemma HandleTaskOutput_no_handler (w : World) (o : TaskOutput) :
  outputHandlers (scheduler w) !! OutTaskId o = None ->
  handlerCalls (HandleTaskOutput w (Some o)) = handlerCalls w
  /\ outputHandlers (scheduler (HandleTaskOutput w (Some o))) !! OutTaskId o
     = None.
Proof.
  intros Hn. unfold HandleTaskOutput.
  assert (Hf : (if negb (filterOutput (Some o)) then forwardOutput w o
                else w) = w).
  { destruct (negb (filterOutput (Some o))); [|reflexivity].
    unfold forwardOutput. unfold Handler in *. rewrite Hn. reflexivity. }
  rewrite Hf.
  assert (Hc : forall st,
    handlerCalls (completeTask w (OutTaskId o) st) = handlerCalls w
    /\ outputHandlers (scheduler (completeTask w (OutTaskId o) st))
         !! OutTaskId o = None).
  { intros st. split.
    - destruct (completeTask_handlerCalls w (OutTaskId o) st)
        as [H|(h & Hh & _)]; [exact H|].
      pose proof (eq_trans (eq_sym Hh) Hn) as Hx. discriminate Hx.
    - destruct (tasks (scheduler w) !! OutTaskId o) as [ti|] eqn:Ht.
      + destruct (completeTask_maps w _ st ti Ht) as [_ ->].
        apply lookup_delete_eq.
      + unfold completeTask. rewrite Ht. exact Hn. }
  destruct (pb.Status o); try (split; [reflexivity | exact Hn]); apply Hc.
Qed.

Lemma silent_refl (id : string) (w : World) : silentFor id w w.
Proof.
  intros H. split; [exact H|]. exists []. rewrite app_nil_r.
  split; [reflexivity | intros h f []].
Qed.

Lemma silent_trans (id : string) (w1 w2 w3 : World) :
  silentFor id w1 w2 -> silentFor id w2 w3 -> silentFor id w1 w3.
Proof.
  intros S1 S2 H1. destruct (S1 H1) as (H2 & n1 & E1 & F1).
  destruct (S2 H2) as (H3 & n2 & E2 & F2). split; [exact H3|].
  exists (n1 ++ n2)%list. rewrite E2, E1, app_assoc.
  split; [reflexivity|]. intros h f Hin.
  apply in_app_or in Hin as [Hin|Hin]; [exact (F1 h f Hin)|exact (F2 h f Hin)].
Qed.

Lemma silent_same (id : string) (w w' : World) :
  outputHandlers (scheduler w') = outputHandlers (scheduler w) ->
  handlerCalls w' = handlerCalls w ->
  silentFor id w w'.
Proof.
  intros Eh Ec H. rewrite Eh, Ec. split; [exact H|]. exists [].
  rewrite app_nil_r. split; [reflexivity | intros h f []].
Qed.

Lemma silent_forwardOutput (id : string) (w : World) (o : TaskOutput) :
  silentFor id w (forwardOutput w o).
Proof.
  intros H. rewrite forwardOutput_scheduler. split; [exact H|].
  unfold forwardOutput.
  destruct (outputHandlers (scheduler w) !! OutTaskId o) as [[h|]|] eqn:Hh;
    try (exists []; rewrite app_nil_r;
         split; [reflexivity | intros ? ? []]).
  exists [(h, o)]. split; [reflexivity|].
  intros h' f [[= <- <-]|[]] E. rewrite E in Hh.
  unfold Handler in *. rewrite H in Hh. discriminate Hh.
Qed.

Lemma completeTask_handlers (w : World) (taskID : string) (st : TaskStatus)
    (id : string) :
  outputHandlers (scheduler w) !! id = None ->
  outputHandlers (scheduler (completeTask w taskID st)) !! id = None.
Proof.
  intros H. destruct (tasks (scheduler w) !! taskID) as [ti|] eqn:Ht.
  - destruct (completeTask_maps w taskID st ti Ht) as [_ ->].
    destruct (decide (taskID = id)) as [->|Hne];
      [apply lookup_delete_eq|].
    rewrite lookup_delete_ne by exact Hne. exact H.
  - unfold completeTask. rewrite Ht. exact H.
Qed.

Lemma silent_completeTask (id : string) (w : World) (taskID : string)
    (st : TaskStatus) :
  silentFor id w (completeTask w taskID st).
Proof.
  intros H. split; [apply completeTask_handlers, H|].
  destruct (completeTask_handlerCalls w taskID st) as [E|(h & Hh & E)].
  - exists []. rewrite app_nil_r. split; [exact E | intros ? ? []].
  - exists [(h, finalFrame taskID st)]. split; [exact E|].
    intros h' f [[= <- <-]|[]] Eid. cbn in Eid. rewrite Eid in Hh.
    unfold Handler in *. rewrite H in Hh. discriminate Hh.
Qed.

Lemma silent_updateTaskStatus (id : string) (w : World) (taskID : string)
    (st : TaskStatus) :
  silentFor id w (updateTaskStatus w taskID st).
Proof.
  unfold updateTaskStatus.
  destruct (tasks (scheduler w) !! taskID) as [ti|];
    [apply silent_same; reflexivity | apply silent_refl].
Qed.

Lemma silent_handleTaskError (id : string) (w : World)
    (taskID err : string) (now : Z) :
  silentFor id w (handleTaskError w taskID err now).
Proof.
  unfold handleTaskError.
  eapply silent_trans;
    [apply silent_forwardOutput | apply silent_completeTask].
Qed.

Lemma silent_HandleTaskOutput (id : string) (w : World)
    (o : option TaskOutput) :
  silentFor id w (HandleTaskOutput w o).
Proof.
  destruct o as [o|]; [|apply silent_refl]. unfold HandleTaskOutput.
  assert (K : silentFor id w (if negb (filterOutput (Some o))
                              then forwardOutput w o else w)).
  { destruct (negb (filterOutput (Some o)));
      [apply silent_forwardOutput | apply silent_refl]. }
  destruct (pb.Status o); try exact K;
    (eapply silent_trans; [exact K | apply silent_completeTask]).
Qed.

Lemma silent_recvLoop (id : string) (recvs : list RecvResult) (w : World)
    (taskID : string) (now : Z) :
  silentFor id w (recvLoop w taskID recvs now).
Proof.
  revert w; induction recvs as [|r recvs IH]; intros w;
    [apply silent_refl|].
  destruct r as [o|e]; cbn [recvLoop].
  - assert (K : silentFor id w (if negb (filterOutput (Some o))
                                then forwardOutput w o else w)).
    { destruct (negb (filterOutput (Some o)));
        [apply silent_forwardOutput | apply silent_refl]. }
    destruct (pb.Status o);
      (eapply silent_trans; [exact K|]);
      first [apply silent_completeTask | apply IH].
  - destruct (String.eqb e "EOF");
      [apply silent_completeTask | apply silent_handleTaskError].
Qed.

Lemma silent_executeTask (id : string) (w : World) (t : pb.Task)
    (env : Env) :
  silentFor id w (executeTask w t env).
Proof.
  unfold executeTask.
  eapply silent_trans; [apply silent_updateTaskStatus|].
  set (w1 := updateTaskStatus w (TaskId t) TASK_STATUS_RUNNING).
  destruct (agent.GetAgent (manager w1) (AgentId t)) as [a|];
    [|apply silent_handleTaskError].
  destruct (agent.UseStream a).
  - destruct (negb (streamSender (scheduler w1)));
      [apply silent_handleTaskError|].
    destruct (StreamSender.SendTaskToAgent _ _ _ _) as [r [e|]].
    + eapply silent_trans; [|apply silent_handleTaskError].
      apply silent_same; reflexivity.
    + apply silent_same; reflexivity.
  - destruct (agent.ExecuteTaskOnAgent _ _ _);
      [apply silent_handleTaskError | apply silent_recvLoop].
Qed.

Lemma silent_SubmitTask (id : string) (w : World) (t : pb.Task)
    (c : string) (h : Handler) (now : Z) :
  TaskId t <> id ->
  silentFor id w (SubmitTask w t c h now).1.
Proof.
  intros Hne. unfold SubmitTask.
  destruct (globalMaxTasks (scheduler w) <=? currentTasks (scheduler w))%Z;
    [apply silent_refl|].
  destruct (agent.GetAgent (manager w) (AgentId t)) as [a|];
    [|apply silent_refl].
  destruct (negb (bool_decide (agent.Status a = AGENT_STATUS_ONLINE)));
    [apply silent_refl|].
  destruct (MaxConcurrent (agent.Info a) <=? agent.CurrentTasks a)%Z;
    [apply silent_refl|].
  destruct (agent.IncrementTaskCount (manager w) (AgentId t)) as [m1|].
  - cbn [fst]. intros H. split.
    + cbn. rewrite lookup_insert_ne by exact Hne. exact H.
    + exists []. rewrite app_nil_r. split; [reflexivity | intros ? ? []].
  - cbn [fst]. apply silent_same; reflexivity.
Qed.

Lemma silent_CancelTask (id : string) (w : World) (taskID : string)
    (env : Env) :
  silentFor id w (CancelTask w taskID env).1.
Proof.
  unfold CancelTask.
  destruct (tasks (scheduler w) !! taskID) as [ti|] eqn:Ht;
    [|apply silent_refl].
  cbn [fst]. eapply silent_trans; [|apply silent_completeTask].
  apply silent_same.
  - destruct (agent.GetAgent _ _) as [a|]; [|reflexivity].
    destruct (agent.UseStream a && _); reflexivity.
  - destruct (agent.GetAgent _ _) as [a|]; [|reflexivity].
    destruct (agent.UseStream a && _); reflexivity.
Qed.

Lemma silent_step (id : string) (w : World) (op : Op) :
  submits id op = false -> silentFor id w (step w op).
Proof.
  intros Hs.
  destruct op as
    [c|c|c req now|taskId env|t c h now|taskID env|i env|msg env
    |agentID registered|info now connErr|agentID n now|now]; cbn [step].
  - apply silent_same; reflexivity.
  - apply silent_same; reflexivity.
  - unfold ws.handleExecute. destruct req as [t|]; [|apply silent_refl].
    destruct (String.eqb (TaskName t) ""); [apply silent_refl|].
    cbn in Hs. apply String.eqb_neq in Hs.
    pose proof (silent_SubmitTask id w t c (Some c) now Hs) as K.
    destruct (SubmitTask w t c (Some c) now) as [w' [e|]]; exact K.
  - unfold ws.handleCancel. destruct (String.eqb taskId "");
      [apply silent_refl|].
    pose proof (silent_CancelTask id w taskId env) as K.
    destruct (CancelTask w taskId env) as [w' [e|]]; exact K.
  - cbn in Hs. apply String.eqb_neq in Hs. apply silent_SubmitTask, Hs.
  - apply silent_CancelTask.
  - unfold runGoroutine. destruct (goroutines w !! i) as [t|];
      [|apply silent_refl].
    eapply silent_trans; [|apply silent_executeTask].
    apply silent_same; reflexivity.
  - destruct msg as [info|hb|o|o|o|].
    + unfold server.handleRegister. destruct info as [info|];
        [apply silent_same; reflexivity | apply silent_refl].
    + unfold server.handleHeartbeat. destruct hb as [[a n]|];
        [|apply silent_refl].
      destruct (agent.UpdateHeartbeat _ _ _ _);
        [apply silent_same; reflexivity | apply silent_refl].
    + unfold server.handleTaskOutput. destruct o as [o|];
        [apply silent_HandleTaskOutput | apply silent_refl].
    + unfold server.handleTaskOutput. destruct o as [o|];
        [apply silent_HandleTaskOutput | apply silent_refl].
    + unfold server.handleTaskOutput. destruct o as [o|];
        [apply silent_HandleTaskOutput | apply silent_refl].
    + apply silent_refl.
  - unfold server.streamCleanup.
    destruct (registered && negb (String.eqb agentID ""));
      [apply silent_same; reflexivity | apply silent_refl].
  - destruct (agent.Register _ _ _ _);
      [apply silent_same; reflexivity | apply silent_refl].
  - unfold server.Heartbeat. destruct (agent.UpdateHeartbeat _ _ _ _);
      [apply silent_same; reflexivity | apply silent_refl].
  - apply silent_same; reflexivity.
Qed.

Lemma silent_run (id : string) (ops : list Op) (w : World) :
  forallb (fun op => negb (submits id op)) ops = true ->
  silentFor id w (run w ops).
Proof.
  revert w; induction ops as [|op ops IH]; intros w H;
    [apply silent_refl|].
  cbn [forallb] in H. apply andb_prop in H as [H1 H2].
  apply negb_true_iff in H1.
  eapply silent_trans; [apply silent_step, H1 | apply IH, H2].
Qed.

(** X13. The first terminal output wins: in every state the master can
    reach, once an output with status completed, failed or cancelled has
    been handled for a task, no handler is registered for that task.  As
    long as no task with the same id is submitted again, whatever else the
    master does, the task gets no handler and no handler is called with a
    frame of that task; and an output for it that arrives then, whatever
    its status, reaches no handler. *)
Theorem first_terminal_output_wins
    (heartbeatTimeout globalMax : Z) (ops later : list Op)
    (o o2 : TaskOutput) :
  isTerminal o = true ->
  OutTaskId o2 = OutTaskId o ->
  forallb (fun op => negb (submits (OutTaskId o) op)) later = true ->
  let w := run (NewWorld heartbeatTimeout globalMax) ops in
  let w1 := HandleTaskOutput w (Some o) in
  let w2 := run w1 later in
  outputHandlers (scheduler w1) !! OutTaskId o = None
  /\ outputHandlers (scheduler w2) !! OutTaskId o = None
  /\ (exists new,
        handlerCalls w2 = (handlerCalls w1 ++ new)%list
        /\ forall h f, In (h, f) new -> OutTaskId f <> OutTaskId o)
  /\ handlerCalls (HandleTaskOutput w2 (Some o2)) = handlerCalls w2.
Proof.
  intros Hterm Hid Hlater. cbn zeta.
  set (w := run (NewWorld heartbeatTimeout globalMax) ops).
  assert (Hinv : handlersHaveRecords w).
  { apply (keeps_run ops (NewWorld heartbeatTimeout globalMax)).
    intros id. cbn. rewrite lookup_empty. intros [? H]. discriminate H. }
  assert (Hgone : outputHandlers (scheduler (HandleTaskOutput w (Some o)))
                    !! OutTaskId o = None).
  { destruct (outputHandlers (scheduler w) !! OutTaskId o) as [h|] eqn:Hh.
    - assert (Hrec : is_Some (tasks (scheduler w) !! OutTaskId o))
        by (apply Hinv; exists h; exact Hh).
      destruct Hrec as [ti Ht].
      unfold HandleTaskOutput.
      set (w0 := if negb (filterOutput (Some o)) then forwardOutput w o
                 else w).
      assert (Hs : scheduler w0 = scheduler w).
      { unfold w0. destruct (negb (filterOutput (Some o)));
          [apply forwardOutput_scheduler | reflexivity]. }
      assert (Hd : forall st,
        outputHandlers (scheduler (completeTask w0 (OutTaskId o) st))
          !! OutTaskId o = None).
      { intros st.
        destruct (completeTask_maps w0 (OutTaskId o) st ti) as [_ ->];
          [rewrite Hs; exact Ht | apply lookup_delete_eq]. }
      unfold isTerminal in Hterm.
      destruct (pb.Status o); try apply Hd; discriminate Hterm.
    - apply HandleTaskOutput_no_handler, Hh. }
  destruct (silent_run (OutTaskId o) later (HandleTaskOutput w (Some o))
              Hlater Hgone) as (Hgone2 & Hnew).
  split; [exact Hgone|]. split; [exact Hgone2|]. split; [exact Hnew|].
  apply HandleTaskOutput_no_handler. rewrite Hid. exact Hgone2.
Qed.

Lemma first_terminal_output_wins_witness :
  isTerminal Scenario.probeCompleted = true
  /\ OutTaskId Scenario.pingLine = OutTaskId Scenario.probeCompleted
  /\ forallb (fun op => negb (submits (OutTaskId Scenario.probeCompleted) op))
       [OpCancel "T1" (quiet 5);
        OpAgentMessage (TYPE_TASK_OUTPUT (Some Scenario.pingLine)) (quiet 6)]
     = true
  /\ handlerCalls
       (HandleTaskOutput
          (run (HandleTaskOutput Scenario.running
                  (Some Scenario.probeCompleted))
             [OpCancel "T1" (quiet 5);
              OpAgentMessage (TYPE_TASK_OUTPUT (Some Scenario.pingLine))
                (quiet 6)])
          (Some Scenario.pingLine))
     = handlerCalls
         (run (HandleTaskOutput Scenario.running
                 (Some Scenario.probeCompleted))
            [OpCancel "T1" (quiet 5);
             OpAgentMessage (TYPE_TASK_OUTPUT (Some Scenario.pingLine))
               (quiet 6)]).
Proof.
  split; [reflexivity|]. split; [reflexivity|]. split; [reflexivity|].
  exact (proj2 (proj2 (proj2 (first_terminal_output_wins 90 50
    [OpAgentMessage (TYPE_REGISTER (Some Scenario.P1)) (quiet 0);
     OpConnect "c1"; OpExecute "c1" (Some Scenario.T1) 1;
     OpExecuteTask 0 (quiet 2)]
    [OpCancel "T1" (quiet 5);
     OpAgentMessage (TYPE_TASK_OUTPUT (Some Scenario.pingLine)) (quiet 6)]
    Scenario.probeCompleted Scenario.pingLine eq_refl eq_refl eq_refl)))).
Defined.

(** X14. Cancelling a task that has a record always succeeds and cleans up
    locally, whether or not the agent can be reached: the cancel function
    is called, the record becomes cancelled, the handler gets the final
    cancelled frame once and is removed, and the global counter is
    decremented.  The outcome of the send changes nothing but the log of
    the stream, to which at most the one cancel request is added. *)
Theorem CancelTask_cleans_up_locally (w : World) (taskID : string)
    (env : Env) (ti : TaskInfo) :
  tasks (scheduler w) !! taskID = Some ti ->
  let r := CancelTask w taskID env in
  r.2 = None
  /\ tasks (scheduler r.1) !! taskID
     = Some (setStatus (callCancelFunc ti) TASK_STATUS_CANCELLED)
  /\ outputHandlers (scheduler r.1) !! taskID = None
  /\ currentTasks (scheduler r.1) = int64 (currentTasks (scheduler w) - 1)
  /\ handlerCalls r.1
     = (handlerCalls w
        ++ match outputHandlers (scheduler w) !! taskID with
           | Some (Some h) => [(h, finalFrame taskID TASK_STATUS_CANCELLED)]
           | _ => []
           end)%list
  /\ (forall env',
        scheduler (CancelTask w taskID env').1 = scheduler r.1
        /\ manager (CancelTask w taskID env').1 = manager r.1
        /\ handlerCalls (CancelTask w taskID env').1 = handlerCalls r.1)
  /\ agent.agentStreams (registry r.1) = agent.agentStreams (registry w)
  /\ (agent.sent (registry r.1) = agent.sent (registry w)
      \/ agent.sent (registry r.1)
         = (agent.sent (registry w)
            ++ [(AgentID ti, TYPE_CANCEL_TASK taskID)])%list).
Proof.
  intros Ht.
  assert (Hform : forall env0, exists r0,
    CancelTask w taskID env0
    = (completeTask
         (setRegistry
            (setScheduler w
               (setTasks (scheduler w)
                  (<[taskID := callCancelFunc ti]> (tasks (scheduler w)))))
            r0) taskID TASK_STATUS_CANCELLED, None)
    /\ agent.agentStreams r0 = agent.agentStreams (registry w)
    /\ (agent.sent r0 = agent.sent (registry w)
        \/ agent.sent r0
           = (agent.sent (registry w)
              ++ [(AgentID ti, TYPE_CANCEL_TASK taskID)])%list)).
  { intros env0. unfold CancelTask. rewrite Ht. cbn [manager setScheduler].
    destruct (agent.GetAgent (manager w) (AgentID ti)) as [a|].
    - cbn [scheduler setScheduler streamSender setTasks].
      destruct (agent.UseStream a && streamSender (scheduler w)).
      + unfold StreamSender.CancelTaskOnAgent, agent.SendToAgent.
        cbn [registry setScheduler].
        destruct (bool_decide (AgentID ti ∈ agent.agentStreams (registry w)));
          [destruct (sendErr env0)|]; cbn [fst];
          eexists; (split; [reflexivity|]); cbn; auto.
      + exists (registry w). split; [reflexivity | auto].
    - exists (registry w). split; [reflexivity | auto]. }
  assert (Hcomp : forall r0,
    let w0 := setRegistry
                (setScheduler w
                   (setTasks (scheduler w)
                      (<[taskID := callCancelFunc ti]>
                         (tasks (scheduler w))))) r0 in
    let w' := completeTask w0 taskID TASK_STATUS_CANCELLED in
    scheduler w'
    = setOutputHandlers
        (setCurrentTasks
           (setTasks (scheduler w)
              (<[taskID := setStatus (callCancelFunc ti)
                             TASK_STATUS_CANCELLED]>
                 (<[taskID := callCancelFunc ti]> (tasks (scheduler w)))))
           (int64 (currentTasks (scheduler w) - 1)))
        (delete taskID (outputHandlers (scheduler w)))
    /\ manager w' = agent.DecrementTaskCount (manager w) (AgentID ti)
    /\ registry w' = r0
    /\ handlerCalls w'
       = (handlerCalls w
          ++ match outputHandlers (scheduler w) !! taskID with
             | Some (Some h) =>
                 [(h, finalFrame taskID TASK_STATUS_CANCELLED)]
             | _ => []
             end)%list).
  { intros r0. cbn zeta. unfold completeTask. cbn.
    rewrite lookup_insert_eq. cbn.
    destruct (outputHandlers (scheduler w) !! taskID) as [[h|]|];
      rewrite ?(bool_decide_eq_true_2
                  (TASK_STATUS_CANCELLED = TASK_STATUS_CANCELLED))
        by reflexivity;
      rewrite ?orb_true_r; cbn; rewrite ?app_nil_r;
      repeat split; reflexivity. }
  cbn zeta. destruct (Hform env) as (r0 & -> & Hstreams & Hsent).
  destruct (Hcomp r0) as (Hs & Hm & Hr & Hc). cbn [fst snd].
  split; [reflexivity|]. rewrite Hs, Hr, Hc. cbn.
  rewrite lookup_insert_eq, lookup_delete_eq.
  repeat (split; [reflexivity|]).
  split; [|split; assumption].
  intros env'. destruct (Hform env') as (r1 & -> & _ & _).
  destruct (Hcomp r1) as (Hs1 & Hm1 & _ & Hc1). cbn [fst].
  rewrite Hs1, Hm1, Hc1, Hm. auto.
Qed.

Lemma CancelTask_cleans_up_locally_witness :
  exists ti,
    tasks (scheduler Scenario.running) !! "T1" = Some ti
    /\ (CancelTask Scenario.running "T1" (quiet 5)).2 = None
    /\ outputHandlers
         (scheduler (CancelTask Scenario.running "T1" (quiet 5)).1) !! "T1"
       = None.
Proof.
  assert (Ht : exists ti, tasks (scheduler Scenario.running) !! "T1" = Some ti)
    by (eexists; vm_compute; reflexivity).
  destruct Ht as (ti & Ht). exists ti. split; [exact Ht|].
  pose proof (CancelTask_cleans_up_locally Scenario.running "T1" (quiet 5)
                ti Ht) as H.
  split; [exact (proj1 H) | exact (proj1 (proj2 (proj2 H)))].
Defined.

End Records.

(** ** The scheduler: routing of outputs *)

Section Routing.
Import pb task.

Lemma completeTask_other (w : World) (taskID : string) (st : TaskStatus)
    (id : string) :
  id <> taskID ->
  tasks (scheduler (completeTask w taskID st)) !! id
  = tasks (scheduler w) !! id
  /\ outputHandlers (scheduler (completeTask w taskID st)) !! id
     = outputHandlers (scheduler w) !! id.
Proof.
  intros Hne. destruct (tasks (scheduler w) !! taskID) as [ti|] eqn:Ht.
  - destruct (completeTask_maps w taskID st ti Ht) as [-> ->].
    rewrite lookup_insert_ne, lookup_delete_ne by congruence. auto.
  - unfold completeTask. rewrite Ht. auto.
Qed.

Lemma completeTask_rest (w : World) (taskID : string) (st : TaskStatus) :
  registry (completeTask w taskID st) = registry w
  /\ goroutines (completeTask w taskID st) = goroutines w
  /\ clients (completeTask w taskID st) = clients w.
Proof.
  unfold completeTask.
  destruct (tasks (scheduler w) !! taskID) as [ti|]; [|auto]. cbn.
  destruct (outputHandlers (scheduler w) !! taskID) as [[h|]|];
    try destruct (bool_decide (st = TASK_STATUS_COMPLETED)
                  || bool_decide (st = TASK_STATUS_CANCELLED));
    auto.
Qed.

(** X15. Outputs are routed by task id alone: handling an output changes
    the record and the handler of no other task, calls no handler but the
    one registered for the task of the output, with frames that carry that
    task id, sends nothing to any agent and starts no goroutine. *)
Theorem HandleTaskOutput_touches_one_task (w : World) (o : TaskOutput) :
  let w' := HandleTaskOutput w (Some o) in
  (forall id, id <> OutTaskId o ->
     tasks (scheduler w') !! id = tasks (scheduler w) !! id
     /\ outputHandlers (scheduler w') !! id
        = outputHandlers (scheduler w) !! id)
  /\ (exists new,
        handlerCalls w' = (handlerCalls w ++ new)%list
        /\ forall h f, In (h, f) new ->
             outputHandlers (scheduler w) !! OutTaskId o = Some (Some h)
             /\ OutTaskId f = OutTaskId o)
  /\ registry w' = registry w
  /\ goroutines w' = goroutines w.
Proof.
  cbn zeta. unfold HandleTaskOutput.
  set (w0 := if negb (filterOutput (Some o)) then forwardOutput w o else w).
  assert (Hs : scheduler w0 = scheduler w).
  { unfold w0. destruct (negb (filterOutput (Some o)));
      [apply forwardOutput_scheduler | reflexivity]. }
  assert (Hr : registry w0 = registry w /\ goroutines w0 = goroutines w).
  { unfold w0, forwardOutput. destruct (negb (filterOutput (Some o)));
      [|auto].
    destruct (outputHandlers (scheduler w) !! OutTaskId o) as [[h|]|]; auto. }
  assert (Hc0 : exists new0,
    handlerCalls w0 = (handlerCalls w ++ new0)%list
    /\ forall h f, In (h, f) new0 ->
         outputHandlers (scheduler w) !! OutTaskId o = Some (Some h)
         /\ OutTaskId f = OutTaskId o).
  { unfold w0, forwardOutput. destruct (negb (filterOutput (Some o))).
    - destruct (outputHandlers (scheduler w) !! OutTaskId o)
        as [[h|]|] eqn:Hh.
      + exists [(h, o)]. split; [reflexivity|].
        intros h' f [[= <- <-]|[]]. auto.
      + exists []. rewrite app_nil_r. split; [reflexivity | intros ? ? []].
      + exists []. rewrite app_nil_r. split; [reflexivity | intros ? ? []].
    - exists []. rewrite app_nil_r. split; [reflexivity | intros ? ? []]. }
  assert (Hdone : forall st,
    (forall id, id <> OutTaskId o ->
       tasks (scheduler (completeTask w0 (OutTaskId o) st)) !! id
       = tasks (scheduler w) !! id
       /\ outputHandlers (scheduler (completeTask w0 (OutTaskId o) st)) !! id
          = outputHandlers (scheduler w) !! id)
    /\ (exists new,
          handlerCalls (completeTask w0 (OutTaskId o) st)
          = (handlerCalls w ++ new)%list
          /\ forall h f, In (h, f) new ->
               outputHandlers (scheduler w) !! OutTaskId o = Some (Some h)
               /\ OutTaskId f = OutTaskId o)
    /\ registry (completeTask w0 (OutTaskId o) st) = registry w
    /\ goroutines (completeTask w0 (OutTaskId o) st) = goroutines w).
  { intros st. split; [|split].
    - intros id Hne.
      destruct (completeTask_other w0 (OutTaskId o) st id Hne) as [-> ->].
      rewrite Hs. auto.
    - destruct Hc0 as (new0 & E0 & H0).
      destruct (completeTask_handlerCalls w0 (OutTaskId o) st)
        as [E|(h & Hh & E)].
      + exists new0. rewrite E. auto.
      + exists (new0 ++ [(h, finalFrame (OutTaskId o) st)])%list.
        rewrite E, E0, app_assoc. split; [reflexivity|].
        intros h' f Hin. apply in_app_or in Hin as [Hin|[[= <- <-]|[]]].
        * apply H0, Hin.
        * rewrite Hs in Hh. auto.
    - destruct (completeTask_rest w0 (OutTaskId o) st) as (-> & -> & _).
      exact Hr. }
  destruct (pb.Status o); try apply Hdone;
    (split; [intros id _; rewrite Hs; auto|]);
    (split; [exact Hc0 | exact Hr]).
Qed.

Lemma not_terminal_forward (w : World) (o : TaskOutput) :
  isTerminal o = false ->
  scheduler (HandleTaskOutput w (Some o)) = scheduler w
  /\ manager (HandleTaskOutput w (Some o)) = manager w
  /\ handlerCalls (HandleTaskOutput w (Some o))
     = (handlerCalls w ++ routed w o)%list.
Proof.
  intros Hnt. unfold HandleTaskOutput, routed.
  assert (Hst : pb.Status o <> TASK_STATUS_COMPLETED
                /\ pb.Status o <> TASK_STATUS_FAILED
                /\ pb.Status o <> TASK_STATUS_CANCELLED).
  { unfold isTerminal in Hnt. repeat split; intros E; rewrite E in Hnt;
      discriminate Hnt. }
  destruct Hst as (H1 & H2 & H3).
  assert (Hf : let w0 := if negb (filterOutput (Some o))
                         then forwardOutput w o else w in
    scheduler w0 = scheduler w /\ manager w0 = manager w
    /\ handlerCalls w0
       = (handlerCalls w
          ++ (if filterOutput (Some o) then []
              else match outputHandlers (scheduler w) !! OutTaskId o with
                   | Some (Some h) => [(h, o)]
                   | _ => []
                   end))%list).
  { cbn zeta. destruct (filterOutput (Some o)); cbn [negb].
    - rewrite app_nil_r. auto.
    - unfold forwardOutput.
      destruct (outputHandlers (scheduler w) !! OutTaskId o) as [[h|]|];
        rewrite ?app_nil_r; auto. }
  destruct (pb.Status o); try congruence; exact Hf.
Qed.

(** X16. Outputs that are not terminal reach the handlers in the order in
    which they are handled: after a list of such outputs the calls made are
    the calls made before, followed, output by output, by the call to the
    handler registered for its task when the line is not filtered; the
    scheduler and the manager are unchanged. *)
Theorem running_outputs_keep_their_order (w : World)
    (outputs : list TaskOutput) :
  Forall (fun o => isTerminal o = false) outputs ->
  scheduler (deliverAll w outputs) = scheduler w
  /\ manager (deliverAll w outputs) = manager w
  /\ handlerCalls (deliverAll w outputs)
     = (handlerCalls w ++ concat (map (routed w) outputs))%list.
Proof.
  intros H. revert w. induction H as [|o rest Ho Hrest IH]; intros w.
  - cbn. rewrite app_nil_r. auto.
  - unfold deliverAll. cbn [fold_left].
    destruct (not_terminal_forward w o Ho) as (Hs & Hm & Hc).
    destruct (IH (HandleTaskOutput w (Some o))) as (Hs' & Hm' & Hc').
    unfold deliverAll in *. rewrite Hs', Hm', Hc', Hs, Hm, Hc.
    split; [reflexivity|]. split; [reflexivity|].
    cbn [map concat]. rewrite <- app_assoc. f_equal. f_equal.
    f_equal. apply map_ext_in. intros o' _. unfold routed. rewrite Hs.
    reflexivity.
Qed.

Lemma running_outputs_keep_their_order_witness :
  Forall (fun o => isTerminal o = false)
    [Scenario.pingLine; Scenario.pingLine]
  /\ handlerCalls
       (deliverAll Scenario.running [Scenario.pingLine; Scenario.pingLine])
     = [("c1", Scenario.pingLine); ("c1", Scenario.pingLine)].
Proof.
  assert (H : Forall (fun o => isTerminal o = false)
                [Scenario.pingLine; Scenario.pingLine])
    by (repeat constructor).
  split; [exact H|].
  rewrite (proj2 (proj2 (running_outputs_keep_their_order Scenario.running
                           _ H))).
  vm_compute. reflexivity.
Defined.

End Routing.

(** ** The agent streams: registration and clean-up *)

Section Streams.
Import pb task.

Lemma RegisterAgentFromStream_online (m : agent.Manager) (info : AgentInfo)
    (now : Z) :
  exists a,
    agent.agents (agent.RegisterAgentFromStream m info now) !! Id info
    = Some a
    /\ agent.Status a = AGENT_STATUS_ONLINE
    /\ agent.UseStream a = true
    /\ agent.Info a = info.
Proof.
  unfold agent.RegisterAgentFromStream.
  destruct (agent.agents m !! Id info) as [old|].
  - destruct (bool_decide (agent.Status old = AGENT_STATUS_OFFLINE)); cbn;
      rewrite lookup_insert_eq; eexists; repeat split.
  - cbn. rewrite lookup_insert_eq. eexists; repeat split.
Qed.

Lemma MarkAgentOffline_online (m : agent.Manager) (agentID : string)
    (a : agent.Agent) :
  agent.agents m !! agentID = Some a ->
  agent.Status a = AGENT_STATUS_ONLINE ->
  agent.agents (agent.MarkAgentOffline m agentID) !! agentID
  = Some (agent.setStatus a AGENT_STATUS_OFFLINE).
Proof.
  intros Ha Hon. unfold agent.MarkAgentOffline. rewrite Ha.
  rewrite bool_decide_eq_true_2 by exact Hon. cbn.
  apply lookup_insert_eq.
Qed.

(** X17. Reconnection and the clean-up of the old stream.  When an agent
    registers on a new stream while its old stream is still open, and the
    old stream then ends, the clean-up of the old stream removes the entry
    of the new stream and marks the agent offline.  A heartbeat on the new
    stream brings the agent back online, but no stream is registered for
    it: every task sent to it fails with [agent ... not connected]. *)
Theorem stale_cleanup_unregisters_the_new_stream (w : World)
    (info : AgentInfo) (env env' : Env) (n : Z) :
  Id info <> "" ->
  let w1 := (server.handleRegister w (Some info) env).1 in
  let w2 := server.streamCleanup w1 (Id info) true in
  let w3 := server.handleHeartbeat w2 (Some (Id info, n)) env' in
  (Id info ∈ agent.agentStreams (registry w1)
   /\ agent.Status <$> agent.agents (manager w1) !! Id info
      = Some AGENT_STATUS_ONLINE)
  /\ ((Id info ∉ agent.agentStreams (registry w2))
      /\ agent.Status <$> agent.agents (manager w2) !! Id info
         = Some AGENT_STATUS_OFFLINE)
  /\ ((Id info ∉ agent.agentStreams (registry w3))
      /\ agent.Status <$> agent.agents (manager w3) !! Id info
         = Some AGENT_STATUS_ONLINE
      /\ forall t sendErr,
           StreamSender.SendTaskToAgent (registry w3) (Id info) t sendErr
           = (registry w3,
              Some ("agent " ++ Id info ++ " not connected"))).
Proof.
  intros Hid. cbn zeta. unfold server.handleRegister. cbn [fst].
  destruct (RegisterAgentFromStream_online (manager w) info (now env))
    as (a & Ha & Hon & _ & _).
  unfold server.streamCleanup.
  destruct (String.eqb_spec (Id info) "") as [E|_]; [contradiction|].
  cbn [negb andb]. cbn [manager registry setManager setRegistry].
  pose proof (MarkAgentOffline_online _ _ a Ha Hon) as Hoff.
  split; [|split].
  - split.
    + unfold agent.RegisterAgentStream. cbn. set_solver.
    + rewrite Ha. cbn. rewrite Hon. reflexivity.
  - split.
    + unfold agent.UnregisterAgentStream. cbn.
      intros [_ Hn]%elem_of_difference. apply Hn, elem_of_singleton.
      reflexivity.
    + rewrite Hoff. reflexivity.
  - unfold server.handleHeartbeat, agent.UpdateHeartbeat.
    cbn [manager registry setManager setRegistry].
    rewrite Hoff. cbn [manager registry setManager setRegistry].
    assert (Hout : Id info
                   ∉ agent.agentStreams
                       (agent.UnregisterAgentStream
                          (agent.RegisterAgentStream (registry w) (Id info))
                          (Id info)))
      by (unfold agent.UnregisterAgentStream; cbn;
          intros [_ Hn]%elem_of_difference; apply Hn, elem_of_singleton;
          reflexivity).
    split; [exact Hout|]. split.
    + cbn. rewrite lookup_insert_eq. reflexivity.
    + intros t se. unfold StreamSender.SendTaskToAgent, agent.SendToAgent.
      rewrite bool_decide_eq_false_2 by exact Hout. reflexivity.
Qed.

Lemma stale_cleanup_unregisters_the_new_stream_witness :
  Id Scenario.P1 <> ""
  /\ "P1" ∉ agent.agentStreams
              (registry
                 (server.streamCleanup
                    (server.handleRegister Scenario.ready
                       (Some Scenario.P1) (master.quiet 5)).1
                    "P1" true)).
Proof.
  assert (H : Id Scenario.P1 <> "") by discriminate.
  split; [exact H|].
  exact (proj1 (proj1 (proj2
    (stale_cleanup_unregisters_the_new_stream Scenario.ready Scenario.P1
       (master.quiet 5) (master.quiet 6) 0 H)))).
Defined.

(** X18. A registration whose reply cannot be written ends the stream with
    an error, but the registration itself is not taken back: whatever the
    agent would have sent next, the stream stays registered and the agent
    stays online in stream mode, and the scheduler is untouched. *)
Theorem failed_registration_reply_is_not_undone (w : World)
    (info : AgentInfo) (env : Env) (e : string)
    (rest : list (AgentMessage * Env)) :
  sendErr env = Some e ->
  let w' :=
    server.AgentStream w ((TYPE_REGISTER (Some info), env) :: rest) in
  w' = (server.handleRegister w (Some info) env).1
  /\ Id info ∈ agent.agentStreams (registry w')
  /\ (exists a, agent.agents (manager w') !! Id info = Some a
        /\ agent.Status a = AGENT_STATUS_ONLINE
        /\ agent.UseStream a = true)
  /\ scheduler w' = scheduler w
  /\ handlerCalls w' = handlerCalls w.
Proof.
  intros He. cbn zeta. unfold server.AgentStream.
  cbn [server.streamLoop]. unfold server.handleRegister. rewrite He.
  cbn [server.streamCleanup andb fst].
  split; [reflexivity|]. split.
  - unfold agent.RegisterAgentStream. cbn. set_solver.
  - split; [|split; reflexivity].
    destruct (RegisterAgentFromStream_online (manager w) info (now env))
      as (a & Ha & Hon & Hus & _).
    exists a. cbn. auto.
Qed.

Lemma failed_registration_reply_is_not_undone_witness :
  sendErr {| now := 0; sendErr := Some "broken pipe"; grpcErr := None;
             recvs := [] |} = Some "broken pipe"
  /\ "P1" ∈ agent.agentStreams
              (registry
                 (server.AgentStream (NewWorld 90 50)
                    [(TYPE_REGISTER (Some Scenario.P1),
                      {| now := 0; sendErr := Some "broken pipe";
                         grpcErr := None; recvs := [] |})])).
Proof.
  split; [reflexivity|].
  exact (proj1 (proj2
    (failed_registration_reply_is_not_undone (NewWorld 90 50) Scenario.P1
       {| now := 0; sendErr := Some "broken pipe"; grpcErr := None;
          recvs := [] |} "broken pipe" [] eq_refl))).
Defined.

End Streams.

(** ** The WebSocket requests *)

Section Requests.
Import pb task.

Lemma SubmitTask_Some_unchanged (w : World) (t : pb.Task)
    (clientID : string) (h : Handler) (now : Z) (e : error) :
  (SubmitTask w t clientID h now).2 = Some e ->
  (SubmitTask w t clientID h now).1 = w.
Proof.
  unfold SubmitTask, agent.GetAgent, agent.IncrementTaskCount.
  destruct (globalMaxTasks (scheduler w) <=? currentTasks (scheduler w))%Z;
    [reflexivity|].
  destruct (agent.agents (manager w) !! AgentId t) as [a|]; [|reflexivity].
  destruct (negb (bool_decide (agent.Status a = AGENT_STATUS_ONLINE)));
    [reflexivity|].
  destruct (MaxConcurrent (agent.Info a) <=? agent.CurrentTasks a)%Z;
    [reflexivity|].
  discriminate.
Qed.

Lemma SubmitTask_None_maps (w : World) (t : pb.Task) (clientID : string)
    (h : Handler) (now : Z) :
  (SubmitTask w t clientID h now).2 = None ->
  tasks (scheduler (SubmitTask w t clientID h now).1) !! TaskId t
  = Some {| Task := t; AgentID := AgentId t; Status := TASK_STATUS_PENDING;
            CreatedAt := now; ClientID := clientID; Cancelled := false |}
  /\ outputHandlers (scheduler (SubmitTask w t clientID h now).1) !! TaskId t
     = Some h
  /\ handlerCalls (SubmitTask w t clientID h now).1 = handlerCalls w.
Proof.
  unfold SubmitTask, agent.GetAgent, agent.IncrementTaskCount.
  destruct (globalMaxTasks (scheduler w) <=? currentTasks (scheduler w))%Z;
    [discriminate|].
  destruct (agent.agents (manager w) !! AgentId t) as [a|]; [|discriminate].
  destruct (negb (bool_decide (agent.Status a = AGENT_STATUS_ONLINE)));
    [discriminate|].
  destruct (MaxConcurrent (agent.Info a) <=? agent.CurrentTasks a)%Z;
    [discriminate|].
  intros _. cbn. rewrite !lookup_insert_eq. auto.
Qed.

Lemma handleExecute_started (w : World) (clientID : string) (t : pb.Task)
    (now : Z) :
  (ws.handleExecute w clientID (Some t) now).2 = ws.TYPE_TASK_STARTED ->
  (ws.handleExecute w clientID (Some t) now).1
  = (SubmitTask w t clientID (Some clientID) now).1
  /\ outputHandlers
       (scheduler (ws.handleExecute w clientID (Some t) now).1) !! TaskId t
     = Some (Some clientID)
  /\ handlerCalls (ws.handleExecute w clientID (Some t) now).1
     = handlerCalls w.
Proof.
  unfold ws.handleExecute.
  destruct (String.eqb (TaskName t) ""); [discriminate|].
  pose proof (SubmitTask_None_maps w t clientID (Some clientID) now)
    as Hnone.
  destruct (SubmitTask w t clientID (Some clientID) now) as [w' [e|]];
    cbn [fst snd] in *; [discriminate|].
  intros _. destruct (Hnone eq_refl) as (_ & Hh & Hc). auto.
Qed.

(** X19. The answer to an execute request is [TYPE_TASK_STARTED] or
    [TYPE_ERROR].  It is [TYPE_TASK_STARTED] exactly when the request
    carries a task with a non-empty task name that the scheduler admits;
    an error answer leaves the whole master as it was.  The handler
    registered for a started task is the session of the requesting client,
    which is also the client of the record. *)
Theorem handleExecute_answer (w : World) (clientID : string)
    (req : option pb.Task) (now : Z) :
  let r := ws.handleExecute w clientID req now in
  (r.2 = ws.TYPE_TASK_STARTED \/ r.2 = ws.TYPE_ERROR)
  /\ (r.2 = ws.TYPE_TASK_STARTED <->
      exists t, req = Some t /\ TaskName t <> ""
        /\ (SubmitTask w t clientID (Some clientID) now).2 = None)
  /\ (r.2 = ws.TYPE_ERROR -> r.1 = w)
  /\ (r.2 = ws.TYPE_TASK_STARTED ->
      forall t, req = Some t ->
        outputHandlers (scheduler r.1) !! TaskId t = Some (Some clientID)
        /\ ClientID <$> tasks (scheduler r.1) !! TaskId t = Some clientID).
Proof.
  cbn zeta. unfold ws.handleExecute.
  destruct req as [t|].
  2:{ cbn. split; [auto|]. split; [|split; [auto | discriminate]].
      split; [discriminate | intros (t & [=] & _)]. }
  destruct (String.eqb_spec (TaskName t) "") as [E|E].
  { cbn. split; [auto|]. split; [|split; [auto | discriminate]].
    split; [discriminate|]. intros (t' & [= <-] & Hne & _). contradiction. }
  pose proof (SubmitTask_Some_unchanged w t clientID (Some clientID) now)
    as Hsome.
  pose proof (SubmitTask_None_maps w t clientID (Some clientID) now)
    as Hnone.
  destruct (SubmitTask w t clientID (Some clientID) now) as [w' [e|]]
    eqn:Es; cbn [fst snd] in *.
  - split; [auto|]. split; [|split; [intros _; exact (Hsome e eq_refl)
                                    | discriminate]].
    split; [discriminate|]. intros (t' & [= <-] & _ & H).
    rewrite Es in H. discriminate H.
  - split; [auto|]. split; [|split; [discriminate|]].
    + split; [|reflexivity]. intros _. exists t. rewrite Es. auto.
    + intros _ t' [= <-]. destruct (Hnone eq_refl) as (Ht & Hh & _).
      split; [exact Hh|]. rewrite Ht. reflexivity.
Qed.

(** X20. The answer to a cancel request is [TYPE_COMPLETE] exactly when the
    task id is not empty and the task has a record, whoever submitted it
    and whatever its status; otherwise it is [TYPE_ERROR] and the whole
    master is as it was. *)
Theorem handleCancel_answer (w : World) (taskId : string) (env : Env) :
  let r := ws.handleCancel w taskId env in
  (r.2 = ws.TYPE_COMPLETE <->
     taskId <> "" /\ is_Some (tasks (scheduler w) !! taskId))
  /\ (r.2 <> ws.TYPE_COMPLETE -> r.2 = ws.TYPE_ERROR /\ r.1 = w)
  /\ (r.2 = ws.TYPE_COMPLETE -> r.1 = (CancelTask w taskId env).1).
Proof.
  cbn zeta. unfold ws.handleCancel.
  destruct (String.eqb_spec taskId "") as [E|E].
  { cbn. split; [|split; [auto | discriminate]].
    split; [discriminate | intros [H _]; contradiction]. }
  unfold CancelTask.
  destruct (tasks (scheduler w) !! taskId) as [ti|] eqn:Ht; cbn [fst snd].
  - split; [|split; [intros H; contradiction H; reflexivity | reflexivity]].
    split; [|reflexivity]. intros _. split; [exact E | eexists; reflexivity].
  - split; [|split; [auto | discriminate]].
    split; [discriminate|]. intros [_ [x Hx]]. discriminate Hx.
Qed.

(** X21. Once an execute request has been answered [TYPE_TASK_STARTED], the
    outputs of that task id that are not terminal and not filtered go to
    the requesting client and to nobody else, also when the task id was in
    use before by a task of another client, whose handler is replaced. *)
Theorem started_task_sends_its_outputs_to_the_requester (w : World)
    (clientID : string) (t : pb.Task) (now : Z) (o : TaskOutput) :
  (ws.handleExecute w clientID (Some t) now).2 = ws.TYPE_TASK_STARTED ->
  OutTaskId o = TaskId t ->
  isTerminal o = false ->
  let w1 := (ws.handleExecute w clientID (Some t) now).1 in
  handlerCalls w1 = handlerCalls w
  /\ handlerCalls (HandleTaskOutput w1 (Some o))
     = (handlerCalls w1
        ++ if filterOutput (Some o) then [] else [(clientID, o)])%list.
Proof.
  intros Hst Hid Hnt. cbn zeta.
  destruct (handleExecute_started w clientID t now Hst) as (Hw & Hh & Hc).
  split; [exact Hc|].
  destruct (not_terminal_forward
              (ws.handleExecute w clientID (Some t) now).1 o Hnt)
    as (_ & _ & ->).
  f_equal. unfold routed. destruct (filterOutput (Some o)); [reflexivity|].
  rewrite Hid. unfold Handler in *. rewrite Hh. reflexivity.
Qed.

Lemma started_task_sends_its_outputs_to_the_requester_witness :
  (ws.handleExecute Scenario.ready "c1" (Some Scenario.T1) 1).2
  = ws.TYPE_TASK_STARTED
  /\ OutTaskId Scenario.pingLine = TaskId Scenario.T1
  /\ isTerminal Scenario.pingLine = false
  /\ handlerCalls
       (HandleTaskOutput
          (ws.handleExecute Scenario.ready "c1" (Some Scenario.T1) 1).1
          (Some Scenario.pingLine))
     = (handlerCalls
          (ws.handleExecute Scenario.ready "c1" (Some Scenario.T1) 1).1
        ++ if filterOutput (Some Scenario.pingLine) then []
           else [("c1", Scenario.pingLine)])%list.
Proof.
  assert (H1 : (ws.handleExecute Scenario.ready "c1" (Some Scenario.T1) 1).2
               = ws.TYPE_TASK_STARTED) by (vm_compute; reflexivity).
  assert (H2 : OutTaskId Scenario.pingLine = TaskId Scenario.T1)
    by reflexivity.
  assert (H3 : isTerminal Scenario.pingLine = false)
    by (vm_compute; reflexivity).
  repeat (split; [assumption|]).
  exact (proj2 (started_task_sends_its_outputs_to_the_requester
                  Scenario.ready "c1" Scenario.T1 1 Scenario.pingLine
                  H1 H2 H3)).
Defined.

End Requests.

(** ** The configuration *)

Section Configuration.
Import config.

Lemma orInt_idem (v d : Z) : d <> 0%Z -> orInt (orInt v d) d = orInt v d.
Proof.
  intros Hd. unfold orInt. destruct (Z.eqb_spec v 0) as [E|E].
  - destruct (Z.eqb_spec d 0); [contradiction | reflexivity].
  - destruct (Z.eqb_spec v 0); [contradiction | reflexivity].
Qed.

Lemma orInt_nonzero (v d : Z) : d <> 0%Z -> orInt v d <> 0%Z.
Proof.
  intros Hd. unfold orInt. destruct (Z.eqb_spec v 0); assumption.
Qed.

Lemma orString_idem (s d : string) :
  d <> "" -> orString (orString s d) d = orString s d.
Proof.
  intros Hd. unfold orString. destruct (String.eqb_spec s "") as [E|E].
  - destruct (String.eqb_spec d ""); [contradiction | reflexivity].
  - destruct (String.eqb_spec s ""); [contradiction | reflexivity].
Qed.

Lemma orString_nonempty (s d : string) : d <> "" -> orString s d <> "".
Proof.
  intros Hd. unfold orString. destruct (String.eqb_spec s ""); assumption.
Qed.

Lemma setDefaults_idempotent (c : Config) :
  setDefaults (setDefaults c) = setDefaults c.
Proof.
  unfold setDefaults. cbn.
  rewrite !orInt_idem by discriminate.
  rewrite !orString_idem by discriminate.
  f_equal. f_equal.
  - destruct (String.eqb_spec (LogoURL (Branding c)) "") as [E1|E1];
      [|reflexivity].
    destruct (String.eqb_spec (LogoText (Branding c)) "") as [E2|E2];
      cbn; [reflexivity|].
    destruct (String.eqb_spec (LogoText (Branding c)) "");
      [contradiction | reflexivity].
  - destruct (String.eqb_spec (LogoURL (Branding c)) "") as [E1|E1];
      [|reflexivity].
    destruct (String.eqb_spec (LogoText (Branding c)) "") as [E2|E2];
      cbn; [reflexivity|].
    destruct (String.eqb_spec (LogoText (Branding c)) "");
      [contradiction | reflexivity].
Qed.

Lemma validate_None (c : Config) :
  validate c = None <->
  (Mode (Auth c) = "api_key" \/ Mode (Auth c) = "ip_whitelist")
  /\ APIKey (Auth c) <> ""
  /\ (Mode (Auth c) = "ip_whitelist" -> IPWhitelist (Auth c) <> [])
  /\ (1 <= GlobalMax (Concurrency c))%Z
  /\ (1 <= AgentDefaultMax (Concurrency c))%Z.
Proof.
  unfold validate.
  destruct (String.eqb_spec (Mode (Auth c)) "api_key") as [Ea|Ea];
    destruct (String.eqb_spec (Mode (Auth c)) "ip_whitelist") as [Ei|Ei];
    cbn [negb andb];
    try (rewrite Ea in Ei; discriminate Ei);
    destruct (String.eqb_spec (APIKey (Auth c)) "") as [Ek|Ek];
    try (split; [discriminate | intros (_ & H & _); contradiction]);
    try (split; [discriminate | intros ([H|H] & _); contradiction]).
  - destruct (Z.ltb_spec (GlobalMax (Concurrency c)) 1);
      [split; [discriminate | intros (_ & _ & _ & H1 & _); lia]|].
    destruct (Z.ltb_spec (AgentDefaultMax (Concurrency c)) 1);
      [split; [discriminate | intros (_ & _ & _ & _ & H1); lia]|].
    split; [|reflexivity]. intros _.
    split; [auto|]. split; [exact Ek|].
    split; [intros H1; contradiction|]. split; assumption.
  - destruct (IPWhitelist (Auth c)) as [|x l] eqn:El; cbn [length Nat.eqb].
    { split; [discriminate|]. intros (_ & _ & H & _). contradiction H;
        reflexivity. }
    destruct (Z.ltb_spec (GlobalMax (Concurrency c)) 1);
      [split; [discriminate | intros (_ & _ & _ & H1 & _); lia]|].
    destruct (Z.ltb_spec (AgentDefaultMax (Concurrency c)) 1);
      [split; [discriminate | intros (_ & _ & _ & _ & H1); lia]|].
    split; [|reflexivity]. intros _.
    split; [auto|]. split; [exact Ek|].
    split; [intros _; discriminate|]. split; assumption.
Qed.

Lemma orInt_ge (v d : Z) : (1 <= d)%Z -> (1 <= orInt v d <-> 0 <= v)%Z.
Proof.
  intros Hd. unfold orInt. destruct (Z.eqb_spec v 0); lia.
Qed.

Lemma Load_inl (data : option string) (unmarshal : string -> option Config)
    (cfg : Config) :
  Load data unmarshal = inl cfg <->
  exists bytes raw,
    data = Some bytes /\ unmarshal bytes = Some raw
    /\ cfg = setDefaults raw /\ validate (setDefaults raw) = None.
Proof.
  unfold Load. split.
  - destruct data as [bytes|]; [|discriminate].
    destruct (unmarshal bytes) as [raw|] eqn:Eu; [|discriminate].
    destruct (validate (setDefaults raw)) eqn:Ev; [discriminate|].
    intros [= <-]. exists bytes, raw. auto.
  - intros (bytes & raw & -> & Eu & -> & Ev). rewrite Eu, Ev. reflexivity.
Qed.

(** X22. Which configuration files the master accepts, in terms of what the
    file says: [Load] succeeds exactly when the file can be read and
    parsed, the auth mode is [api_key] or [ip_whitelist], the API key is
    not empty (in both modes), the whitelist is not empty in whitelist
    mode, and neither concurrency limit is negative; a limit of zero is
    accepted, since the defaults are filled in before the validation.  The
    result is the parsed configuration with the defaults filled in. *)
Theorem Load_accepts (data : option string)
    (unmarshal : string -> option Config) (cfg : Config) :
  Load data unmarshal = inl cfg <->
  exists bytes raw,
    data = Some bytes /\ unmarshal bytes = Some raw
    /\ cfg = setDefaults raw
    /\ (Mode (Auth raw) = "api_key" \/ Mode (Auth raw) = "ip_whitelist")
    /\ APIKey (Auth raw) <> ""
    /\ (Mode (Auth raw) = "ip_whitelist" -> IPWhitelist (Auth raw) <> [])
    /\ (0 <= GlobalMax (Concurrency raw))%Z
    /\ (0 <= AgentDefaultMax (Concurrency raw))%Z.
Proof.
  rewrite Load_inl. split.
  - intros (bytes & raw & Hd & Hu & Hc & Hv). exists bytes, raw.
    apply validate_None in Hv as (Hm & Hk & Hw & Hg & Ha). cbn in *.
    apply orInt_ge in Hg; [|lia]. apply orInt_ge in Ha; [|lia].
    repeat (split; [assumption|]). assumption.
  - intros (bytes & raw & Hd & Hu & Hc & Hm & Hk & Hw & Hg & Ha).
    exists bytes, raw. repeat (split; [assumption|]).
    apply validate_None. cbn.
    repeat (split; [assumption|]).
    split; apply orInt_ge; lia.
Qed.

(** X23. A configuration that [Load] returns is complete: both limits are
    at least one, no port, interval, timeout or count is zero, the log
    level, the log file and the site title are not empty, there is a logo
    text whenever there is no logo image, and the auth mode is one that
    [GetAuthMode] knows.  Filling in the defaults again changes nothing. *)
Theorem Load_result_is_complete (data : option string)
    (unmarshal : string -> option Config) (cfg : Config) :
  Load data unmarshal = inl cfg ->
  ((1 <= GlobalMax (Concurrency cfg))%Z
   /\ (1 <= AgentDefaultMax (Concurrency cfg))%Z)
  /\ (GRPCPort (Server cfg) <> 0%Z /\ WSPort (Server cfg) <> 0%Z)
  /\ (HeartbeatTimeout (Agent cfg) <> 0%Z
      /\ HeartbeatInterval (Agent cfg) <> 0%Z
      /\ OfflineCheckInterval (Agent cfg) <> 0%Z)
  /\ (DefaultTimeout (Task cfg) <> 0%Z
      /\ HistoryRetention (Task cfg) <> 0%Z
      /\ DefaultPingCount (Task cfg) <> 0%Z
      /\ DefaultMTRCount (Task cfg) <> 0%Z)
  /\ (Level (Log cfg) <> "" /\ File (Log cfg) <> ""
      /\ SiteTitle (Branding cfg) <> "")
  /\ (LogoURL (Branding cfg) = "" -> LogoText (Branding cfg) <> "")
  /\ GetAuthMode cfg <> AUTH_MODE_UNSPECIFIED
  /\ setDefaults cfg = cfg
  /\ validate cfg = None.
Proof.
  intros H. apply Load_inl in H as (bytes & raw & _ & _ & -> & Hv).
  pose proof Hv as Hv'.
  apply validate_None in Hv' as (Hm & _ & _ & Hg & Ha).
  split; [split; assumption|].
  split; [split; apply orInt_nonzero; discriminate|].
  split; [repeat split; apply orInt_nonzero; discriminate|].
  split; [repeat split; apply orInt_nonzero; discriminate|].
  split; [repeat split; apply orString_nonempty; discriminate|].
  split.
  { cbn. intros Hu. rewrite Hu. cbn.
    destruct (String.eqb_spec (LogoText (Branding raw)) "");
      [discriminate | assumption]. }
  split.
  { unfold GetAuthMode. cbn in *. destruct Hm as [-> | ->]; discriminate. }
  split; [apply setDefaults_idempotent | exact Hv].
Qed.

Lemma Load_result_is_complete_witness :
  Load (Some "auth") (fun _ => Some keyOnlyConfig)
  = inl (setDefaults keyOnlyConfig)
  /\ GlobalMax (Concurrency (setDefaults keyOnlyConfig)) = 50%Z
  /\ validate (setDefaults keyOnlyConfig) = None.
Proof.
  assert (H : Load (Some "auth") (fun _ => Some keyOnlyConfig)
              = inl (setDefaults keyOnlyConfig)) by reflexivity.
  split; [exact H|]. split; [reflexivity|].
  exact (proj2 (proj2 (proj2 (proj2 (proj2 (proj2 (proj2 (proj2
    (Load_result_is_complete _ _ _ H))))))))).
Defined.

(** X24. With a loaded configuration the global limit handed to the
    scheduler is at least one, so the master never starts closed: once an
    agent with room for a task has registered on its stream, the first
    task submitted for it is admitted, whatever the heartbeat timeout. *)
Theorem loaded_limit_admits_the_first_task (data : option string)
    (unmarshal : string -> option Config) (cfg : Config)
    (heartbeatTimeout : Z) (info : pb.AgentInfo) (env : task.Env)
    (t : pb.Task) (clientID : string) (h : task.Handler) (now : Z) :
  Load data unmarshal = inl cfg ->
  (1 <= pb.MaxConcurrent info)%Z ->
  pb.AgentId t = pb.Id info ->
  let w0 := task.NewWorld heartbeatTimeout (GlobalMax (Concurrency cfg)) in
  let w := (server.handleRegister w0 (Some info) env).1 in
  (task.SubmitTask w t clientID h now).2 = None.
Proof.
  intros H Hmax Hid. apply Load_inl in H as (_ & raw & _ & _ & -> & Hv).
  apply validate_None in Hv as (_ & _ & _ & Hg & _).
  cbn zeta. unfold server.handleRegister, task.SubmitTask, agent.GetAgent,
    agent.IncrementTaskCount, agent.RegisterAgentFromStream.
  cbn [fst task.manager task.scheduler task.registry task.setManager
       task.setRegistry task.NewWorld task.SetStreamSender
       task.NewScheduler task.globalMaxTasks task.currentTasks
       agent.NewManager agent.agents].
  rewrite lookup_empty. cbn [agent.notifyStatusChange agent.setAgents
                             agent.agents].
  destruct (Z.leb_spec (GlobalMax (Concurrency (setDefaults raw))) 0);
    [lia|].
  rewrite Hid, lookup_insert_eq. cbn [agent.Status agent.Info
                                       agent.CurrentTasks negb].
  rewrite bool_decide_eq_true_2 by reflexivity. cbn [negb].
  destruct (Z.leb_spec (pb.MaxConcurrent info) 0); [lia|].
  reflexivity.
Qed.

Lemma loaded_limit_admits_the_first_task_witness :
  Load (Some "auth") (fun _ => Some keyOnlyConfig)
  = inl (setDefaults keyOnlyConfig)
  /\ (1 <= pb.MaxConcurrent Scenario.P1)%Z
  /\ pb.AgentId Scenario.T1 = pb.Id Scenario.P1
  /\ (task.SubmitTask
        (server.handleRegister
           (task.NewWorld 90
              (GlobalMax (Concurrency (setDefaults keyOnlyConfig))))
           (Some Scenario.P1) (master.quiet 0)).1
        Scenario.T1 "c1" (Some "c1") 1).2 = None.
Proof.
  assert (H : Load (Some "auth") (fun _ => Some keyOnlyConfig)
              = inl (setDefaults keyOnlyConfig)) by reflexivity.
  assert (H1 : (1 <= pb.MaxConcurrent Scenario.P1)%Z) by (cbn; lia).
  assert (H2 : pb.AgentId Scenario.T1 = pb.Id Scenario.P1) by reflexivity.
  repeat (split; [assumption|]).
  exact (loaded_limit_admits_the_first_task _ _ _ 90 Scenario.P1
           (master.quiet 0) Scenario.T1 "c1" (Some "c1") 1 H H1 H2).
Defined.

End Configuration.

(** ** The arguments of a custom command *)

Section CustomArguments.
Import GoStrings executor.

Lemma HasPrefix_other_char (c a : ascii) (s t : string) :
  c <> a -> HasPrefix (String a s) (String c t) = false.
Proof.
  intros Hne. cbn [HasPrefix].
  destruct (Ascii.eqb_spec c a); [contradiction | reflexivity].
Qed.

Lemma HasPrefix_append (old x : string) : HasPrefix (old ++ x) old = true.
Proof. apply HasPrefix_spec. exists x. reflexivity. Qed.

(** [ReplaceAll] on the pieces of a template. *)
Lemma replaceFrom_app_free (c0 : ascii) (t new pre x : string) :
  free c0 pre ->
  replaceFrom (pre ++ x) (String c0 t) new 0
  = pre ++ replaceFrom x (String c0 t) new 0.
Proof.
  induction pre as [|a pre IH]; intros Hf; [rewrite !append_empty; auto|].
  rewrite !append_cons. cbn [replaceFrom].
  rewrite HasPrefix_other_char
    by (intros ->; apply Hf; left; reflexivity).
  rewrite IH; [reflexivity|]. intros H. apply Hf. right. exact H.
Qed.

Lemma replaceFrom_free (c0 : ascii) (t new s : string) :
  free c0 s -> replaceFrom s (String c0 t) new 0 = s.
Proof.
  intros Hf.
  pose proof (replaceFrom_app_free c0 t new s "" Hf) as H.
  rewrite append_empty_r in H. rewrite H. cbn [replaceFrom].
  apply append_empty_r.
Qed.

Lemma replaceFrom_skip (old new t x : string) :
  replaceFrom (t ++ x) old new (len t) = replaceFrom x old new 0.
Proof.
  induction t as [|a t IH]; [rewrite append_empty; reflexivity|].
  rewrite append_cons. cbn [replaceFrom len String.length]. exact IH.
Qed.

Lemma replaceFrom_match (c0 : ascii) (t new x : string) :
  replaceFrom (String c0 t ++ x) (String c0 t) new 0
  = new ++ replaceFrom x (String c0 t) new 0.
Proof.
  pose proof (HasPrefix_append (String c0 t) x) as Hp.
  rewrite append_cons in *. cbn [replaceFrom]. rewrite Hp.
  change (len (String c0 t) - 1)%nat with (len t - 0)%nat.
  rewrite Nat.sub_0_r, replaceFrom_skip. reflexivity.
Qed.

Lemma replaceFrom_nomatch (c0 : ascii) (t new body x : string) :
  free c0 body ->
  HasPrefix (String c0 body ++ x) (String c0 t) = false ->
  replaceFrom (String c0 body ++ x) (String c0 t) new 0
  = String c0 body ++ replaceFrom x (String c0 t) new 0.
Proof.
  intros Hf Hp. rewrite append_cons in *. cbn [replaceFrom]. rewrite Hp.
  rewrite replaceFrom_app_free by exact Hf. rewrite append_cons.
  reflexivity.
Qed.

(** [Index] on the pieces of a template. *)
Lemma Index_None_app_free (c0 : ascii) (t pre x : string) :
  free c0 pre ->
  Index x (String c0 t) = None ->
  Index (pre ++ x) (String c0 t) = None.
Proof.
  intros Hf Hx. induction pre as [|a pre IH]; [exact Hx|].
  rewrite append_cons.
  change (Index (String a (pre ++ x)) (String c0 t))
    with (if HasPrefix (String a (pre ++ x)) (String c0 t) then Some 0%nat
          else S <$> Index (pre ++ x) (String c0 t)).
  rewrite HasPrefix_other_char
    by (intros ->; apply Hf; left; reflexivity).
  rewrite IH; [reflexivity|]. intros H. apply Hf. right. exact H.
Qed.

Lemma Index_None_nomatch (c0 : ascii) (t body x : string) :
  free c0 body ->
  HasPrefix (String c0 body ++ x) (String c0 t) = false ->
  Index x (String c0 t) = None ->
  Index (String c0 body ++ x) (String c0 t) = None.
Proof.
  intros Hf Hp Hx. rewrite append_cons in *.
  change (Index (String c0 (body ++ x)) (String c0 t))
    with (if HasPrefix (String c0 (body ++ x)) (String c0 t)
          then Some 0%nat
          else S <$> Index (body ++ x) (String c0 t)).
  rewrite Hp, (Index_None_app_free c0 t body x Hf Hx). reflexivity.
Qed.

Lemma placeholder_body (ph : Placeholder) :
  placeholder ph = String "{" (body ph).
Proof. destruct ph; reflexivity. Qed.

Lemma body_free (ph : Placeholder) : free "{" (body ph).
Proof.
  destruct ph; intros H; cbn in H;
    repeat (destruct H as [H|H]; [discriminate H|]); exact H.
Qed.

Lemma HasPrefix_other (ph ph' : Placeholder) (x : string) :
  ph <> ph' -> HasPrefix (placeholder ph' ++ x) (placeholder ph) = false.
Proof. destruct ph, ph'; intros H; try contradiction; reflexivity. Qed.

Lemma ReplaceAll_free (ph : Placeholder) (new s : string) :
  free "{" s -> ReplaceAll s (placeholder ph) new = s.
Proof.
  intros Hf. unfold ReplaceAll. rewrite placeholder_body.
  apply replaceFrom_free, Hf.
Qed.

Lemma ReplaceAll_app_free (ph : Placeholder) (new pre x : string) :
  free "{" pre ->
  ReplaceAll (pre ++ x) (placeholder ph) new
  = pre ++ ReplaceAll x (placeholder ph) new.
Proof.
  intros Hf. unfold ReplaceAll. rewrite placeholder_body.
  apply replaceFrom_app_free, Hf.
Qed.

Lemma ReplaceAll_match (ph : Placeholder) (new x : string) :
  ReplaceAll (placeholder ph ++ x) (placeholder ph) new
  = new ++ ReplaceAll x (placeholder ph) new.
Proof.
  unfold ReplaceAll. rewrite placeholder_body. apply replaceFrom_match.
Qed.

Lemma ReplaceAll_other (ph ph' : Placeholder) (new x : string) :
  ph <> ph' ->
  ReplaceAll (placeholder ph' ++ x) (placeholder ph) new
  = placeholder ph' ++ ReplaceAll x (placeholder ph) new.
Proof.
  intros Hne. pose proof (HasPrefix_other ph ph' x Hne) as Hp.
  unfold ReplaceAll. rewrite (placeholder_body ph') in *.
  rewrite (placeholder_body ph) in *.
  apply replaceFrom_nomatch; [apply body_free | exact Hp].
Qed.

Lemma Contains_false_free (ph : Placeholder) (s : string) :
  free "{" s -> Contains s (placeholder ph) = false.
Proof.
  intros Hf. unfold Contains. rewrite placeholder_body.
  rewrite Index_free by exact Hf. reflexivity.
Qed.

Lemma Contains_false_app_free (ph : Placeholder) (pre x : string) :
  free "{" pre ->
  Contains x (placeholder ph) = false ->
  Contains (pre ++ x) (placeholder ph) = false.
Proof.
  intros Hf. unfold Contains. rewrite placeholder_body.
  destruct (Index x (String "{" (body ph))) eqn:E; [discriminate|].
  intros _. rewrite (Index_None_app_free _ _ _ _ Hf E). reflexivity.
Qed.

Lemma Contains_false_other (ph ph' : Placeholder) (x : string) :
  ph <> ph' ->
  Contains x (placeholder ph) = false ->
  Contains (placeholder ph' ++ x) (placeholder ph) = false.
Proof.
  intros Hne. pose proof (HasPrefix_other ph ph' x Hne) as Hp.
  unfold Contains. rewrite (placeholder_body ph') in *.
  rewrite (placeholder_body ph) in *.
  destruct (Index x (String "{" (body ph))) eqn:E; [discriminate|].
  intros _.
  rewrite (Index_None_nomatch _ _ _ _ (body_free ph') Hp E). reflexivity.
Qed.

Lemma Contains_app (pre sub post : string) :
  Contains (pre ++ sub ++ post) sub = true.
Proof. apply Contains_spec. exists pre, post. reflexivity. Qed.

(** The inner loop: the last key visited that occurs in the argument
    decides. *)
Lemma replaceArg_none_from (arg : string) (p : NetworkTestParams)
    (order : list Placeholder) (cur : string) :
  (forall ph, In ph order -> Contains arg (placeholder ph) = false) ->
  fold_left
    (fun cur ph =>
       if Contains arg (placeholder ph)
       then ReplaceAll arg (placeholder ph) (replacement p ph)
       else cur)
    order cur = cur.
Proof.
  revert cur. induction order as [|ph order IH]; intros cur H;
    [reflexivity|].
  cbn [fold_left]. rewrite (H ph) by (left; reflexivity).
  apply IH. intros ph' Hin. apply H. right. exact Hin.
Qed.

Lemma replaceArg_last (arg : string) (p : NetworkTestParams)
    (before after : list Placeholder) (ph : Placeholder) :
  Contains arg (placeholder ph) = true ->
  (forall ph', In ph' after -> Contains arg (placeholder ph') = false) ->
  replaceArg arg p (before ++ ph :: after)
  = ReplaceAll arg (placeholder ph) (replacement p ph).
Proof.
  intros Hc Hafter. unfold replaceArg. rewrite fold_left_app.
  cbn [fold_left]. rewrite Hc. apply replaceArg_none_from, Hafter.
Qed.

Lemma replaceArg_cases (arg : string) (p : NetworkTestParams)
    (order : list Placeholder) :
  (replaceArg arg p order = arg
   /\ forall ph, In ph order -> Contains arg (placeholder ph) = false)
  \/ exists ph, In ph order
       /\ Contains arg (placeholder ph) = true
       /\ replaceArg arg p order
          = ReplaceAll arg (placeholder ph) (replacement p ph).
Proof.
  induction order as [|ph order IH] using rev_ind.
  - left. split; [reflexivity | intros ph []].
  - unfold replaceArg in *. rewrite fold_left_app. cbn [fold_left].
    destruct (Contains arg (placeholder ph)) eqn:Hc.
    + right. exists ph. split; [apply in_or_app; right; left; reflexivity|].
      auto.
    + destruct IH as [[E Hn]|(ph' & Hin & Hc' & E)].
      * left. split; [exact E|]. intros ph' Hin.
        apply in_app_or in Hin as [Hin|[<-|[]]]; [apply Hn, Hin | exact Hc].
      * right. exists ph'. split; [apply in_or_app; left; exact Hin|].
        auto.
Qed.

Lemma all_visited (order : list Placeholder) (ph : Placeholder) :
  Permutation order allPlaceholders -> In ph order.
Proof.
  intros Hp. apply (Permutation_in ph (Permutation_sym Hp)).
  destruct ph; cbn; auto.
Qed.

(** X25. A custom command gets as many arguments as the configuration
    lists, and without parameters exactly those.  An argument in which no
    placeholder occurs is passed as it is.  In an argument in which some
    placeholder occurs, the occurrences of one placeholder only are
    replaced, whichever order the map is visited in: the loop rewrites the
    configured argument afresh for every key and keeps the last result. *)
Theorem BuildCustomCommandArgs_replaces_one_placeholder
    (defaultArgs : list string) (p : NetworkTestParams)
    (order : nat -> list Placeholder) :
  (forall i, Permutation (order i) allPlaceholders) ->
  let out := BuildCustomCommandArgs defaultArgs (Some p) order in
  length out = length defaultArgs
  /\ BuildCustomCommandArgs defaultArgs None order = defaultArgs
  /\ forall i arg, defaultArgs !! i = Some arg ->
       ((forall ph, Contains arg (placeholder ph) = false) ->
        out !! i = Some arg)
       /\ ((exists ph, Contains arg (placeholder ph) = true) ->
           exists ph,
             Contains arg (placeholder ph) = true
             /\ out !! i
                = Some (ReplaceAll arg (placeholder ph)
                          (replacement p ph))).
Proof.
  intros Hperm. cbn zeta. unfold BuildCustomCommandArgs.
  split; [apply length_imap|]. split; [reflexivity|].
  intros i arg Hi. rewrite list_lookup_imap, Hi. cbn.
  destruct (replaceArg_cases arg p (order i))
    as [[E Hn]|(ph & Hin & Hc & E)].
  - split; [intros _; rewrite E; reflexivity|].
    intros [ph Hc]. rewrite Hn in Hc; [discriminate Hc|].
    apply all_visited, Hperm.
  - split.
    + intros Hn. rewrite Hn in Hc. discriminate Hc.
    + intros _. exists ph. rewrite E. auto.
Qed.

Lemma BuildCustomCommandArgs_replaces_one_placeholder_witness :
  (forall i : nat, Permutation allPlaceholders allPlaceholders)
  /\ length
       (BuildCustomCommandArgs ["-c"; "{count}"; "{target}"]
          (Some {| Target := "example.org"; Count := 4; Timeout := 0;
                   Ipv6 := false; ExtraOptions := [] |})
          (fun _ : nat => allPlaceholders)) = 3%nat.
Proof.
  assert (H : forall i : nat, Permutation allPlaceholders allPlaceholders)
    by (intros i; reflexivity).
  split; [exact H|].
  exact (proj1 (BuildCustomCommandArgs_replaces_one_placeholder
                  ["-c"; "{count}"; "{target}"]
                  {| Target := "example.org"; Count := 4; Timeout := 0;
                     Ipv6 := false; ExtraOptions := [] |}
                  (fun _ : nat => allPlaceholders) H)).
Defined.

(** X26. An argument with one placeholder, between two strings without an
    opening brace, becomes the same argument with the value in the place
    of the placeholder, in every order of the map and whatever the value
    contains: the value is never scanned for placeholders. *)
Theorem one_placeholder_argument_is_substituted
    (defaultArgs : list string) (p : NetworkTestParams)
    (order : nat -> list Placeholder) (i : nat) (pre post : string)
    (ph : Placeholder) :
  (forall i, Permutation (order i) allPlaceholders) ->
  free "{" pre -> free "{" post ->
  defaultArgs !! i = Some (pre ++ placeholder ph ++ post) ->
  BuildCustomCommandArgs defaultArgs (Some p) order !! i
  = Some (pre ++ replacement p ph ++ post).
Proof.
  intros Hperm Hpre Hpost Hi. unfold BuildCustomCommandArgs.
  rewrite list_lookup_imap, Hi. cbn. f_equal.
  assert (Hother : forall ph', ph' <> ph ->
            Contains (pre ++ placeholder ph ++ post) (placeholder ph')
            = false).
  { intros ph' Hne. apply Contains_false_app_free; [exact Hpre|].
    apply Contains_false_other; [exact Hne|].
    apply Contains_false_free, Hpost. }
  destruct (replaceArg_cases (pre ++ placeholder ph ++ post) p (order i))
    as [[_ Hn]|(ph' & _ & Hc & E)].
  - pose proof (Contains_app pre (placeholder ph) post) as Hc.
    rewrite Hn in Hc; [discriminate Hc | apply all_visited, Hperm].
  - destruct (decide (ph' = ph)) as [->|Hne].
    + rewrite E, ReplaceAll_app_free, ReplaceAll_match, ReplaceAll_free
        by assumption.
      reflexivity.
    + rewrite Hother in Hc by exact Hne. discriminate Hc.
Qed.

Lemma one_placeholder_argument_is_substituted_witness :
  (forall i : nat, Permutation allPlaceholders allPlaceholders)
  /\ free "{" "--host=" /\ free "{" ":443"
  /\ BuildCustomCommandArgs ["-v"; "--host={target}:443"]
       (Some {| Target := "example.org"; Count := 4; Timeout := 0;
                Ipv6 := false; ExtraOptions := [] |})
       (fun _ : nat => allPlaceholders) !! 1%nat
     = Some ("--host=" ++ "example.org" ++ ":443").
Proof.
  assert (H : forall i : nat, Permutation allPlaceholders allPlaceholders)
    by (intros i; reflexivity).
  assert (H1 : free "{" "--host=")
    by (intros Hin; cbn in Hin;
        repeat (destruct Hin as [Hin|Hin]; [discriminate Hin|]);
        exact Hin).
  assert (H2 : free "{" ":443")
    by (intros Hin; cbn in Hin;
        repeat (destruct Hin as [Hin|Hin]; [discriminate Hin|]);
        exact Hin).
  split; [exact H|]. split; [exact H1|]. split; [exact H2|].
  exact (one_placeholder_argument_is_substituted
           ["-v"; "--host={target}:443"]
           {| Target := "example.org"; Count := 4; Timeout := 0;
              Ipv6 := false; ExtraOptions := [] |}
           (fun _ : nat => allPlaceholders) 1 "--host=" ":443" PhTarget
           H H1 H2 eq_refl).
Defined.

(** X27. An argument with two different placeholders is never substituted
    in full: the placeholder whose key the map visits later is replaced
    and the other one is passed to the command as it stands.  Which of the
    two it is depends on the order of the map alone, and one of the two
    orders always holds. *)
Theorem two_placeholder_argument_keeps_one
    (defaultArgs : list string) (p : NetworkTestParams)
    (order : nat -> list Placeholder) (i : nat) (pre mid post : string)
    (ph1 ph2 : Placeholder) :
  (forall i, Permutation (order i) allPlaceholders) ->
  ph1 <> ph2 ->
  free "{" pre -> free "{" mid -> free "{" post ->
  defaultArgs !! i
  = Some (pre ++ placeholder ph1 ++ mid ++ placeholder ph2 ++ post) ->
  let out := BuildCustomCommandArgs defaultArgs (Some p) order in
  (visitedAfter (order i) ph1 ph2 ->
   out !! i
   = Some (pre ++ replacement p ph1 ++ mid ++ placeholder ph2 ++ post))
  /\ (visitedAfter (order i) ph2 ph1 ->
      out !! i
      = Some (pre ++ placeholder ph1 ++ mid ++ replacement p ph2 ++ post))
  /\ (visitedAfter (order i) ph1 ph2 \/ visitedAfter (order i) ph2 ph1).
Proof.
  intros Hperm Hne Hpre Hmid Hpost Hi. cbn zeta.
  unfold BuildCustomCommandArgs. rewrite list_lookup_imap, Hi. cbn.
  set (T := pre ++ placeholder ph1 ++ mid ++ placeholder ph2 ++ post).
  assert (Hnd : NoDup (order i)).
  { rewrite (Hperm i). apply (bool_decide_unpack _). vm_compute.
    exact I. }
  assert (Hc1 : Contains T (placeholder ph1) = true)
    by apply Contains_app.
  assert (Hc2 : Contains T (placeholder ph2) = true).
  { unfold T.
    replace (pre ++ placeholder ph1 ++ mid ++ placeholder ph2 ++ post)
      with ((pre ++ placeholder ph1 ++ mid) ++ placeholder ph2 ++ post)
      by (rewrite !append_assoc; reflexivity).
    apply Contains_app. }
  assert (Hc3 : forall ph, ph <> ph1 -> ph <> ph2 ->
                  Contains T (placeholder ph) = false).
  { intros ph H1 H2. unfold T.
    apply Contains_false_app_free; [exact Hpre|].
    apply Contains_false_other; [exact H1|].
    apply Contains_false_app_free; [exact Hmid|].
    apply Contains_false_other; [exact H2|].
    apply Contains_false_free, Hpost. }
  assert (Hr1 : ReplaceAll T (placeholder ph1) (replacement p ph1)
                = pre ++ replacement p ph1 ++ mid ++ placeholder ph2
                  ++ post).
  { unfold T.
    rewrite ReplaceAll_app_free, ReplaceAll_match, ReplaceAll_app_free,
      ReplaceAll_other, ReplaceAll_free by assumption.
    reflexivity. }
  assert (Hr2 : ReplaceAll T (placeholder ph2) (replacement p ph2)
                = pre ++ placeholder ph1 ++ mid ++ replacement p ph2
                  ++ post).
  { unfold T.
    rewrite ReplaceAll_app_free, ReplaceAll_other, ReplaceAll_app_free,
      ReplaceAll_match, ReplaceAll_free by (assumption || congruence).
    reflexivity. }
  assert (Hlast : forall ph other, ph <> other ->
            (ph = ph1 /\ other = ph2) \/ (ph = ph2 /\ other = ph1) ->
            visitedAfter (order i) ph other ->
            replaceArg T p (order i)
            = ReplaceAll T (placeholder ph) (replacement p ph)).
  { intros ph other Hdiff Hwhich (before & after & E & Hnot).
    rewrite E. apply replaceArg_last.
    - destruct Hwhich as [[-> _]|[-> _]]; assumption.
    - intros ph' Hin. apply Hc3.
      + intros ->. rewrite E in Hnd. apply NoDup_app in Hnd as (_ & _ & Hnd).
        apply NoDup_cons in Hnd as [Hnd _].
        destruct Hwhich as [[-> ->]|[-> ->]];
          [apply Hnd; apply list_elem_of_In; exact Hin
          | exact (Hnot Hin)].
      + intros ->. rewrite E in Hnd. apply NoDup_app in Hnd as (_ & _ & Hnd).
        apply NoDup_cons in Hnd as [Hnd _].
        destruct Hwhich as [[-> ->]|[-> ->]];
          [exact (Hnot Hin)
          | apply Hnd; apply list_elem_of_In; exact Hin]. }
  split; [|split].
  - intros Hv. rewrite (Hlast ph1 ph2 Hne (or_introl (conj eq_refl eq_refl))
                          Hv), Hr1. reflexivity.
  - intros Hv.
    rewrite (Hlast ph2 ph1 (not_eq_sym Hne)
               (or_intror (conj eq_refl eq_refl)) Hv), Hr2.
    reflexivity.
  - pose proof (all_visited (order i) ph1 (Hperm i)) as Hin1.
    pose proof (all_visited (order i) ph2 (Hperm i)) as Hin2.
    apply in_split in Hin1 as (b & a & E).
    destruct (in_dec Placeholder_eq_dec ph2 a) as [Hin|Hnin].
    + right. apply in_split in Hin as (a1 & a2 & Ea).
      exists (b ++ ph1 :: a1)%list, a2. split.
      * rewrite E, Ea, <- app_assoc. reflexivity.
      * intros Hx. rewrite E, Ea in Hnd.
        apply NoDup_app in Hnd as (_ & _ & Hnd).
        apply NoDup_cons in Hnd as [Hnd _]. apply Hnd.
        apply list_elem_of_In, in_or_app. right. right. exact Hx.
    + left. exists b, a. auto.
Qed.

Lemma two_placeholder_argument_keeps_one_witness :
  (forall i : nat, Permutation allPlaceholders allPlaceholders)
  /\ PhTarget <> PhCount
  /\ free "{" "" /\ free "{" ":"
  /\ visitedAfter allPlaceholders PhCount PhTarget
  /\ BuildCustomCommandArgs ["{target}:{count}"]
       (Some {| Target := "example.org"; Count := 4; Timeout := 0;
                Ipv6 := false; ExtraOptions := [] |})
       (fun _ : nat => allPlaceholders) !! 0%nat
     = Some ("" ++ placeholder PhTarget ++ ":" ++ "4" ++ "").
Proof.
  assert (H : forall i : nat, Permutation allPlaceholders allPlaceholders)
    by (intros i; reflexivity).
  assert (H0 : PhTarget <> PhCount) by discriminate.
  assert (H1 : free "{" "") by (intros Hin; exact Hin).
  assert (H2 : free "{" ":")
    by (intros Hin; cbn in Hin;
        repeat (destruct Hin as [Hin|Hin]; [discriminate Hin|]);
        exact Hin).
  assert (H3 : visitedAfter allPlaceholders PhCount PhTarget).
  { exists [PhTarget], [PhTimeout; PhIpv6]. split; [reflexivity|].
    intros Hin; cbn in Hin;
      repeat (destruct Hin as [Hin|Hin]; [discriminate Hin|]); exact Hin. }
  repeat (split; [assumption|]).
  exact (proj1 (proj2
    (two_placeholder_argument_keeps_one ["{target}:{count}"]
       {| Target := "example.org"; Count := 4; Timeout := 0;
          Ipv6 := false; ExtraOptions := [] |}
       (fun _ : nat => allPlaceholders) 0 "" ":" "" PhTarget PhCount
       H H0 H1 H2 H1 eq_refl)) H3).
Defined.

End CustomArguments.

(** ** The scheduler: a task from its submission to its end *)

Section RoundTrip.
Import pb task.

Lemma completeTask_manager (w : World) (taskID : string) (st : TaskStatus)
    (ti : TaskInfo) :
  tasks (scheduler w) !! taskID = Some ti ->
  manager (completeTask w taskID st)
  = agent.DecrementTaskCount (manager w) (AgentID ti).
Proof.
  intros Ht. unfold completeTask. rewrite Ht. cbn.
  destruct (outputHandlers (scheduler w) !! taskID) as [[h|]|];
    try destruct (bool_decide (st = TASK_STATUS_COMPLETED)
                  || bool_decide (st = TASK_STATUS_CANCELLED));
    reflexivity.
Qed.

Lemma HandleTaskOutput_terminal_state (w : World) (o : TaskOutput)
    (ti : TaskInfo) :
  tasks (scheduler w) !! OutTaskId o = Some ti ->
  isTerminal o = true ->
  let w' := HandleTaskOutput w (Some o) in
  tasks (scheduler w') !! OutTaskId o = Some (setStatus ti (pb.Status o))
  /\ currentTasks (scheduler w') = int64 (currentTasks (scheduler w) - 1)
  /\ outputHandlers (scheduler w') !! OutTaskId o = None
  /\ manager w' = agent.DecrementTaskCount (manager w) (AgentID ti)
  /\ registry w' = registry w.
Proof.
  intros Ht Hterm. cbn zeta. unfold HandleTaskOutput.
  set (w0 := if negb (filterOutput (Some o)) then forwardOutput w o else w).
  assert (Hs : scheduler w0 = scheduler w).
  { unfold w0. destruct (negb (filterOutput (Some o)));
      [apply forwardOutput_scheduler | reflexivity]. }
  assert (Hm : manager w0 = manager w /\ registry w0 = registry w).
  { unfold w0, forwardOutput. destruct (negb (filterOutput (Some o)));
      [|auto].
    destruct (outputHandlers (scheduler w) !! OutTaskId o) as [[h|]|]; auto. }
  destruct Hm as [Hm Hr].
  assert (Hdone : forall st,
    tasks (scheduler (completeTask w0 (OutTaskId o) st)) !! OutTaskId o
    = Some (setStatus ti st)
    /\ currentTasks (scheduler (completeTask w0 (OutTaskId o) st))
       = int64 (currentTasks (scheduler w) - 1)
    /\ outputHandlers (scheduler (completeTask w0 (OutTaskId o) st))
         !! OutTaskId o = None
    /\ manager (completeTask w0 (OutTaskId o) st)
       = agent.DecrementTaskCount (manager w) (AgentID ti)
    /\ registry (completeTask w0 (OutTaskId o) st) = registry w).
  { intros st. rewrite <- Hs in Ht.
    destruct (completeTask_keeps_record w0 (OutTaskId o) st ti Ht)
      as (H1 & H2 & H3).
    rewrite (completeTask_manager w0 (OutTaskId o) st ti Ht), Hm.
    destruct (completeTask_rest w0 (OutTaskId o) st) as (H4 & _).
    rewrite H4, Hr, H1, H2, H3, Hs. auto. }
  unfold isTerminal in Hterm.
  destruct (pb.Status o); try discriminate Hterm; apply Hdone.
Qed.

(** X28. A task that is admitted, sent to its agent and ended by a terminal
    output of the agent gives back what it took.  After the dispatch the
    record is running, the handler is still registered, the execute
    request is the one message added to the stream and both counters are
    one higher; after the terminal output the record has the status of the
    output, the handler is gone, and the global counter and the manager
    are as they were before the submission. *)
Theorem ended_task_gives_back_its_slots (w : World) (t : pb.Task)
    (clientID h : string) (now : Z) (a : agent.Agent) (env : Env)
    (o : TaskOutput) :
  (SubmitTask w t clientID (Some h) now).2 = None ->
  agent.agents (manager w) !! AgentId t = Some a ->
  agent.UseStream a = true ->
  streamSender (scheduler w) = true ->
  (StreamSender.SendTaskToAgent (registry w) (AgentId t) t (sendErr env)).2
  = None ->
  isInt64 (currentTasks (scheduler w)) ->
  isInt64 (globalMaxTasks (scheduler w)) ->
  (0 <= agent.CurrentTasks a)%Z ->
  isInt32 (MaxConcurrent (agent.Info a)) ->
  OutTaskId o = TaskId t ->
  isTerminal o = true ->
  let w1 := (SubmitTask w t clientID (Some h) now).1 in
  let w2 := executeTask w1 t env in
  let w3 := HandleTaskOutput w2 (Some o) in
  (Status <$> tasks (scheduler w2) !! TaskId t = Some TASK_STATUS_RUNNING
   /\ outputHandlers (scheduler w2) !! TaskId t = Some (Some h)
   /\ handlerCalls w2 = handlerCalls w
   /\ agent.sent (registry w2)
      = (agent.sent (registry w)
         ++ [(AgentId t, TYPE_EXECUTE_TASK t)])%list
   /\ currentTasks (scheduler w2) = (currentTasks (scheduler w) + 1)%Z
   /\ agent.CurrentTasks <$> agent.agents (manager w2) !! AgentId t
      = Some (agent.CurrentTasks a + 1)%Z)
  /\ (Status <$> tasks (scheduler w3) !! TaskId t = Some (pb.Status o)
      /\ outputHandlers (scheduler w3) !! TaskId t = None
      /\ currentTasks (scheduler w3) = currentTasks (scheduler w)
      /\ manager w3 = manager w
      /\ registry w3 = registry w2).
Proof.
  intros Hok Ha Hus Hss Hsend Hc Hg Hn Hm Hid Hterm.
  destruct (SubmitTask_None_inv w t clientID (Some h) now Hok)
    as (Hlt & a' & Ha' & Hon & Hb).
  rewrite Ha in Ha'. injection Ha' as <-.
  assert (Hr : (0 <= agent.CurrentTasks a < 2147483647)%Z)
    by (unfold isInt32 in Hm; lia).
  pose proof (Increment_then_Decrement (manager w) (AgentId t) a Ha Hr)
    as Hback.
  assert (Hreg : StreamSender.SendTaskToAgent (registry w) (AgentId t) t
                   (sendErr env)
                 = ({| agent.agentStreams := agent.agentStreams (registry w);
                       agent.sent :=
                         agent.sent (registry w)
                         ++ [(AgentId t, TYPE_EXECUTE_TASK t)] |}, None)).
  { revert Hsend. unfold StreamSender.SendTaskToAgent, agent.SendToAgent.
    destruct (bool_decide (AgentId t ∈ agent.agentStreams (registry w)));
      [destruct (sendErr env)|]; cbn; intros H; try discriminate H;
      reflexivity. }
  cbn zeta.
  set (w2 := executeTask (SubmitTask w t clientID (Some h) now).1 t env).
  assert (H2 :
    tasks (scheduler w2) !! TaskId t
    = Some {| Task := t; AgentID := AgentId t;
              Status := TASK_STATUS_RUNNING; CreatedAt := now;
              ClientID := clientID; Cancelled := false |}
    /\ outputHandlers (scheduler w2) !! TaskId t = Some (Some h)
    /\ handlerCalls w2 = handlerCalls w
    /\ agent.sent (registry w2)
       = (agent.sent (registry w)
          ++ [(AgentId t, TYPE_EXECUTE_TASK t)])%list
    /\ currentTasks (scheduler w2) = (currentTasks (scheduler w) + 1)%Z
    /\ manager w2
       = agent.setAgents (manager w)
           (<[AgentId t := agent.setCurrentTasks a
                             (int32 (agent.CurrentTasks a + 1))]>
              (agent.agents (manager w)))).
  { unfold w2, SubmitTask, agent.GetAgent, agent.IncrementTaskCount.
    destruct (Z.leb_spec (globalMaxTasks (scheduler w))
                (currentTasks (scheduler w))); [lia|].
    rewrite Ha. rewrite (bool_decide_eq_true_2 _ Hon). cbn [negb].
    destruct (Z.leb_spec (MaxConcurrent (agent.Info a))
                (agent.CurrentTasks a)); [lia|].
    cbn [fst snd].
    unfold executeTask, updateTaskStatus, agent.GetAgent.
    repeat first [rewrite lookup_insert_eq | progress cbn].
    rewrite Hus, Hss. cbn. rewrite Hreg. cbn.
    rewrite (int64_id (currentTasks (scheduler w) + 1))
      by (unfold isInt64 in *; lia).
    repeat first [rewrite lookup_insert_eq | progress cbn].
    repeat split; reflexivity. }
  destruct H2 as (Ht2 & Hh2 & Hc2 & Hs2 & Hn2 & Hm2).
  split.
  - rewrite Ht2, Hm2. cbn. rewrite lookup_insert_eq. cbn.
    rewrite (int32_id (agent.CurrentTasks a + 1))
      by (unfold isInt32 in *; lia).
    repeat (split; [first [assumption | reflexivity]|]). reflexivity.
  - rewrite <- Hid in Ht2.
    destruct (HandleTaskOutput_terminal_state w2 o _ Ht2 Hterm)
      as (K1 & K2 & K3 & K4 & K5).
    rewrite Hid in K1, K3. rewrite K1, K2, K3, K4, K5, Hn2, Hm2. cbn.
    rewrite Hback.
    replace (currentTasks (scheduler w) + 1 - 1)%Z
      with (currentTasks (scheduler w)) by lia.
    rewrite (int64_id _ Hc). auto.
Qed.

Lemma ended_task_gives_back_its_slots_witness :
  let w1 := (SubmitTask Scenario.ready Scenario.T1 "c1" (Some "c1") 1).1 in
  let w2 := executeTask w1 Scenario.T1 (master.quiet 2) in
  (SubmitTask Scenario.ready Scenario.T1 "c1" (Some "c1") 1).2 = None
  /\ OutTaskId Scenario.probeCompleted = TaskId Scenario.T1
  /\ isTerminal Scenario.probeCompleted = true
  /\ manager (HandleTaskOutput w2 (Some Scenario.probeCompleted))
     = manager Scenario.ready.
Proof.
  cbn zeta.
  assert (Ha : exists a,
             agent.agents (manager Scenario.ready) !! AgentId Scenario.T1
             = Some a
             /\ agent.UseStream a = true
             /\ agent.CurrentTasks a = 0%Z
             /\ MaxConcurrent (agent.Info a) = 5%Z)
    by (eexists; split; [vm_compute; reflexivity | repeat split]).
  destruct Ha as (a & Ha & Hu & Hc & Hm).
  assert (H1 : (SubmitTask Scenario.ready Scenario.T1 "c1" (Some "c1") 1).2
               = None) by (vm_compute; reflexivity).
  assert (H2 : streamSender (scheduler Scenario.ready) = true)
    by (vm_compute; reflexivity).
  assert (H3 : (StreamSender.SendTaskToAgent (registry Scenario.ready)
                  (AgentId Scenario.T1) Scenario.T1
                  (sendErr (master.quiet 2))).2 = None)
    by (vm_compute; reflexivity).
  assert (H4 : isInt64 (currentTasks (scheduler Scenario.ready)))
    by (vm_compute; split; discriminate).
  assert (H5 : isInt64 (globalMaxTasks (scheduler Scenario.ready)))
    by (vm_compute; split; discriminate).
  assert (H6 : (0 <= agent.CurrentTasks a)%Z) by (rewrite Hc; lia).
  assert (H7 : isInt32 (MaxConcurrent (agent.Info a)))
    by (rewrite Hm; vm_compute; split; discriminate).
  assert (H8 : OutTaskId Scenario.probeCompleted = TaskId Scenario.T1)
    by reflexivity.
  assert (H9 : isTerminal Scenario.probeCompleted = true)
    by (vm_compute; reflexivity).
  split; [exact H1|]. split; [exact H8|]. split; [exact H9|].
  exact (proj1 (proj2 (proj2 (proj2 (proj2
    (ended_task_gives_back_its_slots Scenario.ready Scenario.T1 "c1" "c1"
       1 a (master.quiet 2) Scenario.probeCompleted
       H1 Ha Hu H2 H3 H4 H5 H6 H7 H8 H9)))))).
Defined.

End RoundTrip.

(** ** The configuration of an agent *)

Section AgentConfiguration.
Import agentconfig.











End AgentConfiguration.
